(** * Snapshot-test harness of the project template

    A shallow embedding of [src/main.py] (the placeholder model) and of
    [tests/test_snapshots.py] (the snapshot harness), followed by the
    properties of case discovery, case allocation, the three run modes
    and the per-format comparison.

    Conventions of the embedding
    - Python values that travel through [json] are the inductive [pyval];
      Python [int] is [Z], Python [float] is the binary64 [float] of the
      standard library, a [dict] is an association list in insertion
      order.
    - The file system is a tree of named nodes; a [pathlib.Path] is the
      list of its components below the project directory.
    - Code that touches the file system or raises runs in the monad [M]:
      the file system is threaded through, and it survives a raised
      exception (what was written before the raise stays written).
    - A Python [str] is the string of its UTF-8 bytes.
    - pandas, numpy and detquantlib are not part of the repository: what
      the harness needs from them is the interface [Externals]. The
      instance [spec_externals] fills it with the comparisons as the
      specification words them, on binary64 numbers. *)

From Stdlib Require Import ZArith List String Ascii Bool Floats DecimalString DecimalPos Lia.
From stdpp Require Import gmap strings list.

Set Warnings "-register-all".

Open Scope string_scope.
Open Scope list_scope.
Open Scope Z_scope.

(** ** Python values and exceptions *)

Inductive exn : Type :=
  | ValueError (msg : string)
  | KeyError (msg : string)
  | TypeError
  | OverflowError
  | AssertionError
  | FileNotFoundError
  | FileExistsError
  | NotADirectoryError
  | IsADirectoryError
  | JSONDecodeError
  | ParserError
  | EmptyDataError
  | EOFError
  | AttributeError.

Inductive result (A : Type) : Type :=
  | Ok (a : A)
  | Raise (e : exn).
Arguments Ok {A} a.
Arguments Raise {A} e.

Inductive pyval : Type :=
  | PNone
  | PBool (b : bool)
  | PInt (z : Z)
  | PFloat (f : float)
  | PStr (s : string)
  | PList (l : list pyval)
  | PDict (d : list (string * pyval)).

(** [d[k]] on an insertion-ordered dict. *)
Fixpoint dict_get (k : string) (d : list (string * pyval)) : option pyval :=
  match d with
  | [] => None
  | (k', v) :: r => if String.eqb k k' then Some v else dict_get k r
  end.

(** [d[k] = v]: an existing key keeps its position, a new key goes last. *)
Fixpoint dict_set (k : string) (v : pyval) (d : list (string * pyval))
  : list (string * pyval) :=
  match d with
  | [] => [(k, v)]
  | (k', v') :: r =>
      if String.eqb k k' then (k', v) :: r else (k', v') :: dict_set k v r
  end.

Definition py_getitem (o : pyval) (k : string) : result pyval :=
  match o with
  | PDict d =>
      match dict_get k d with
      | Some v => Ok v
      | None => Raise (KeyError k)
      end
  | _ => Raise TypeError
  end.

Definition py_setitem (o : pyval) (k : string) (v : pyval) : result pyval :=
  match o with
  | PDict d => Ok (PDict (dict_set k v d))
  | _ => Raise TypeError
  end.

(** [float(z)]: round to nearest even; too large an [int] overflows. *)
Definition float_of_Z (z : Z) : float :=
  SF2Prim (binary_normalize 53 1024 z 0 false).

(** The integer a finite float denotes, when it denotes one. *)
Definition float_to_Z (f : float) : option Z :=
  match Prim2SF f with
  | S754_zero _ => Some 0
  | S754_finite s m e =>
      let sgn := if s then (-1) else 1 in
      if 0 <=? e then Some (sgn * Z.pos m * 2 ^ e)
      else if Z.pos m mod 2 ^ (- e) =? 0
           then Some (sgn * (Z.pos m / 2 ^ (- e)))
           else None
  | _ => None
  end.

Definition Z_of_bool (b : bool) : Z := if b then 1 else 0.

(** Python's [a - b] on the values [json.load] can return. [bool] is a
    subclass of [int]; an [int] meeting a [float] is converted first. *)
Definition py_sub (a b : pyval) : result pyval :=
  let num (v : pyval) : option (Z + float) :=
    match v with
    | PBool x => Some (inl (Z_of_bool x))
    | PInt z => Some (inl z)
    | PFloat f => Some (inr f)
    | _ => None
    end in
  let to_float (z : Z) : result float :=
    let f := float_of_Z z in
    if PrimFloat.is_infinity f then Raise OverflowError else Ok f in
  match num a, num b with
  | Some (inl x), Some (inl y) => Ok (PInt (x - y))
  | Some (inr x), Some (inr y) => Ok (PFloat (PrimFloat.sub x y))
  | Some (inl x), Some (inr y) =>
      match to_float x with
      | Ok fx => Ok (PFloat (PrimFloat.sub fx y))
      | Raise e => Raise e
      end
  | Some (inr x), Some (inl y) =>
      match to_float y with
      | Ok fy => Ok (PFloat (PrimFloat.sub x fy))
      | Raise e => Raise e
      end
  | _, _ => Raise TypeError
  end.

(** Truth value of an object in an [if]. *)
Definition py_truthy (v : pyval) : bool :=
  match v with
  | PNone => false
  | PBool b => b
  | PInt z => negb (z =? 0)
  | PFloat f => negb (PrimFloat.eqb f 0%float)
  | PStr s => negb (String.eqb s "")
  | PList l => match l with [] => false | _ => true end
  | PDict d => match d with [] => false | _ => true end
  end.

(** Python's [==] on two numbers: exact, also between [int] and [float]. *)
Definition num_eq (a b : Z + float) : bool :=
  match a, b with
  | inl x, inl y => x =? y
  | inr x, inr y => PrimFloat.eqb x y
  | inl x, inr y | inr y, inl x =>
      match float_to_Z y with
      | Some w => x =? w
      | None => false
      end
  end.

(** Two floats that are both NaN. [json.load] hands out one and the same
    object for every NaN it reads, so two NaN met inside containers are
    the same object. *)
Definition same_nan (a b : pyval) : bool :=
  match a, b with
  | PFloat x, PFloat y => PrimFloat.is_nan x && PrimFloat.is_nan y
  | _, _ => false
  end.

(** Python's [==] on parsed JSON: lists position by position, dicts key by
    key whatever the order of the keys. The elements of a list and the
    values of a dict are equal when they are the same object or compare
    equal: NaN is unequal to NaN on its own and equal to it inside a
    container. *)
Fixpoint py_eq (a b : pyval) : bool :=
  match a, b with
  | PNone, PNone => true
  | PStr s, PStr t => String.eqb s t
  | PBool x, PBool y => Bool.eqb x y
  | PBool x, PInt y => num_eq (inl (Z_of_bool x)) (inl y)
  | PBool x, PFloat y => num_eq (inl (Z_of_bool x)) (inr y)
  | PInt x, PBool y => num_eq (inl x) (inl (Z_of_bool y))
  | PInt x, PInt y => num_eq (inl x) (inl y)
  | PInt x, PFloat y => num_eq (inl x) (inr y)
  | PFloat x, PBool y => num_eq (inr x) (inl (Z_of_bool y))
  | PFloat x, PInt y => num_eq (inr x) (inl y)
  | PFloat x, PFloat y => num_eq (inr x) (inr y)
  | PList la, PList lb =>
      (fix go (la lb : list pyval) : bool :=
         match la, lb with
         | [], [] => true
         | x :: xs, y :: ys => (same_nan x y || py_eq x y) && go xs ys
         | _, _ => false
         end) la lb
  | PDict da, PDict db =>
      (length da =? length db)%nat &&
      (fix all (da : list (string * pyval)) : bool :=
         match da with
         | [] => true
         | (k, v) :: r =>
             match dict_get k db with
             | Some w => same_nan v w || py_eq v w
             | None => false
             end && all r
         end) da
  | _, _ => false
  end.

(** *** [int(s)] and [f"{n:02d}"] *)

Definition str_of_Z (z : Z) : string := NilZero.string_of_int (Z.to_int z).

(** [format(n, "02d")]: at least two characters, zeros after the sign. *)
Definition format_02d (n : Z) : string :=
  let s := str_of_Z n in
  if (String.length s <? 2)%nat then "0" +:+ s else s.

(** A [str] is held as its UTF-8 bytes; [code_points] are its characters.
    A byte outside a well-formed sequence stands for the lone surrogate
    U+DC80 .. U+DCFF, which is how a file name reaches Python. *)
Definition byte_val (c : ascii) : Z := Z.of_N (N_of_ascii c).

Definition continuation (c : ascii) : option Z :=
  let b := byte_val c in
  if (0x80 <=? b) && (b <=? 0xBF) then Some (b - 0x80) else None.

Fixpoint code_points (s : string) : list Z :=
  match s with
  | EmptyString => []
  | String c0 r0 =>
      let b0 := byte_val c0 in
      let alone := (if b0 <? 0x80 then b0 else 0xDC00 + b0) :: code_points r0 in
      if (0xC2 <=? b0) && (b0 <=? 0xDF) then
        match r0 with
        | String c1 r1 =>
            match continuation c1 with
            | Some x1 => ((b0 - 0xC0) * 64 + x1) :: code_points r1
            | None => alone
            end
        | _ => alone
        end
      else if (0xE0 <=? b0) && (b0 <=? 0xEF) then
        match r0 with
        | String c1 (String c2 r2) =>
            match continuation c1, continuation c2 with
            | Some x1, Some x2 =>
                let cp := ((b0 - 0xE0) * 64 + x1) * 64 + x2 in
                if (0x800 <=? cp) && negb ((0xD800 <=? cp) && (cp <=? 0xDFFF))
                then cp :: code_points r2
                else alone
            | _, _ => alone
            end
        | _ => alone
        end
      else if (0xF0 <=? b0) && (b0 <=? 0xF4) then
        match r0 with
        | String c1 (String c2 (String c3 r3)) =>
            match continuation c1, continuation c2, continuation c3 with
            | Some x1, Some x2, Some x3 =>
                let cp := (((b0 - 0xF0) * 64 + x1) * 64 + x2) * 64 + x3 in
                if (0x10000 <=? cp) && (cp <=? 0x10FFFF)
                then cp :: code_points r3
                else alone
            | _, _, _ => alone
            end
        | _ => alone
        end
      else alone
  end.

(** The characters [int] skips around a number: ASCII white space and the
    white space of Unicode beyond ASCII. *)
Definition int_spaces : list Z :=
  [0x9; 0xA; 0xB; 0xC; 0xD; 0x20; 0x85; 0xA0; 0x1680; 0x2000; 0x2001;
   0x2002; 0x2003; 0x2004; 0x2005; 0x2006; 0x2007; 0x2008; 0x2009; 0x200A;
   0x2028; 0x2029; 0x202F; 0x205F; 0x3000].

Definition is_space (c : Z) : bool := existsb (Z.eqb c) int_spaces.

(** The digit zero of every decimal digit system of Unicode (category Nd,
    Unicode 14); the nine characters after it are its digits one to nine. *)
Definition decimal_zeros : list Z :=
  [0x30; 0x660; 0x6F0; 0x7C0; 0x966; 0x9E6; 0xA66; 0xAE6; 0xB66; 0xBE6;
   0xC66; 0xCE6; 0xD66; 0xDE6; 0xE50; 0xED0; 0xF20; 0x1040; 0x1090; 0x17E0;
   0x1810; 0x1946; 0x19D0; 0x1A80; 0x1A90; 0x1B50; 0x1BB0; 0x1C40; 0x1C50;
   0xA620; 0xA8D0; 0xA900; 0xA9D0; 0xA9F0; 0xAA50; 0xABF0; 0xFF10; 0x104A0;
   0x10D30; 0x11066; 0x110F0; 0x11136; 0x111D0; 0x112F0; 0x11450; 0x114D0;
   0x11650; 0x116C0; 0x11730; 0x118E0; 0x11950; 0x11C50; 0x11D50; 0x11DA0;
   0x16A60; 0x16AC0; 0x16B50; 0x1D7CE; 0x1D7D8; 0x1D7E2; 0x1D7EC; 0x1D7F6;
   0x1E140; 0x1E2F0; 0x1E950; 0x1FBF0].

(** [unicodedata.decimal(c)], when [c] is a decimal digit. *)
Definition digit_val (c : Z) : option Z :=
  match List.find (fun z => (z <=? c) && (c <=? z + 9)) decimal_zeros with
  | Some z => Some (c - z)
  | None => None
  end.

Fixpoint lstrip (s : list Z) : list Z :=
  match s with
  | c :: r => if is_space c then lstrip r else s
  | [] => s
  end.

(** The run of digits at the head of [s], single underscores allowed
    between two digits: its value, the number of its digits and what
    follows it. [None] when an underscore comes first, follows another
    underscore or comes last. *)
Fixpoint scan_digits (s : list Z) (acc digits : Z) (after_digit : bool)
  : option (Z * Z * list Z) :=
  let stop := if after_digit || (digits =? 0) then Some (acc, digits, s) else None in
  match s with
  | [] => stop
  | c :: r =>
      match digit_val c with
      | Some d => scan_digits r (10 * acc + d) (digits + 1) true
      | None =>
          if c =? 0x5F
          then if after_digit then scan_digits r acc digits false else None
          else stop
      end
  end.

(** [int(s)] in base ten, with CPython's limit of 4300 digits. *)
Definition py_int (s : string) : result Z :=
  let bad :=
    Raise (ValueError ("invalid literal for int() with base 10: '" +:+ s +:+ "'")) in
  let t := lstrip (code_points s) in
  let negative := match t with c :: _ => c =? 0x2D | [] => false end in
  let signed := match t with c :: _ => (c =? 0x2D) || (c =? 0x2B) | [] => false end in
  match scan_digits (if signed then tl t else t) 0 0 false with
  | None => bad
  | Some (n, digits, rest) =>
      if 4300 <? digits
      then Raise (ValueError
                    ("Exceeds the limit (4300 digits) for integer string conversion: value has "
                     +:+ str_of_Z digits
                     +:+ " digits; use sys.set_int_max_str_digits() to increase the limit"))
      else if (digits =? 0) || negb (bool_decide (lstrip rest = [])) then bad
      else Ok (if negative then - n else n)
  end.

(** ** Paths *)

(** A [pathlib.Path] below the project directory, as its components. *)
Definition path := list string.

Definition joinpath (p : path) (parts : list string) : path := p ++ parts.

(** [p.name]: the final component, empty for the project directory. *)
Definition name (p : path) : string := List.last p "".

(** [p.relative_to(other)]. *)
Fixpoint relative_to (p other : path) : result path :=
  match other, p with
  | [], _ => Ok p
  | y :: other', x :: p' =>
      if String.eqb x y then relative_to p' other'
      else Raise (ValueError "path is not in the subpath of the other")
  | _ :: _, [] => Raise (ValueError "path is not in the subpath of the other")
  end.

(** Position of the last ["."] of [s], scanning from position [i]. *)
Fixpoint rfind_dot (s : string) (i : nat) (found : option nat) : option nat :=
  match s with
  | EmptyString => found
  | String c r =>
      rfind_dot r (S i) (if Ascii.eqb c "." then Some i else found)
  end.

(** [p.suffix]: from the last dot of the name on, unless that dot is the
    first or the last character of the name. *)
Definition suffix (p : path) : string :=
  let n := name p in
  match rfind_dot n 0 None with
  | Some i =>
      if ((0 <? i) && (i <? String.length n - 1))%nat
      then String.substring i (String.length n - i) n
      else ""
  | None => ""
  end.

(** [s.startswith(pre)]. *)
Definition startswith (s pre : string) : bool := String.prefix pre s.

(** [s[4:]]. *)
Definition drop4 (s : string) : string :=
  String.substring 4 (String.length s - 4) s.

(** ** The file system *)

(** A numpy array: its shape and its elements in row-major order. *)
Record ndarray : Type := { shape : list nat; elems : list float }.

(** What a file holds. A file is read back by the reader of the format it
    was written in; another reader fails to parse it. *)
Inductive content : Type :=
  | JsonFile (v : pyval)
  | CsvFile (rows : list (list string))
  | NpzFile (members : list (string * ndarray))
  | RawFile (text : string).

Inductive node : Type :=
  | File (c : content)
  | Dir (entries : list (string * node)).

Fixpoint entry_get (x : string) (es : list (string * node)) : option node :=
  match es with
  | [] => None
  | (y, n) :: r => if String.eqb x y then Some n else entry_get x r
  end.

(** Replace the entry called [x], or add it at the end of the listing. *)
Fixpoint entry_set (x : string) (n : node) (es : list (string * node))
  : list (string * node) :=
  match es with
  | [] => [(x, n)]
  | (y, m) :: r =>
      if String.eqb x y then (y, n) :: r else (y, m) :: entry_set x n r
  end.

Fixpoint entry_del (x : string) (es : list (string * node))
  : list (string * node) :=
  match es with
  | [] => []
  | (y, m) :: r =>
      if String.eqb x y then entry_del x r else (y, m) :: entry_del x r
  end.

Fixpoint lookup_node (p : path) (n : node) : option node :=
  match p with
  | [] => Some n
  | x :: r =>
      match n with
      | Dir es =>
          match entry_get x es with
          | Some ch => lookup_node r ch
          | None => None
          end
      | File _ => None
      end
  end.

(** [open(p).read()]. *)
Fixpoint read_at (p : path) (n : node) : result content :=
  match p, n with
  | [], File c => Ok c
  | [], Dir _ => Raise IsADirectoryError
  | _ :: _, File _ => Raise NotADirectoryError
  | x :: r, Dir es =>
      match entry_get x es with
      | Some ch => read_at r ch
      | None => Raise FileNotFoundError
      end
  end.

(** [open(p, "w").write(c)]: the parent must exist; the file is created or
    truncated. *)
Fixpoint write_at (p : path) (c : content) (n : node) : result node :=
  match p, n with
  | [], _ => Raise IsADirectoryError
  | _ :: _, File _ => Raise NotADirectoryError
  | [x], Dir es =>
      match entry_get x es with
      | Some (Dir _) => Raise IsADirectoryError
      | _ => Ok (Dir (entry_set x (File c) es))
      end
  | x :: r, Dir es =>
      match entry_get x es with
      | Some ch =>
          match write_at r c ch with
          | Ok ch' => Ok (Dir (entry_set x ch' es))
          | Raise e => Raise e
          end
      | None => Raise FileNotFoundError
      end
  end.

(** [p.mkdir(parents=True, exist_ok=True)]. *)
Fixpoint mkdir_at (p : path) (n : node) : result node :=
  match p, n with
  | [], Dir _ => Ok n
  | [], File _ => Raise FileExistsError
  | _ :: _, File _ => Raise NotADirectoryError
  | x :: r, Dir es =>
      match mkdir_at r (default (Dir []) (entry_get x es)) with
      | Ok ch' => Ok (Dir (entry_set x ch' es))
      | Raise e => Raise e
      end
  end.

(** [shutil.rmtree(p)]. The project directory itself is never removed. *)
Fixpoint rmtree_at (p : path) (n : node) : result node :=
  match p, n with
  | [], _ => Raise (ValueError "cannot remove the project directory")
  | _ :: _, File _ => Raise NotADirectoryError
  | [x], Dir es =>
      match entry_get x es with
      | Some (Dir _) => Ok (Dir (entry_del x es))
      | Some (File _) => Raise NotADirectoryError
      | None => Raise FileNotFoundError
      end
  | x :: r, Dir es =>
      match entry_get x es with
      | Some ch =>
          match rmtree_at r ch with
          | Ok ch' => Ok (Dir (entry_set x ch' es))
          | Raise e => Raise e
          end
      | None => Raise FileNotFoundError
      end
  end.

Definition is_dir_at (p : path) (n : node) : bool :=
  match lookup_node p n with
  | Some (Dir _) => true
  | _ => false
  end.

Definition is_dir_node (n : node) : bool :=
  match n with Dir _ => true | File _ => false end.

(** [os.walk(top)], top-down: for each directory its path, the names of its
    sub-directories and the names of its files, in listing order. A [top]
    that is not a directory yields nothing. *)
Fixpoint walk_node (base : path) (n : node)
  : list (path * list string * list string) :=
  match n with
  | File _ => []
  | Dir es =>
      (base,
       map fst (List.filter (fun e => is_dir_node (snd e)) es),
       map fst (List.filter (fun e => negb (is_dir_node (snd e))) es))
      :: (fix below (es : list (string * node)) :=
            match es with
            | [] => []
            | (x, ch) :: r => walk_node (base ++ [x]) ch ++ below r
            end) es
  end.

Definition os_walk (top : path) (fs : node)
  : list (path * list string * list string) :=
  match lookup_node top fs with
  | Some n => walk_node top n
  | None => []
  end.

(** *** The monad of the harness: file system, trace and exceptions *)

(** What the harness is seen to do besides writing: the files it opens for
    reading and the comparisons it asks the libraries for. *)
Inductive event : Type :=
  | Read (p : path)
  | FrameCompared
  | JsonCompared
  | ArrayCompared (member : string).

Record world : Type := World { fs_of : node; trace_of : list event }.

Definition M (A : Type) : Type := world -> world * result A.

Definition ret {A} (a : A) : M A := fun w => (w, Ok a).
Definition raise {A} (e : exn) : M A := fun w => (w, Raise e).
Definition bind {A B} (m : M A) (k : A -> M B) : M B :=
  fun w =>
    match m w with
    | (w', Ok a) => k a w'
    | (w', Raise e) => (w', Raise e)
    end.

Declare Scope harness_scope.
Delimit Scope harness_scope with harness.
Notation "x <- m ;; k" := (bind m (fun x => k))
  (at level 100, m at next level, right associativity) : harness_scope.
Notation "m ;; k" := (bind m (fun _ => k))
  (at level 100, right associativity) : harness_scope.
Open Scope harness_scope.

(** A pure computation that may raise. *)
Definition lift {A} (r : result A) : M A := fun w => (w, r).

(** A look at the file system. *)
Definition reads {A} (f : node -> result A) : M A :=
  fun w => (w, f (fs_of w)).

(** An update of the file system; a failed update leaves it as it was. *)
Definition updates (f : node -> result node) : M unit :=
  fun w =>
    match f (fs_of w) with
    | Ok fs' => (World fs' (trace_of w), Ok tt)
    | Raise e => (w, Raise e)
    end.

Definition log (e : event) : M unit :=
  fun w => (World (fs_of w) (trace_of w ++ [e]), Ok tt).

Definition is_dir (p : path) : M bool := reads (fun fs => Ok (is_dir_at p fs)).
Definition mkdir (p : path) : M unit := updates (mkdir_at p).
Definition rmtree (p : path) : M unit := updates (rmtree_at p).
Definition open_read (p : path) : M content := log (Read p) ;; reads (read_at p).
Definition open_write (p : path) (c : content) : M unit := updates (write_at p c).

(** [p.iterdir()]: the paths of the entries of directory [p]. *)
Definition iterdir (p : path) : M (list path) :=
  reads (fun fs =>
    match lookup_node p fs with
    | Some (Dir es) => Ok (map (fun e => p ++ [fst e]) es)
    | Some (File _) => Raise NotADirectoryError
    | None => Raise FileNotFoundError
    end).

(** [for x in l: body(x)]. *)
Fixpoint for_each {A} (l : list A) (body : A -> M unit) : M unit :=
  match l with
  | [] => ret tt
  | x :: r => body x ;; for_each r body
  end.

(** [[f(x) for x in l]]. *)
Fixpoint map_m {A B} (f : A -> M B) (l : list A) : M (list B) :=
  match l with
  | [] => ret []
  | x :: r => y <- f x ;; ys <- map_m f r ;; ret (y :: ys)
  end.

(** [[x for x in l if cond(x)]]. *)
Fixpoint filter_m {A} (cond : A -> M bool) (l : list A) : M (list A) :=
  match l with
  | [] => ret []
  | x :: r =>
      b <- cond x ;; xs <- filter_m cond r ;; ret (if b then x :: xs else xs)
  end.

(** [json.load(open(p))]. *)
Definition json_load (p : path) : M pyval :=
  c <- open_read p ;;
  match c with
  | JsonFile v => ret v
  | _ => raise JSONDecodeError
  end.

(** [json.dump(v, open(p, "w"), indent=4)]. *)
Definition json_dump (v : pyval) (p : path) : M unit :=
  open_write p (JsonFile v).

(** ** The libraries: pandas, numpy, detquantlib *)

(** A [pandas.DataFrame]: the index labels and the named columns, each
    column as long as the index. *)
Record DataFrame : Type :=
  { df_index : list pyval; df_columns : list (string * list pyval) }.

(** What the harness takes from outside the repository. *)
Class Externals : Type := {
  (** [Path.cwd()] *)
  cwd : path;
  (** the folder [OutputItem.export_to_file()] writes to when it is given none *)
  default_folder : path;
  (** [str(x)] for a float or a container, as [DataFrame.to_csv] prints it *)
  py_str : pyval -> string;
  (** the table [pandas.read_csv] parses from the rows of a csv file *)
  pd_parse : list (list string) -> result DataFrame;
  (** [pandas.testing.assert_frame_equal(left, right, atol, rtol)] passes *)
  pd_frame_equal : DataFrame -> DataFrame -> pyval -> pyval -> bool;
  (** [numpy.testing.assert_allclose(actual, desired, atol, rtol)] passes *)
  np_allclose : ndarray -> ndarray -> pyval -> pyval -> bool
}.

(** [pd.DataFrame(index=..., columns=...)]: every cell is NaN. *)
Definition pd_DataFrame (index : list pyval) (columns : list string) : DataFrame :=
  {| df_index := index;
     df_columns := map (fun c => (c, map (fun _ => PFloat nan) index)) columns |}.

Fixpoint column_set (c : string) (vs : list pyval)
  (cols : list (string * list pyval)) : list (string * list pyval) :=
  match cols with
  | [] => [(c, vs)]
  | (c', vs') :: r =>
      if String.eqb c c' then (c', vs) :: r else (c', vs') :: column_set c vs r
  end.

(** [df[c] = v] for a scalar [v]: the column holds [v] in every row. *)
Definition df_setitem (df : DataFrame) (c : string) (v : pyval) : DataFrame :=
  {| df_index := df_index df;
     df_columns := column_set c (map (fun _ => v) (df_index df)) (df_columns df) |}.

Section ToCsv.
Context `{Externals}.

Definition cell_str (v : pyval) : string :=
  match v with
  | PNone => ""
  | PBool b => if b then "True" else "False"
  | PInt z => str_of_Z z
  | PStr s => s
  | PFloat f => if PrimFloat.is_nan f then "" else py_str v
  | _ => py_str v
  end.

Fixpoint csv_body (index : list pyval) (cols : list (list pyval))
  : list (list string) :=
  match index with
  | [] => []
  | l :: r =>
      (cell_str l :: map (fun c => cell_str (hd PNone c)) cols)
      :: csv_body r (map (@tl pyval) cols)
  end.

(** [df.to_csv(...)]: a header row with an empty label for the index, then
    one row per index label. *)
Definition to_csv (df : DataFrame) : list (list string) :=
  ("" :: map fst (df_columns df))
  :: csv_body (df_index df) (map snd (df_columns df)).
End ToCsv.

(** One line of a csv file. *)
Definition csv_line (fields : list string) : string := String.concat "," fields.

(** detquantlib's output items: the data, the file name and the extension. *)
Inductive item_data : Type :=
| FrameData (df : DataFrame)
| JsonData (v : pyval)
| ArrayData (members : list (string * ndarray))
| HtmlData (text : string).

Record OutputItem : Type :=
{ data : item_data; filename : string; extension : string }.

Record OutputSet : Type := { output_items : list OutputItem }.

Definition OutputSet_new : OutputSet := {| output_items := [] |}.

Definition add_item (s : OutputSet) (d : item_data) (fname ext : string)
: OutputSet :=
{| output_items :=
     output_items s ++ [{| data := d; filename := fname; extension := ext |}] |}.

Section Model.
Context `{Externals}.

(** [item.export_to_file(folder_dir)]: the folder is made first, with its
    parents; then the data go to the file [<filename>.<extension>] in the
    writer of the extension. An extension without a writer is refused,
    and so are data the writer of the extension cannot take. *)
Definition export_to_file (item : OutputItem) (folder_dir : option path)
  : M unit :=
  let folder := default default_folder folder_dir in
  mkdir folder ;;
  let file := joinpath folder [filename item +:+ "." +:+ extension item] in
  let ext := extension item in
  if String.eqb ext "csv" then
    match data item with
    | FrameData df => open_write file (CsvFile (to_csv df))
    | _ => raise AttributeError
    end
  else if String.eqb ext "json" then
    match data item with
    | JsonData v => open_write file (JsonFile v)
    | _ => raise TypeError
    end
  else if String.eqb ext "html" then
    match data item with
    | HtmlData t => open_write file (RawFile t)
    | _ => raise AttributeError
    end
  else if String.eqb ext "npz" then
    match data item with
    | ArrayData ms => open_write file (NpzFile ms)
    | _ => raise TypeError
    end
  else raise (ValueError ("Invalid file extension '" +:+ ext +:+ "'.")).

(** *** src/main.py *)

Definition main (settings_dict : pyval) : M OutputSet :=
  settings_dict <-
    match settings_dict with
    | PNone =>
        let input_dir := joinpath cwd ["Inputs"] in
        let settings_json_dir := joinpath input_dir ["settings.json"] in
        json_load settings_json_dir
    | _ => ret settings_dict
    end ;;
  let df := pd_DataFrame [PInt 0] ["total"] in
  a <- lift (py_getitem settings_dict "a") ;;
  b <- lift (py_getitem settings_dict "b") ;;
  total <- lift (py_sub a b) ;;
  let df := df_setitem df "total" total in
  let output_set := add_item OutputSet_new (FrameData df) "df" "csv" in
  flag <- lift (py_getitem settings_dict "create_output_files") ;;
  (if py_truthy flag
   then for_each (output_items output_set)
          (fun item => export_to_file item None)
   else ret tt) ;;
  ret output_set.
End Model.

(** ** tests/test_snapshots.py *)

Definition TESTS_BASE_DIR : path := ["tests"].
Definition PROJECT_BASE_DIR : path := [].
Definition SNAPSHOTS_DIR : path := joinpath TESTS_BASE_DIR ["snapshots"].
Definition EXPECTED_OUTPUTS_FOLDER : string := "ExpectedOutputs".
Definition OUTPUTS_FOLDER_NAME : string := "TempOutputs".
Definition INPUTS_FOLDER_NAME : string := "Inputs".
Definition SETTINGS_FILENAME : string := "settings.json".
(** The double nearest to 1e-8. *)
Definition ABSOLUTE_TOLERANCE : pyval := PFloat 0x1.5798ee2308c3ap-27%float.
Definition RELATIVE_TOLERANCE : pyval := PInt 0.

Definition find_cases : M (list path) :=
  b <- is_dir SNAPSHOTS_DIR ;;
  if b
  then fs <- iterdir SNAPSHOTS_DIR ;;
       filter_m
         (fun f => d <- is_dir f ;; ret (d && startswith (name f) "Case")) fs
  else ret [].

(** [max(l)]. *)
Definition py_max (l : list Z) : result Z :=
  match l with
  | [] => Raise (ValueError "max() arg is an empty sequence")
  | x :: r => Ok (fold_left Z.max r x)
  end.

(** [range(a, b)]. *)
Definition range (a b : Z) : list Z := seqZ a (b - a).

(** [i in l]. *)
Definition py_in (i : Z) (l : list Z) : bool := existsb (Z.eqb i) l.

(** The block "Determine new case number" of [create_new_case_folder]. *)
Definition determine_new_case_number (case_numbers : list Z) : result Z :=
  match py_max case_numbers with
  | Raise e => Raise e
  | Ok m =>
      let new_case_number :=
        fold_left
          (fun (new_case_number : option Z) i =>
             if negb (py_in i case_numbers) then Some i else new_case_number)
          (range 1 m) None in
      match new_case_number with
      | Some n => Ok n
      | None => Ok (m + 1)
      end
  end.

Definition create_new_case_folder : M path :=
  cases <- find_cases ;;
  case_numbers <- map_m (fun c => lift (py_int (drop4 (name c)))) cases ;;
  new_case_number <- lift (determine_new_case_number case_numbers) ;;
  let new_case := "Case" +:+ format_02d new_case_number in
  let new_case_dir := joinpath SNAPSHOTS_DIR [new_case] in
  mkdir new_case_dir ;;
  ret new_case_dir.

Definition load_settings (base_dir : path) : M pyval :=
  let settings_dir := joinpath base_dir [INPUTS_FOLDER_NAME; SETTINGS_FILENAME] in
  settings <- json_load settings_dir ;;
  lift (py_setitem settings "create_output_files" (PBool false)).

Definition export_settings (case_dir : path) (settings : pyval) : M unit :=
  let inputs_dir := joinpath case_dir [INPUTS_FOLDER_NAME] in
  b <- is_dir inputs_dir ;;
  (if b then rmtree inputs_dir else ret tt) ;;
  mkdir inputs_dir ;;
  let settings_json_dir := joinpath inputs_dir [SETTINGS_FILENAME] in
  json_dump settings settings_json_dir.

Section Harness.
Context `{Externals}.

Definition export_outputs (outputs_dir : path) (output_set : OutputSet) : M unit :=
  b <- is_dir outputs_dir ;;
  (if b then rmtree outputs_dir else ret tt) ;;
  mkdir outputs_dir ;;
  for_each (output_items output_set)
    (fun item =>
       if negb (String.eqb (extension item) "html")
       then export_to_file item (Some outputs_dir)
       else ret tt).

(** A file of no bytes. *)
Definition is_empty_file (c : content) : bool :=
  match c with
  | RawFile "" | CsvFile [] => true
  | _ => false
  end.

(** [pd.read_csv(p)]: an empty file has no columns to parse. *)
Definition pd_read_csv (p : path) : M DataFrame :=
  c <- open_read p ;;
  match c with
  | CsvFile rows => lift (pd_parse rows)
  | _ => if is_empty_file c then raise EmptyDataError else raise ParserError
  end.

(** [pd.testing.assert_frame_equal(left, right, atol=.., rtol=..)]. *)
Definition pd_assert_frame_equal (left right : DataFrame) (atol rtol : pyval)
  : M unit :=
  log FrameCompared ;;
  if pd_frame_equal left right atol rtol then ret tt else raise AssertionError.

(** [np.load(p)], which leaves [allow_pickle] off: a file that is no
    archive is taken for a pickle and refused, an empty file has nothing
    to read. *)
Definition np_load (p : path) : M (list (string * ndarray)) :=
  c <- open_read p ;;
  match c with
  | NpzFile members => ret members
  | _ =>
      if is_empty_file c
      then raise EOFError
      else raise (ValueError
                    "Cannot load file containing pickled data when allow_pickle=False")
  end.

(** [archive.files]. *)
Definition files (archive : list (string * ndarray)) : list string :=
  map fst archive.

(** [archive[name]]. *)
Fixpoint npz_getitem (archive : list (string * ndarray)) (nm : string)
  : result ndarray :=
  match archive with
  | [] => Raise (KeyError (nm +:+ " is not a file in the archive"))
  | (k, a) :: r => if String.eqb nm k then Ok a else npz_getitem r nm
  end.

(** [np.testing.assert_allclose(actual, desired, atol=.., rtol=..)]. *)
Definition np_assert_allclose (member : string) (actual desired : ndarray)
  (atol rtol : pyval) : M unit :=
  log (ArrayCompared member) ;;
  if np_allclose actual desired atol rtol then ret tt else raise AssertionError.

Definition assert_csv (output_file_dir expected_output_file_dir : path) : M unit :=
  data <- pd_read_csv output_file_dir ;;
  expected_data <- pd_read_csv expected_output_file_dir ;;
  pd_assert_frame_equal data expected_data ABSOLUTE_TOLERANCE RELATIVE_TOLERANCE.

Definition assert_json (output_file_dir expected_output_file_dir : path) : M unit :=
  data <- json_load output_file_dir ;;
  expected_data <- json_load expected_output_file_dir ;;
  log JsonCompared ;;
  if py_eq data expected_data then ret tt else raise AssertionError.

Definition assert_npz (output_file_dir expected_output_file_dir : path) : M unit :=
  data <- np_load output_file_dir ;;
  expected_data <- np_load expected_output_file_dir ;;
  if negb (bool_decide
             ((list_to_set (files data) : gset string)
              = list_to_set (files expected_data)))
  then raise (KeyError "The .npz archives have different keys.")
  else
    for_each (files expected_data)
      (fun nm =>
         a <- lift (npz_getitem data nm) ;;
         e <- lift (npz_getitem expected_data nm) ;;
         np_assert_allclose nm a e ABSOLUTE_TOLERANCE RELATIVE_TOLERANCE).

Definition assert_file (output_file_dir expected_output_file_dir : path) : M unit :=
  let extension := suffix expected_output_file_dir in
  if String.eqb extension ".csv"
  then assert_csv output_file_dir expected_output_file_dir
  else if String.eqb extension ".json"
  then assert_json output_file_dir expected_output_file_dir
  else if String.eqb extension ".html"
  then ret tt
  else if String.eqb extension ".npz"
  then assert_npz output_file_dir expected_output_file_dir
  else raise (ValueError ("File extension '" +:+ extension +:+ "' is not supported.")).

(** The comparison only reads, so the directories [os.walk] yields lazily
    are the ones it would yield up front. *)
Definition compare_outputs (expected_outputs_base_dir outputs_base_dir : path)
  : M unit :=
  walk <- reads (fun fs => Ok (os_walk expected_outputs_base_dir fs)) ;;
  for_each walk
    (fun '(base_dir, folder_names, filenames) =>
       for_each filenames
         (fun f =>
            let expected_output_file_dir := joinpath base_dir [f] in
            dir_suffix <-
              lift (relative_to expected_output_file_dir expected_outputs_base_dir) ;;
            let output_file_dir := joinpath outputs_base_dir dir_suffix in
            assert_file output_file_dir expected_output_file_dir)).

(** The body of the loop [for case_dir in cases] of [test_snapshots]. *)
Definition test_snapshots_case (run_type : string) (case_dir : path) : M unit :=
  let inputs_base_dir :=
    if String.eqb run_type "create" then PROJECT_BASE_DIR else case_dir in
  settings <- load_settings inputs_base_dir ;;
  output_set <- main settings ;;
  let expected_outputs_base_dir := joinpath case_dir [EXPECTED_OUTPUTS_FOLDER] in
  let outputs_base_dir := joinpath case_dir [OUTPUTS_FOLDER_NAME] in
  (if String.eqb run_type "create"
   then export_settings case_dir settings ;;
        export_outputs expected_outputs_base_dir output_set
   else ret tt) ;;
  if String.eqb run_type "update"
  then export_outputs expected_outputs_base_dir output_set
  else if String.eqb run_type "compare"
  then export_outputs outputs_base_dir output_set ;;
       compare_outputs expected_outputs_base_dir outputs_base_dir ;;
       rmtree outputs_base_dir
  else ret tt.

Definition test_snapshots (run_type : string) : M unit :=
  let accepted_run_types := ["compare"; "update"; "create"] in
  if negb (existsb (String.eqb run_type) accepted_run_types)
  then
    let accepted_run_types_str :=
      String.concat ", " (map (fun item => "'" +:+ item +:+ "'") accepted_run_types) in
    raise (ValueError ("Invalid input 'run_type'='" +:+ run_type
                       +:+ "'. Accepted values: " +:+ accepted_run_types_str +:+ "."))
  else
    cases <-
      (if String.eqb run_type "create"
       then c <- create_new_case_folder ;; ret [c]
       else find_cases) ;;
    for_each cases (test_snapshots_case run_type).

End Harness.

(** *** A concrete stand-in for the libraries

    Comparisons by plain equality and a csv parser that keeps every field
    as a string: enough to run the harness on examples. *)

Definition ndarray_eqb (a b : ndarray) : bool :=
  bool_decide (shape a = shape b) &&
  (length (elems a) =? length (elems b))%nat &&
  forallb (fun xy => PrimFloat.eqb (fst xy) (snd xy)) (combine (elems a) (elems b)).

Definition frame_eqb (a b : DataFrame) : bool :=
  py_eq (PList (df_index a)) (PList (df_index b)) &&
  bool_decide (map fst (df_columns a) = map fst (df_columns b)) &&
  py_eq (PList (map (fun c => PList (snd c)) (df_columns a)))
        (PList (map (fun c => PList (snd c)) (df_columns b))).

Definition parse_rows (rows : list (list string)) : result DataFrame :=
  match rows with
  | [] => Raise EmptyDataError
  | header :: body =>
      Ok {| df_index := map (fun i => PInt (Z.of_nat i)) (seq 0 (length body));
            df_columns :=
              imap (fun j c => (c, map (fun r => PStr (nth j r "")) body)) header |}
  end.

#[local] Instance plain_externals : Externals :=
  {| cwd := [];
     default_folder := ["Outputs"];
     py_str := fun _ => "?";
     pd_parse := parse_rows;
     pd_frame_equal := fun a b _ _ => frame_eqb a b;
     np_allclose := fun a b _ _ => ndarray_eqb a b |}.

(** *** The comparisons as the specification words them

    The closeness test of the two comparisons and the numbers of a csv
    file, on the binary64 floats: absolute difference at most
    [atol + rtol * |desired|]. *)

(** A tolerance given as a Python number. *)
Definition tolerance (v : pyval) : option float :=
  match v with
  | PBool b => Some (float_of_Z (Z_of_bool b))
  | PInt z => Some (float_of_Z z)
  | PFloat f => Some f
  | _ => None
  end.

(** Modelled from the spec: two numbers are close when their absolute
    difference does not exceed [atol + rtol * |desired|]; NaN is close to
    NaN only and an infinity to itself only. *)
Definition close (atol rtol actual desired : float) : bool :=
  if PrimFloat.is_nan actual || PrimFloat.is_nan desired
  then PrimFloat.is_nan actual && PrimFloat.is_nan desired
  else if PrimFloat.is_infinity actual || PrimFloat.is_infinity desired
  then PrimFloat.eqb actual desired
  else PrimFloat.leb (abs (actual - desired)) (atol + rtol * abs desired).

(** Modelled from the spec: numeric cells are compared under the
    tolerances, the other cells for exact equality. *)
Definition cell_close (atol rtol : pyval) (a b : pyval) : bool :=
  match a, b with
  | PFloat x, PFloat y =>
      match tolerance atol, tolerance rtol with
      | Some t, Some r => close t r x y
      | _, _ => false
      end
  | _, _ => py_eq a b
  end.

Fixpoint cells_close (atol rtol : pyval) (l r : list pyval) : bool :=
  match l, r with
  | [], [] => true
  | a :: l', b :: r' => cell_close atol rtol a b && cells_close atol rtol l' r'
  | _, _ => false
  end.

Fixpoint columns_close (atol rtol : pyval) (l r : list (string * list pyval))
  : bool :=
  match l, r with
  | [], [] => true
  | (c, xs) :: l', (d, ys) :: r' =>
      String.eqb c d && cells_close atol rtol xs ys
      && columns_close atol rtol l' r'
  | _, _ => false
  end.

(** Modelled from the spec: two tables are equal when they have the same
    rows in the same order, the same column names in the same order, and
    close cells column by column. *)
Definition frame_close (left right : DataFrame) (atol rtol : pyval) : bool :=
  py_eq (PList (df_index left)) (PList (df_index right))
  && columns_close atol rtol (df_columns left) (df_columns right).

(** The one element of an array of no dimension. *)
Definition scalar (a : ndarray) : option float :=
  match shape a, elems a with
  | [], [x] => Some x
  | _, _ => None
  end.

(** Modelled from the spec: two arrays are close when they have the same
    shape and close elements; an array of no dimension is compared with
    every element of the other array. *)
Definition array_close (actual desired : ndarray) (atol rtol : pyval) : bool :=
  match tolerance atol, tolerance rtol with
  | Some t, Some r =>
      match scalar actual, scalar desired with
      | Some x, _ => forallb (fun y => close t r x y) (elems desired)
      | None, Some y => forallb (fun x => close t r x y) (elems actual)
      | None, None =>
          bool_decide (shape actual = shape desired)
          && (length (elems actual) =? length (elems desired))%nat
          && forallb (fun xy => close t r (fst xy) (snd xy))
               (combine (elems actual) (elems desired))
      end
  | _, _ => false
  end.

(** The decimal digits at the head of a csv field: their value, their
    number and what follows them. *)
Fixpoint field_digits (s : string) (acc count : Z) : Z * Z * string :=
  match s with
  | String c r =>
      let b := byte_val c in
      if (0x30 <=? b) && (b <=? 0x39)
      then field_digits r (10 * acc + (b - 0x30)) (count + 1)
      else (acc, count, s)
  | EmptyString => (acc, count, s)
  end.

(** A sign at the head of a field: whether it is a minus, and the rest. *)
Definition field_sign (s : string) : bool * string :=
  match s with
  | String "-" r => (true, r)
  | String "+" r => (false, r)
  | _ => (false, s)
  end.

(** Modelled from the spec: the number a csv field denotes, written as a
    sign, digits, a fraction and an exponent (the last three optional, at
    least one digit before the exponent). The double is the one nearest
    to the digits read as an integer, scaled by the power of ten. *)
Definition field_number (s : string) : option float :=
  let '(negative, s1) := field_sign s in
  let '(whole, n1, s2) := field_digits s1 0 0 in
  let '(mantissa, n2, s3) :=
    match s2 with
    | String "." r => field_digits r whole 0
    | _ => (whole, 0, s2)
    end in
  let exponent : option Z :=
    match s3 with
    | EmptyString => Some 0
    | String c r =>
        if Ascii.eqb c "e" || Ascii.eqb c "E"
        then let '(minus, r1) := field_sign r in
             let '(e, n3, r2) := field_digits r1 0 0 in
             if (0 <? n3) && String.eqb r2 ""
             then Some (if minus then - e else e)
             else None
        else None
    end in
  match exponent with
  | Some e =>
      if n1 + n2 =? 0 then None
      else
        let scale := e - n2 in
        let magnitude :=
          if 0 <=? scale
          then float_of_Z (mantissa * 10 ^ scale)
          else (float_of_Z mantissa / float_of_Z (10 ^ (- scale)))%float in
        Some (if negative then (- magnitude)%float else magnitude)
  | None => None
  end.

(** Modelled from the spec: a field that denotes a number is a numeric
    cell, an empty field a missing number, any other field a text. *)
Definition field_cell (s : string) : pyval :=
  match field_number s with
  | Some f => PFloat f
  | None => if String.eqb s "" then PFloat nan else PStr s
  end.

(** Modelled from the spec: the table of a csv file: the first row names
    the columns, the other rows are numbered from zero. *)
Definition read_rows (rows : list (list string)) : result DataFrame :=
  match rows with
  | [] => Raise EmptyDataError
  | header :: body =>
      Ok {| df_index := map (fun i => PInt (Z.of_nat i)) (seq 0 (length body));
            df_columns :=
              imap (fun j c => (c, map (fun r => field_cell (nth j r "")) body))
                   header |}
  end.

(** Modelled from the spec: the libraries with these comparisons. *)
#[local] Instance spec_externals : Externals :=
  {| cwd := [];
     default_folder := ["Outputs"];
     py_str := fun _ => "?";
     pd_parse := read_rows;
     pd_frame_equal := frame_close;
     np_allclose := array_close |}.

(** ** Vocabulary of the statements *)

(** The names listed in directory [p]. *)
Definition listdir (p : path) (fs : node) : list string :=
  match lookup_node p fs with
  | Some (Dir es) => map fst es
  | _ => []
  end.

(** The files below [top], each as its path relative to [top]. *)
Definition files_below (top : path) (fs : node) : list path :=
  flat_map
    (fun '(base_dir, _, filenames) =>
       map (fun f => drop (length top) (base_dir ++ [f])) filenames)
    (os_walk top fs).

(** The extensions [assert_file] has a comparison (or a skip) for. *)
Definition supported (ext : string) : Prop :=
  ext = ".csv" \/ ext = ".json" \/ ext = ".html" \/ ext = ".npz".

(** A computation that only looks: it hands the file system back as it
    got it. *)
Definition keeps_fs {A} (m : M A) : Prop :=
  forall w, fs_of (fst (m w)) = fs_of w.

(** A successful run on the file system [fs] is a successful run on
    [fs2], with the same trace and the same result. *)
Definition transfers (fs fs2 : node) {A} (m : M A) : Prop :=
  forall t w' a,
    m (World fs t) = (w', Ok a) ->
    m (World fs2 t) = (World fs2 (trace_of w'), Ok a) /\ fs_of w' = fs.

(** The only files a run opens for reading are those in [S]. *)
Definition reads_only (S : path -> Prop) {A} (m : M A) : Prop :=
  forall w w' r p,
    m w = (w', r) ->
    In (Read p) (trace_of w') -> In (Read p) (trace_of w) \/ S p.

(** A snapshots directory with the given entries, next to nothing else. *)
Definition snapshots_fs (entries : list (string * node)) : node :=
  Dir [("tests", Dir [("snapshots", Dir entries)])].

(** Two paths part ways: after a common beginning [c] they go on with
    different names. Neither is then above or below the other. *)
Definition diverges (q p : path) : Prop :=
  exists c x y r q', p = c ++ x :: r /\ q = c ++ y :: q' /\ x <> y.

(** A run changes nothing at the paths that part ways with [p], however
    it ends. *)
Definition confined (p : path) {A} (m : M A) : Prop :=
  forall w w' r q,
    m w = (w', r) -> diverges q p ->
    lookup_node q (fs_of w') = lookup_node q (fs_of w).

(** A run never takes an event off the trace. *)
Definition grows {A} (m : M A) : Prop :=
  forall w w' r e, m w = (w', r) -> In e (trace_of w) -> In e (trace_of w').

(** The file an output item is exported to, and what the file holds. *)
Definition item_file_name (item : OutputItem) : string :=
  filename item +:+ "." +:+ extension item.

Definition item_content `{Externals} (item : OutputItem) : content :=
  match data item with
  | FrameData df => CsvFile (to_csv df)
  | JsonData v => JsonFile v
  | ArrayData ms => NpzFile ms
  | HtmlData t => RawFile t
  end.

(** The listing of a folder into which the items have been exported one
    after the other, those with the extension html left out. *)
Definition exported_entries `{Externals} (items : list OutputItem)
  (es : list (string * node)) : list (string * node) :=
  fold_left
    (fun es item =>
       if negb (String.eqb (extension item) "html")
       then entry_set (item_file_name item) (File (item_content item)) es
       else es)
    items es.

(** A JSON value as [json.load] builds it: no dict has a key twice. *)
Fixpoint distinct_keys (v : pyval) : bool :=
  match v with
  | PList l =>
      (fix all (l : list pyval) : bool :=
         match l with
         | [] => true
         | x :: r => distinct_keys x && all r
         end) l
  | PDict d =>
      bool_decide (NoDup (map fst d)) &&
      (fix all (d : list (string * pyval)) : bool :=
         match d with
         | [] => true
         | (_, x) :: r => distinct_keys x && all r
         end) d
  | _ => true
  end.

(** The float NaN on its own, outside any container. *)
Definition is_nan_value (v : pyval) : bool :=
  match v with
  | PFloat f => PrimFloat.is_nan f
  | _ => false
  end.

(** The output set of the model when the difference is [v]. *)
Definition total_output_set (v : pyval) : OutputSet :=
  {| output_items :=
       [{| data := FrameData {| df_index := [PInt 0];
                                df_columns := [("total", [v])] |};
           filename := "df"; extension := "csv" |}] |}.

(** *** Example projects *)

Definition settings_10_3 : pyval := PDict [("a", PInt 10); ("b", PInt 3)].

(** The csv file of a one-cell table "total". *)
Definition csv_total (v : string) : content := CsvFile [[""; "total"]; ["0"; v]].


(** A project with its input settings and the given cases. *)
Definition project_fs (cases : list (string * node)) : node :=
  Dir [("Inputs", Dir [("settings.json", File (JsonFile settings_10_3))]);
       ("tests", Dir [("snapshots", Dir cases)])].

(** A case with its input settings and the given expected outputs. *)
Definition case_node (expected : list (string * node)) : node :=
  Dir [("Inputs", Dir [("settings.json", File (JsonFile settings_10_3))]);
       ("ExpectedOutputs", Dir expected)].

Definition Case01 : path := SNAPSHOTS_DIR ++ ["Case01"].

(** Two archives with the members x and y, and one without y. *)
Definition array_of (v : float) : ndarray := {| shape := [1%nat]; elems := [v] |}.

Definition npz_fs : node :=
  Dir [("expected.npz",
        File (NpzFile [("x", array_of 1%float); ("y", array_of 2%float)]));
       ("other_keys.npz", File (NpzFile [("x", array_of 1%float)]));
       ("other_values.npz",
        File (NpzFile [("y", array_of 2%float); ("x", array_of 1.5%float)]))].

(** * Properties *)

(** ** The monad *)

Lemma bind_ok {A B} (m : M A) (k : A -> M B) w w' a :
  m w = (w', Ok a) -> bind m k w = k a w'.
Proof. intros E. unfold bind. now rewrite E. Qed.

Lemma bind_raise {A B} (m : M A) (k : A -> M B) w w' e :
  m w = (w', Raise e) -> bind m k w = (w', Raise e).
Proof. intros E. unfold bind. now rewrite E. Qed.

Lemma bind_ext {A B} (m m' : M A) (k k' : A -> M B) w :
  m w = m' w -> (forall a w1, k a w1 = k' a w1) -> bind m k w = bind m' k' w.
Proof.
  intros Em Ek. unfold bind. rewrite Em.
  destruct (m' w) as [w1 [a|e]]; [apply Ek | reflexivity].
Qed.

Lemma bind_inv_ok {A B} (m : M A) (k : A -> M B) w w' b :
  bind m k w = (w', Ok b) ->
  exists w1 a, m w = (w1, Ok a) /\ k a w1 = (w', Ok b).
Proof.
  unfold bind. destruct (m w) as [w1 [a|e]]; intros E; [|discriminate E].
  now exists w1, a.
Qed.

Lemma updates_inv_ok f w w' u :
  updates f w = (w', Ok u) ->
  exists fs', f (fs_of w) = Ok fs' /\ w' = World fs' (trace_of w).
Proof.
  unfold updates. destruct (f (fs_of w)) as [fs'|e]; intros E; inversion E.
  now exists fs'.
Qed.

Lemma for_each_raise {A} (body : A -> M unit) x l w w' e :
  body x w = (w', Raise e) -> for_each (x :: l) body w = (w', Raise e).
Proof. intros E. simpl. now apply bind_raise. Qed.

Lemma filter_m_pure {A} (cond : A -> M bool) (g : A -> bool) l w :
  (forall x, cond x w = (w, Ok (g x))) ->
  filter_m cond l w = (w, Ok (List.filter g l)).
Proof.
  intros Hc. induction l as [|x l IH]; simpl; [reflexivity|].
  rewrite (bind_ok _ _ _ _ _ (Hc x)), (bind_ok _ _ _ _ _ IH).
  unfold ret. now destruct (g x).
Qed.

(** ** Dispatch on the extension *)

Section Dispatch.
Context `{Externals}.

Lemma assert_file_html out exp w :
  suffix exp = ".html" -> assert_file out exp w = (w, Ok tt).
Proof. intros E. unfold assert_file. rewrite E. reflexivity. Qed.

Lemma assert_file_unsupported out exp w :
  ~ supported (suffix exp) ->
  assert_file out exp w =
    (w, Raise (ValueError ("File extension '" +:+ suffix exp
                           +:+ "' is not supported."))).
Proof.
  intros Hn. unfold assert_file, supported in *.
  destruct (String.eqb_spec (suffix exp) ".csv"); [tauto|].
  destruct (String.eqb_spec (suffix exp) ".json"); [tauto|].
  destruct (String.eqb_spec (suffix exp) ".html"); [tauto|].
  destruct (String.eqb_spec (suffix exp) ".npz"); [tauto|].
  reflexivity.
Qed.

(** C9. [assert_file] on an expected file with extension html passes
    without opening a file or asking for a comparison (the world, trace
    included, is untouched, whatever the output path is); on an extension
    other than csv, json, html and npz it raises the unsupported-format
    [ValueError] at once, and a loop over files that meets such a file
    stops there with that error whatever files would follow. *)
Theorem assert_file_html_skipped_unsupported_raises
  (out exp : path) (w : world) :
  (suffix exp = ".html" -> assert_file out exp w = (w, Ok tt)) /\
  (~ supported (suffix exp) ->
   let unsupported :=
     ValueError ("File extension '" +:+ suffix exp +:+ "' is not supported.") in
   assert_file out exp w = (w, Raise unsupported) /\
   forall rest : list (path * path),
     for_each ((out, exp) :: rest) (fun oe => assert_file (fst oe) (snd oe)) w
     = (w, Raise unsupported)).
Proof.
  split; [apply assert_file_html|].
  intros Hn unsupported. split; [now apply assert_file_unsupported|].
  intros rest. apply for_each_raise. simpl. now apply assert_file_unsupported.
Qed.

End Dispatch.

Lemma assert_file_html_skipped_unsupported_raises_witness :
  assert_file (H := plain_externals) ["out"; "report.html"] ["exp"; "report.html"]
    (World (Dir []) []) = (World (Dir []) [], Ok tt) /\
  assert_file (H := plain_externals) ["out"; "notes.txt"] ["exp"; "notes.txt"]
    (World (Dir []) [])
  = (World (Dir []) [],
     Raise (ValueError "File extension '.txt' is not supported.")).
Proof.
  split.
  - apply (proj1 (assert_file_html_skipped_unsupported_raises
                    ["out"; "report.html"] ["exp"; "report.html"]
                    (World (Dir []) []))).
    reflexivity.
  - apply (proj2 (assert_file_html_skipped_unsupported_raises
                    ["out"; "notes.txt"] ["exp"; "notes.txt"]
                    (World (Dir []) []))).
    unfold supported. vm_compute.
    intros [E|[E|[E|E]]]; discriminate E.
Defined.

(** ** Case discovery *)

Lemma name_joinpath p x : name (p ++ [x]) = x.
Proof. unfold name. apply last_last. Qed.

Lemma lookup_node_app p q n :
  lookup_node (p ++ q) n =
    match lookup_node p n with
    | Some m => lookup_node q m
    | None => None
    end.
Proof.
  revert n. induction p as [|x p IH]; intros n; simpl; [reflexivity|].
  destruct n as [c|es]; [reflexivity|].
  destruct (entry_get x es); [apply IH | reflexivity].
Qed.

(** What [find_cases] runs to: the world is left as it is, and the list is
    the listing of the snapshots directory filtered by the two tests. *)
Lemma find_cases_run (w : world) :
  find_cases w =
    (w, Ok (List.filter
              (fun f => is_dir_at f (fs_of w) && startswith (name f) "Case")
              (map (fun nm => SNAPSHOTS_DIR ++ [nm])
                   (listdir SNAPSHOTS_DIR (fs_of w))))).
Proof.
  unfold find_cases, listdir, bind, is_dir, iterdir, reads, is_dir_at at 1.
  destruct (lookup_node SNAPSHOTS_DIR (fs_of w)) as [[c|es]|] eqn:E;
    try reflexivity.
  cbv beta iota. rewrite E.
  rewrite (filter_m_pure _
             (fun f => is_dir_at f (fs_of w) && startswith (name f) "Case"))
    by reflexivity.
  now rewrite map_map.
Qed.

Lemma find_cases_In (w : world) (p : path) :
  In p (List.filter
          (fun f => is_dir_at f (fs_of w) && startswith (name f) "Case")
          (map (fun nm => SNAPSHOTS_DIR ++ [nm])
               (listdir SNAPSHOTS_DIR (fs_of w))))
  <-> exists nm,
        p = SNAPSHOTS_DIR ++ [nm] /\
        In nm (listdir SNAPSHOTS_DIR (fs_of w)) /\
        is_dir_at p (fs_of w) = true /\
        startswith nm "Case" = true.
Proof.
  rewrite filter_In, in_map_iff. split.
  - intros [[nm [<- Hin]] Hb]. apply andb_true_iff in Hb as [Hd Hs].
    rewrite name_joinpath in Hs. now exists nm.
  - intros [nm (-> & Hin & Hd & Hs)]. split; [now exists nm|].
    now rewrite Hd, name_joinpath, Hs.
Qed.

(** C7. [find_cases] leaves the world alone and returns exactly the entries
    of the snapshots directory that are directories and whose name starts
    with "Case"; with the directories Case01, Case03 and NotACase and the
    file Case02.txt it returns Case01 and Case03, whatever they hold. *)
Theorem find_cases_exactly_case_directories :
  (forall w : world,
     exists cases,
       find_cases w = (w, Ok cases) /\
       forall p,
         In p cases <->
         exists nm,
           p = SNAPSHOTS_DIR ++ [nm] /\
           In nm (listdir SNAPSHOTS_DIR (fs_of w)) /\
           is_dir_at p (fs_of w) = true /\
           startswith nm "Case" = true) /\
  (forall (c1 c3 cn : list (string * node)) (stray : content) (t : list event),
     let w := World (snapshots_fs [("Case01", Dir c1); ("Case03", Dir c3);
                                    ("NotACase", Dir cn);
                                    ("Case02.txt", File stray)]) t in
     find_cases w = (w, Ok [SNAPSHOTS_DIR ++ ["Case01"];
                            SNAPSHOTS_DIR ++ ["Case03"]])).
Proof.
  split.
  - intros w. eexists. split; [apply find_cases_run | apply find_cases_In].
  - intros c1 c3 cn stray t w. rewrite find_cases_run. reflexivity.
Qed.

(** ** Allocation of a new case *)

Lemma py_in_In i l : py_in i l = true <-> In i l.
Proof.
  unfold py_in. rewrite existsb_exists. split.
  - intros [x [Hx E]]. apply Z.eqb_eq in E. now subst.
  - intros Hi. exists i. split; [assumption | apply Z.eqb_refl].
Qed.

(** The loop of [create_new_case_folder] keeps the last unused number it
    meets: there is no [break]. *)
Lemma last_gap_fold (l : list Z) (a : Z) (n : nat) :
  match fold_left
          (fun (acc : option Z) i => if negb (py_in i l) then Some i else acc)
          (seqZ a (Z.of_nat n)) None with
  | Some i =>
      a <= i < a + Z.of_nat n /\ py_in i l = false /\
      forall j, i < j < a + Z.of_nat n -> py_in j l = true
  | None => forall j, a <= j < a + Z.of_nat n -> py_in j l = true
  end.
Proof.
  induction n as [|n IH].
  - simpl. intros j Hj. lia.
  - rewrite seqZ_S, fold_left_app. simpl.
    destruct (py_in (a + Z.of_nat n) l) eqn:Hin; simpl.
    + destruct (fold_left _ _ None) as [i|].
      * destruct IH as (Hr & Hi & Hj).
        split; [lia|]. split; [assumption|].
        intros j Hjr. destruct (Z.eq_dec j (a + Z.of_nat n)) as [->|Hne];
          [assumption | apply Hj; lia].
      * intros j Hjr. destruct (Z.eq_dec j (a + Z.of_nat n)) as [->|Hne];
          [assumption | apply IH; lia].
    + split; [lia|]. split; [assumption|]. intros j Hjr. lia.
Qed.

(** What the allocation computes on a non-empty list of numbers with
    maximum [m]: the largest unused number of [1 .. m-1] when there is one,
    and [m + 1] otherwise. *)
Lemma determine_new_case_number_last_gap (l : list Z) (m : Z) :
  py_max l = Ok m ->
  exists n,
    determine_new_case_number l = Ok n /\
    ((1 <= n < m /\ ~ In n l /\ forall j, n < j < m -> In j l) \/
     (n = m + 1 /\ forall j, 1 <= j < m -> In j l)).
Proof.
  intros Hm. unfold determine_new_case_number. rewrite Hm. unfold range.
  destruct (Z_le_gt_dec (m - 1) 0) as [Hle|Hgt].
  - rewrite seqZ_nil by assumption. simpl. exists (m + 1). split; [reflexivity|].
    right. split; [reflexivity|]. intros j Hj. lia.
  - pose proof (last_gap_fold l 1 (Z.to_nat (m - 1))) as Hf.
    rewrite Z2Nat.id in Hf by lia.
    destruct (fold_left _ _ None) as [i|].
    + exists i. split; [reflexivity|]. left. destruct Hf as (Hr & Hi & Hj).
      split; [lia|]. split.
      * rewrite <- py_in_In. now rewrite Hi.
      * intros j Hjr. apply py_in_In, Hj. lia.
    + exists (m + 1). split; [reflexivity|]. right. split; [reflexivity|].
      intros j Hj. apply py_in_In, Hf. lia.
Qed.

Section Allocation.
Context `{Externals}.

(** C4. With no case directory under the snapshots directory, the
    allocation raises the [ValueError] of [max()] on an empty sequence,
    and so does the run in create mode; the world is as it was, so no
    directory has been made. *)
Theorem create_without_cases_raises (w : world) :
  (forall nm,
     In nm (listdir SNAPSHOTS_DIR (fs_of w)) ->
     is_dir_at (SNAPSHOTS_DIR ++ [nm]) (fs_of w) = true ->
     startswith nm "Case" = false) ->
  create_new_case_folder w
    = (w, Raise (ValueError "max() arg is an empty sequence")) /\
  test_snapshots "create" w
    = (w, Raise (ValueError "max() arg is an empty sequence")).
Proof.
  intros Hnone.
  assert (Hc : create_new_case_folder w
               = (w, Raise (ValueError "max() arg is an empty sequence"))).
  { unfold create_new_case_folder.
    rewrite (bind_ok _ _ _ _ _ (find_cases_run w)).
    destruct (List.filter _ _) as [|p cases] eqn:Hf; [reflexivity|].
    exfalso.
    assert (Hp : In p (p :: cases)) by (left; reflexivity).
    rewrite <- Hf in Hp. apply find_cases_In in Hp as [nm (-> & Hin & Hd & Hs)].
    rewrite (Hnone nm Hin Hd) in Hs. discriminate. }
  split; [exact Hc|].
  unfold test_snapshots. simpl.
  rewrite (bind_raise _ _ _ _ _
             (bind_raise create_new_case_folder (fun c => ret [c]) _ _ _ Hc)).
  reflexivity.
Qed.

End Allocation.

Lemma create_without_cases_raises_witness :
  let w := World (snapshots_fs [("NotACase", Dir []);
                                ("Case02.txt", File (RawFile "stray"))]) [] in
  create_new_case_folder w
    = (w, Raise (ValueError "max() arg is an empty sequence")) /\
  test_snapshots (H := plain_externals) "create" w
    = (w, Raise (ValueError "max() arg is an empty sequence")).
Proof.
  intros w. apply (create_without_cases_raises (H := plain_externals) w).
  intros nm [<-|[<-|[]]]; vm_compute; congruence.
Defined.

(** C1 (what the code does on the numbers 1 and 4). With the cases Case01
    and Case04 the allocation makes and returns Case03, although 2 is the
    smallest unused positive number: the scan keeps the last gap. The two
    scenarios of the specification come out as stated, since there the
    last gap is also the first. *)
Theorem create_new_case_folder_keeps_last_gap :
  create_new_case_folder
    (World (snapshots_fs [("Case01", Dir []); ("Case04", Dir [])]) [])
  = (World (snapshots_fs [("Case01", Dir []); ("Case04", Dir []);
                          ("Case03", Dir [])]) [],
     Ok (SNAPSHOTS_DIR ++ ["Case03"])) /\
  determine_new_case_number [1; 4] = Ok 3 /\
  py_in 2 [1; 4] = false /\
  determine_new_case_number [1; 2; 4] = Ok 3 /\
  determine_new_case_number [1; 2; 3] = Ok 4.
Proof. repeat split; vm_compute; reflexivity. Qed.

(** ** The model *)

(** The output set [main] returns when the difference is [v]. *)
Lemma main_settings_given `{Externals} (d : list (string * pyval)) (w : world) :
  main (PDict d) w =
    (a <- lift (py_getitem (PDict d) "a") ;;
     b <- lift (py_getitem (PDict d) "b") ;;
     total <- lift (py_sub a b) ;;
     let df := df_setitem (pd_DataFrame [PInt 0] ["total"]) "total" total in
     let output_set := add_item OutputSet_new (FrameData df) "df" "csv" in
     flag <- lift (py_getitem (PDict d) "create_output_files") ;;
     (if py_truthy flag
      then for_each (output_items output_set)
             (fun item => export_to_file item None)
      else ret tt) ;;
     ret output_set) w.
Proof. reflexivity. Qed.

(** C8 (as the code has it). On a settings mapping with values [a] and [b]
    whose Python difference is defined and with an entry
    create_output_files, [main] returns an output set with the single item
    df.csv: a table with the index label 0 and the one column "total"
    whose cell is that difference. With a falsy entry it returns without
    touching the world; with a truthy entry it first exports df.csv to
    the default folder of the library, and returns the same output set
    once the folder is made and the file written. Whatever the entry, an
    output set [main] returns is this one. Without the entry [main]
    raises [KeyError]. Two ints give their exact difference and two floats
    their binary64 difference. For a = 10 and b = 3 the cell is 7 and the
    csv has the header fields "" (the index) and "total" and the one data
    line "0,7". *)
Theorem main_total_is_difference `{Externals}
  (d : list (string * pyval)) (a b v : pyval) (w : world) :
  dict_get "a" d = Some a ->
  dict_get "b" d = Some b ->
  py_sub a b = Ok v ->
  let df := {| df_index := [PInt 0]; df_columns := [("total", [v])] |} in
  let output_set :=
    {| output_items :=
         [{| data := FrameData df; filename := "df"; extension := "csv" |}] |} in
  (forall flag,
     dict_get "create_output_files" d = Some flag -> py_truthy flag = false ->
     main (PDict d) w = (w, Ok output_set)) /\
  (forall flag fs1 fs2,
     dict_get "create_output_files" d = Some flag -> py_truthy flag = true ->
     mkdir_at default_folder (fs_of w) = Ok fs1 ->
     write_at (default_folder ++ ["df.csv"]) (CsvFile (to_csv df)) fs1 = Ok fs2 ->
     main (PDict d) w = (World fs2 (trace_of w), Ok output_set)) /\
  (forall w' returned,
     main (PDict d) w = (w', Ok returned) -> returned = output_set) /\
  (dict_get "create_output_files" d = None ->
   main (PDict d) w = (w, Raise (KeyError "create_output_files"))) /\
  (forall x y : Z, py_sub (PInt x) (PInt y) = Ok (PInt (x - y))) /\
  (forall x y : float,
     py_sub (PFloat x) (PFloat y) = Ok (PFloat (PrimFloat.sub x y))) /\
  py_sub (PInt 10) (PInt 3) = Ok (PInt 7) /\
  to_csv {| df_index := [PInt 0]; df_columns := [("total", [PInt 7])] |}
    = [[""; "total"]; ["0"; "7"]] /\
  map csv_line [[""; "total"]; ["0"; "7"]] = [",total"; "0,7"].
Proof.
  intros Ha Hb Hv df output_set.
  assert (Hmain : main (PDict d) w =
            (flag <- lift (py_getitem (PDict d) "create_output_files") ;;
             (if py_truthy flag
              then for_each (output_items output_set)
                     (fun item => export_to_file item None)
              else ret tt) ;;
             ret output_set) w).
  { rewrite main_settings_given. unfold py_getitem, lift, bind at 1 2 3.
    now rewrite Ha, Hb, Hv. }
  split; [|split; [|split; [|split; [|repeat split]]]].
  - intros flag Hf Ht. rewrite Hmain. unfold py_getitem, lift, bind.
    now rewrite Hf, Ht.
  - intros flag fs1 fs2 Hf Ht Hm Hw. rewrite Hmain.
    unfold py_getitem, lift, bind at 1. rewrite Hf, Ht.
    unfold output_set, export_to_file, for_each, output_items, joinpath.
    cbn [default data filename extension String.eqb Ascii.eqb Bool.eqb].
    unfold mkdir, open_write, updates, bind, ret.
    rewrite Hm. cbn [fs_of trace_of]. change ("df" +:+ "." +:+ "csv") with "df.csv".
    now rewrite Hw.
  - intros w' returned E. rewrite Hmain in E.
    apply bind_inv_ok in E as (w1 & flag & _ & E).
    apply bind_inv_ok in E as (w2 & [] & _ & E).
    unfold ret in E. now inversion E.
  - intros Hf. rewrite Hmain. unfold py_getitem, lift, bind. now rewrite Hf.
Qed.

Lemma main_total_is_difference_witness :
  let output_set :=
    {| output_items :=
         [{| data := FrameData {| df_index := [PInt 0];
                                  df_columns := [("total", [PInt 7])] |};
             filename := "df"; extension := "csv" |}] |} in
  main (H := plain_externals)
    (PDict [("a", PInt 10); ("b", PInt 3); ("create_output_files", PBool false)])
    (World (Dir []) [])
  = (World (Dir []) [], Ok output_set) /\
  main (H := plain_externals)
    (PDict [("a", PInt 10); ("b", PInt 3); ("create_output_files", PBool true)])
    (World (Dir []) [])
  = (World (Dir [("Outputs", Dir [("df.csv", File (csv_total "7"))])]) [],
     Ok output_set).
Proof.
  intros output_set. split.
  - apply (proj1 (main_total_is_difference (H := plain_externals)
                    [("a", PInt 10); ("b", PInt 3); ("create_output_files", PBool false)]
                    (PInt 10) (PInt 3) (PInt 7) (World (Dir []) [])
                    eq_refl eq_refl eq_refl) (PBool false));
      reflexivity.
  - apply (proj1 (proj2 (main_total_is_difference (H := plain_externals)
                    [("a", PInt 10); ("b", PInt 3); ("create_output_files", PBool true)]
                    (PInt 10) (PInt 3) (PInt 7) (World (Dir []) [])
                    eq_refl eq_refl eq_refl))
             (PBool true) (Dir [("Outputs", Dir [])]));
      reflexivity.
Defined.

(** C8 (the claim as stated fails). The mapping with a = 10 and b = 3 and
    nothing else has numeric a and b, yet [main] returns no output set on
    it: the lookup of create_output_files raises [KeyError]. *)
Lemma main_needs_create_output_files :
  main (H := plain_externals) (PDict [("a", PInt 10); ("b", PInt 3)])
    (World (Dir []) [])
  = (World (Dir []) [], Raise (KeyError "create_output_files")) /\
  ~ exists w' output_set,
      main (H := plain_externals) (PDict [("a", PInt 10); ("b", PInt 3)])
        (World (Dir []) [])
      = (w', Ok output_set).
Proof.
  split; [reflexivity|]. intros (w' & os & E). vm_compute in E. discriminate E.
Qed.

(** ** Closeness of binary64 numbers *)

Lemma is_finite_parts (x : float) :
  PrimFloat.is_finite x = true ->
  PrimFloat.is_nan x = false /\ PrimFloat.is_infinity x = false.
Proof.
  unfold PrimFloat.is_finite. intros E. apply negb_true_iff, orb_false_elim in E.
  exact E.
Qed.

(** A finite float is a zero or has a mantissa and an exponent. *)
Lemma is_finite_spec (x : float) :
  PrimFloat.is_finite x = true ->
  (exists s, Prim2SF x = S754_zero s) \/
  (exists s m e, Prim2SF x = S754_finite s m e).
Proof.
  intros E. apply is_finite_parts in E as [Hn Hi].
  unfold PrimFloat.is_nan in Hn. unfold PrimFloat.is_infinity in Hi.
  rewrite FloatAxioms.eqb_spec in Hn, Hi. rewrite abs_spec in Hi.
  destruct (Prim2SF x) as [s| s | | s m e].
  - left. now exists s.
  - discriminate Hi.
  - discriminate Hn.
  - right. now exists s, m, e.
Qed.

(** With the relative tolerance 0 the bound is the absolute tolerance,
    whatever the magnitude of the number compared with. *)
Lemma absolute_tolerance_alone (y : float) :
  PrimFloat.is_finite y = true ->
  (0x1.5798ee2308c3ap-27 + float_of_Z 0 * abs y)%float = 0x1.5798ee2308c3ap-27%float.
Proof.
  intros Hy. apply Prim2SF_inj. rewrite add_spec, mul_spec, abs_spec.
  destruct (is_finite_spec y Hy) as [[s ->] | (s & m & e & ->)]; reflexivity.
Qed.

Lemma close_absolute (x y : float) :
  PrimFloat.is_finite x = true -> PrimFloat.is_finite y = true ->
  close 0x1.5798ee2308c3ap-27 (float_of_Z 0) x y
  = PrimFloat.leb (abs (x - y)) 0x1.5798ee2308c3ap-27.
Proof.
  intros Hx Hy. unfold close.
  destruct (is_finite_parts x Hx) as [-> ->].
  destruct (is_finite_parts y Hy) as [-> ->]. simpl.
  now rewrite (absolute_tolerance_alone y Hy).
Qed.

(** A number that is not finite is close to itself only. *)
Lemma close_not_finite (t r x y : float) :
  PrimFloat.is_finite x && PrimFloat.is_finite y = false ->
  PrimFloat.is_nan x && PrimFloat.is_nan y = false ->
  PrimFloat.eqb x y = false ->
  close t r x y = false.
Proof.
  unfold close, PrimFloat.is_finite.
  destruct (PrimFloat.is_nan x), (PrimFloat.is_nan y),
    (PrimFloat.is_infinity x), (PrimFloat.is_infinity y);
    simpl; intros Hf Hn He; try discriminate; try reflexivity; exact He.
Qed.

Lemma scalar_inv (a : ndarray) (x : float) :
  scalar a = Some x -> shape a = [] /\ elems a = [x].
Proof.
  unfold scalar. destruct (shape a); [|discriminate].
  destruct (elems a) as [|x0 [|]]; try discriminate. intros E. now inversion E.
Qed.

Lemma forallb_lookup_false {A} (f : A -> bool) (l : list A) (i : nat) (x : A) :
  l !! i = Some x -> f x = false -> forallb f l = false.
Proof.
  intros Hl Hf. destruct (forallb f l) eqn:E; [|reflexivity].
  rewrite forallb_forall in E. rewrite <- Hf. symmetry. apply E.
  apply list_elem_of_In. exact (list_elem_of_lookup_2 _ _ _ Hl).
Qed.

Lemma combine_lookup {A B} (l : list A) (r : list B) (i : nat) (x : A) (y : B) :
  l !! i = Some x -> r !! i = Some y -> combine l r !! i = Some (x, y).
Proof.
  revert r i. induction l as [|a l IH]; intros [|b r] [|i]; simpl;
    try discriminate.
  - intros E1 E2. inversion E1. inversion E2. reflexivity.
  - apply IH.
Qed.

Lemma combine_In_lookup {A B} (l : list A) (r : list B) (x : A) (y : B) :
  In (x, y) (combine l r) -> exists i, l !! i = Some x /\ r !! i = Some y.
Proof.
  revert r. induction l as [|a l IH]; intros [|b r]; simpl; try tauto.
  intros [E|Hin].
  - inversion E; subst. now exists 0%nat.
  - destruct (IH _ Hin) as (i & Hl & Hr). now exists (S i).
Qed.

(** Two arrays with elements at one position that are not close are not
    close. *)
Lemma array_close_differs (a e : ndarray) (i : nat) (x y : float)
  (atol rtol : pyval) (t r : float) :
  tolerance atol = Some t -> tolerance rtol = Some r ->
  elems a !! i = Some x -> elems e !! i = Some y ->
  close t r x y = false ->
  array_close a e atol rtol = false.
Proof.
  intros Ht Hr Hx Hy Hc. unfold array_close. rewrite Ht, Hr.
  destruct (scalar a) as [x0|] eqn:Sa; [|destruct (scalar e) as [y0|] eqn:Se].
  - apply scalar_inv in Sa as [_ Ea]. rewrite Ea in Hx.
    destruct i; [|discriminate Hx]. inversion Hx; subst x0.
    exact (forallb_lookup_false _ _ _ _ Hy Hc).
  - apply scalar_inv in Se as [_ Ee]. rewrite Ee in Hy.
    destruct i; [|discriminate Hy]. inversion Hy; subst y0.
    exact (forallb_lookup_false (fun x => close t r x y) _ _ _ Hx Hc).
  - rewrite (forallb_lookup_false (fun xy => close t r (fst xy) (snd xy)) _ i (x, y)
               (combine_lookup _ _ _ _ _ Hx Hy) Hc).
    apply andb_false_r.
Qed.

(** Two arrays of one shape whose elements are close position by position
    are close. *)
Lemma array_close_all (a e : ndarray) (atol rtol : pyval) (t r : float) :
  tolerance atol = Some t -> tolerance rtol = Some r ->
  shape a = shape e -> length (elems a) = length (elems e) ->
  (forall i x y, elems a !! i = Some x -> elems e !! i = Some y ->
                 close t r x y = true) ->
  array_close a e atol rtol = true.
Proof.
  intros Ht Hr Hs Hl Hc. unfold array_close. rewrite Ht, Hr.
  destruct (scalar a) as [x0|] eqn:Sa; [|destruct (scalar e) as [y0|] eqn:Se].
  - apply scalar_inv in Sa as [_ Ea]. rewrite Ea in Hl, Hc.
    destruct (elems e) as [|y0 [|]]; try discriminate Hl.
    simpl. now rewrite (Hc 0%nat x0 y0 eq_refl eq_refl).
  - apply scalar_inv in Se as [_ Ee]. rewrite Ee in Hl, Hc.
    destruct (elems a) as [|x0 [|]]; try discriminate Hl.
    simpl. now rewrite (Hc 0%nat x0 y0 eq_refl eq_refl).
  - rewrite bool_decide_eq_true_2 by exact Hs. rewrite Hl, Nat.eqb_refl. simpl.
    apply forallb_forall. intros [x y] Hin.
    destruct (combine_In_lookup _ _ _ _ Hin) as (i & Hx & Hy).
    exact (Hc i x y Hx Hy).
Qed.

(** ** Comparison of npz archives *)

Section Npz.
Context `{Externals}.

Lemma npz_getitem_files (archive : list (string * ndarray)) (nm : string) :
  In nm (files archive) -> exists a, npz_getitem archive nm = Ok a.
Proof.
  induction archive as [|[k a] r IH]; simpl; [tauto|].
  intros [->|Hin].
  - rewrite String.eqb_refl. now exists a.
  - destruct (String.eqb nm k); [now exists a | now apply IH].
Qed.

Lemma same_keys_In (data expected : list (string * ndarray)) (nm : string) :
  (list_to_set (files data) : gset string) = list_to_set (files expected) ->
  In nm (files expected) -> In nm (files data).
Proof.
  intros Heq Hin. apply list_elem_of_In.
  apply (elem_of_list_to_set (C := gset string)). rewrite Heq.
  apply elem_of_list_to_set. now apply list_elem_of_In.
Qed.

(** The loop over the members stops with [AssertionError] at the first
    member that is not close. *)
Lemma members_loop_raises (data expected : list (string * ndarray))
  (names : list string) (w : world) :
  (forall nm, In nm names -> In nm (files data) /\ In nm (files expected)) ->
  (exists nm a e,
     In nm names /\ npz_getitem data nm = Ok a /\
     npz_getitem expected nm = Ok e /\
     np_allclose a e ABSOLUTE_TOLERANCE RELATIVE_TOLERANCE = false) ->
  exists w',
    for_each names
      (fun nm =>
         a <- lift (npz_getitem data nm) ;;
         e <- lift (npz_getitem expected nm) ;;
         np_assert_allclose nm a e ABSOLUTE_TOLERANCE RELATIVE_TOLERANCE) w
    = (w', Raise AssertionError).
Proof.
  revert w. induction names as [|x names IH]; intros w Hall Hbad.
  - destruct Hbad as (nm & _ & _ & [] & _).
  - destruct (Hall x (or_introl eq_refl)) as [Hd He].
    destruct (npz_getitem_files _ _ Hd) as [a Ea].
    destruct (npz_getitem_files _ _ He) as [e Ee].
    simpl. unfold bind at 1, lift, np_assert_allclose, log. rewrite Ea, Ee.
    unfold bind at 1. unfold bind at 1.
    destruct (np_allclose a e ABSOLUTE_TOLERANCE RELATIVE_TOLERANCE) eqn:Hc.
    + apply IH.
      * intros nm Hin. apply Hall. now right.
      * destruct Hbad as (nm & a' & e' & [<-|Hin] & Ea' & Ee' & Hc').
        -- congruence.
        -- now exists nm, a', e'.
    + eexists. reflexivity.
Qed.

(** The loop runs through when every member is close. *)
Lemma members_loop_passes (data expected : list (string * ndarray))
  (names : list string) (w : world) :
  (forall nm, In nm names ->
     exists a e, npz_getitem data nm = Ok a /\ npz_getitem expected nm = Ok e /\
                 np_allclose a e ABSOLUTE_TOLERANCE RELATIVE_TOLERANCE = true) ->
  exists w',
    for_each names
      (fun nm =>
         a <- lift (npz_getitem data nm) ;;
         e <- lift (npz_getitem expected nm) ;;
         np_assert_allclose nm a e ABSOLUTE_TOLERANCE RELATIVE_TOLERANCE) w
    = (w', Ok tt).
Proof.
  revert w. induction names as [|x names IH]; intros w Hall.
  - now exists w.
  - destruct (Hall x (or_introl eq_refl)) as (a & e & Ea & Ee & Hc).
    simpl. unfold bind at 1, lift, np_assert_allclose, log. rewrite Ea, Ee.
    unfold bind at 1. unfold bind at 1. rewrite Hc. apply IH.
    intros nm Hin. apply Hall. now right.
Qed.

End Npz.

(** C6. On two npz archives that load: when the sets of member names
    differ, [assert_npz] raises the [KeyError] of the key mismatch, and the
    trace has grown by the two reads only, so no member has been compared,
    whatever the members hold. When the sets are equal and, in some
    member, the elements at one position are finite and their difference
    is not within 1e-8, or are unequal and not both finite, it raises
    [AssertionError], an exception of another kind. When the sets are equal and every member has the shape
    of its counterpart and finite elements within 1e-8 of the
    counterpart's, it passes. The closeness of two arrays is the one the
    specification words. *)
Theorem assert_npz_keys_before_values `{Externals}
  (out exp : path) (data expected : list (string * ndarray)) (w : world) :
  read_at out (fs_of w) = Ok (NpzFile data) ->
  read_at exp (fs_of w) = Ok (NpzFile expected) ->
  ((list_to_set (files data) : gset string) <> list_to_set (files expected) ->
   assert_npz out exp w =
     (World (fs_of w) ((trace_of w ++ [Read out]) ++ [Read exp]),
      Raise (KeyError "The .npz archives have different keys."))) /\
  ((list_to_set (files data) : gset string) = list_to_set (files expected) ->
   (exists nm a e i x y,
      In nm (files expected) /\ npz_getitem data nm = Ok a /\
      npz_getitem expected nm = Ok e /\
      elems a !! i = Some x /\ elems e !! i = Some y /\
      ((PrimFloat.is_finite x = true /\ PrimFloat.is_finite y = true /\
        PrimFloat.leb (abs (x - y)) 0x1.5798ee2308c3ap-27 = false) \/
       (PrimFloat.is_finite x && PrimFloat.is_finite y = false /\
        PrimFloat.is_nan x && PrimFloat.is_nan y = false /\
        PrimFloat.eqb x y = false))) ->
   exists w',
     assert_npz (H := spec_externals) out exp w = (w', Raise AssertionError) /\
     AssertionError <> KeyError "The .npz archives have different keys.") /\
  ((list_to_set (files data) : gset string) = list_to_set (files expected) ->
   (forall nm a e,
      In nm (files expected) -> npz_getitem data nm = Ok a ->
      npz_getitem expected nm = Ok e ->
      shape a = shape e /\ length (elems a) = length (elems e) /\
      forall i x y,
        elems a !! i = Some x -> elems e !! i = Some y ->
        PrimFloat.is_finite x = true /\ PrimFloat.is_finite y = true /\
        PrimFloat.leb (abs (x - y)) 0x1.5798ee2308c3ap-27 = true) ->
   exists w', assert_npz (H := spec_externals) out exp w = (w', Ok tt)).
Proof.
  intros Ho He. split; [|split].
  - intros Hne. unfold assert_npz, np_load, open_read, log, reads, bind. simpl.
    rewrite Ho. simpl. rewrite He. simpl.
    rewrite bool_decide_eq_false_2 by assumption. reflexivity.
  - intros Heq (nm & a & e & i & x & y & Hin & Ea & Ee & Hx & Hy & Hd).
    unfold assert_npz, np_load, open_read, log, reads, bind. simpl.
    rewrite Ho. simpl. rewrite He. simpl.
    rewrite bool_decide_eq_true_2 by assumption. simpl.
    destruct (members_loop_raises (H := spec_externals) data expected (files expected)
                (World (fs_of w) ((trace_of w ++ [Read out]) ++ [Read exp])))
      as [w' Hw'].
    + intros nm' Hin'. split; [now apply (same_keys_In data expected) | assumption].
    + exists nm, a, e. repeat split; try assumption.
      apply (array_close_differs a e i x y ABSOLUTE_TOLERANCE RELATIVE_TOLERANCE
               _ _ eq_refl eq_refl Hx Hy).
      destruct Hd as [(Fx & Fy & Hd) | (Hf & Hn & Hd)].
      * now rewrite close_absolute.
      * now apply close_not_finite.
    + exists w'. split; [exact Hw' | discriminate].
  - intros Heq Hall.
    unfold assert_npz, np_load, open_read, log, reads, bind. simpl.
    rewrite Ho. simpl. rewrite He. simpl.
    rewrite bool_decide_eq_true_2 by assumption. simpl.
    apply (members_loop_passes (H := spec_externals)).
    intros nm Hin.
    destruct (npz_getitem_files _ _ (same_keys_In data expected nm Heq Hin)) as [a Ea].
    destruct (npz_getitem_files _ _ Hin) as [e Ee].
    exists a, e. split; [exact Ea|]. split; [exact Ee|].
    destruct (Hall nm a e Hin Ea Ee) as (Hs & Hl & Hclose).
    apply (array_close_all a e ABSOLUTE_TOLERANCE RELATIVE_TOLERANCE
             _ _ eq_refl eq_refl Hs Hl).
    intros i x y Hx Hy. destruct (Hclose i x y Hx Hy) as (Fx & Fy & Hd).
    now rewrite close_absolute.
Qed.

(** ** Comparison of csv files *)

(** What [assert_csv] does with two files that parse. *)
Lemma assert_csv_run `{Externals} (out exp : path)
  (rows expected_rows : list (list string)) (data expected_data : DataFrame)
  (w : world) :
  read_at out (fs_of w) = Ok (CsvFile rows) ->
  read_at exp (fs_of w) = Ok (CsvFile expected_rows) ->
  pd_parse rows = Ok data ->
  pd_parse expected_rows = Ok expected_data ->
  assert_csv out exp w =
    (World (fs_of w) (((trace_of w ++ [Read out]) ++ [Read exp]) ++ [FrameCompared]),
     if pd_frame_equal data expected_data ABSOLUTE_TOLERANCE RELATIVE_TOLERANCE
     then Ok tt else Raise AssertionError).
Proof.
  intros Ho He Hd Hx.
  unfold assert_csv, pd_read_csv, pd_assert_frame_equal, open_read, log, reads,
    lift, bind.
  simpl. rewrite Ho. simpl. rewrite He. rewrite Hd, Hx. simpl.
  now destruct (pd_frame_equal data expected_data ABSOLUTE_TOLERANCE RELATIVE_TOLERANCE).
Qed.





(** ** The file system *)

Lemma entry_get_set_eq x n es : entry_get x (entry_set x n es) = Some n.
Proof.
  induction es as [|[y m] es IH]; simpl.
  - now rewrite String.eqb_refl.
  - destruct (String.eqb_spec x y) as [->|Hne]; simpl.
    + now rewrite String.eqb_refl.
    + destruct (String.eqb_spec x y); [contradiction | exact IH].
Qed.

Lemma entry_get_set_ne x y n es :
  x <> y -> entry_get y (entry_set x n es) = entry_get y es.
Proof.
  intros Hne. induction es as [|[z m] es IH]; simpl.
  - destruct (String.eqb_spec y x); [congruence | reflexivity].
  - destruct (String.eqb_spec x z) as [->|Hxz]; simpl.
    + destruct (String.eqb_spec y z); [congruence | reflexivity].
    + destruct (String.eqb_spec y z); [reflexivity | exact IH].
Qed.

Lemma entry_get_del_eq x es : entry_get x (entry_del x es) = None.
Proof.
  induction es as [|[y m] es IH]; simpl; [reflexivity|].
  destruct (String.eqb_spec x y) as [->|Hne]; [exact IH|].
  simpl. destruct (String.eqb_spec x y); [contradiction | exact IH].
Qed.

Lemma entry_get_del_ne x y es :
  x <> y -> entry_get y (entry_del x es) = entry_get y es.
Proof.
  intros Hne. induction es as [|[z m] es IH]; simpl; [reflexivity|].
  destruct (String.eqb_spec x z) as [->|Hxz]; simpl.
  - destruct (String.eqb_spec y z); [congruence | exact IH].
  - destruct (String.eqb_spec y z); [reflexivity | exact IH].
Qed.

(** Induction on a tree: a directory has the property when the nodes it
    lists have it. *)
Lemma node_tree_ind (P : node -> Prop) :
  (forall c, P (File c)) ->
  (forall es, Forall (fun e => P (snd e)) es -> P (Dir es)) ->
  forall n, P n.
Proof.
  intros Hfile Hdir. fix IH 1. intros [c|es].
  - apply Hfile.
  - apply Hdir. induction es as [|[x ch] es IHes]; constructor.
    + apply IH.
    + exact IHes.
Qed.

(** *** How the three updates rebuild the tree *)

Lemma write_at_leaf x c n n' :
  write_at [x] c n = Ok n' ->
  exists es, n = Dir es /\ n' = Dir (entry_set x (File c) es).
Proof.
  destruct n as [c0|es]; simpl; [discriminate|].
  destruct (entry_get x es) as [[c1|es1]|]; intros E; inversion E; now exists es.
Qed.

Lemma write_at_cons2 z y p c es :
  write_at (z :: y :: p) c (Dir es) =
    match entry_get z es with
    | Some ch =>
        match write_at (y :: p) c ch with
        | Ok ch' => Ok (Dir (entry_set z ch' es))
        | Raise e => Raise e
        end
    | None => Raise FileNotFoundError
    end.
Proof. reflexivity. Qed.

Lemma rmtree_at_cons2 z y p es :
  rmtree_at (z :: y :: p) (Dir es) =
    match entry_get z es with
    | Some ch =>
        match rmtree_at (y :: p) ch with
        | Ok ch' => Ok (Dir (entry_set z ch' es))
        | Raise e => Raise e
        end
    | None => Raise FileNotFoundError
    end.
Proof. reflexivity. Qed.

Lemma write_at_step z p c n n' :
  p <> [] -> write_at (z :: p) c n = Ok n' ->
  exists es ch ch',
    n = Dir es /\ n' = Dir (entry_set z ch' es) /\
    write_at p c ch = Ok ch' /\ entry_get z es = Some ch.
Proof.
  intros Hp. destruct p as [|y p]; [congruence|].
  destruct n as [c0|es]; [intros E; discriminate E|].
  rewrite write_at_cons2.
  destruct (entry_get z es) as [ch|] eqn:Hz; [|discriminate].
  destruct (write_at (y :: p) c ch) as [ch'|e] eqn:E; [|discriminate].
  intros E'. inversion E'. exists es, ch, ch'. repeat split; assumption.
Qed.

Lemma rmtree_at_leaf x n n' :
  rmtree_at [x] n = Ok n' ->
  exists es, n = Dir es /\ n' = Dir (entry_del x es).
Proof.
  destruct n as [c0|es]; simpl; [discriminate|].
  destruct (entry_get x es) as [[c1|es1]|]; intros E; inversion E; now exists es.
Qed.

Lemma rmtree_at_step z p n n' :
  p <> [] -> rmtree_at (z :: p) n = Ok n' ->
  exists es ch ch',
    n = Dir es /\ n' = Dir (entry_set z ch' es) /\
    rmtree_at p ch = Ok ch' /\ entry_get z es = Some ch.
Proof.
  intros Hp. destruct p as [|y p]; [congruence|].
  destruct n as [c0|es]; [intros E; discriminate E|].
  rewrite rmtree_at_cons2.
  destruct (entry_get z es) as [ch|] eqn:Hz; [|discriminate].
  destruct (rmtree_at (y :: p) ch) as [ch'|e] eqn:E; [|discriminate].
  intros E'. inversion E'. exists es, ch, ch'. repeat split; assumption.
Qed.

Lemma mkdir_at_step z p n n' :
  mkdir_at (z :: p) n = Ok n' ->
  exists es ch',
    n = Dir es /\ n' = Dir (entry_set z ch' es) /\
    mkdir_at p (default (Dir []) (entry_get z es)) = Ok ch'.
Proof.
  destruct n as [c0|es]; simpl; [discriminate|].
  destruct (mkdir_at p (default (Dir []) (entry_get z es))) as [ch'|e] eqn:E;
    [|discriminate].
  intros E'. inversion E'. now exists es, ch'.
Qed.

(** *** Updates below one entry leave its siblings alone *)

Section Frame.
Variable op : path -> node -> result node.
Hypothesis op_leaf : forall x n n',
  op [x] n = Ok n' ->
  exists es es',
    n = Dir es /\ n' = Dir es' /\
    forall y, x <> y -> entry_get y es' = entry_get y es.
Hypothesis op_step : forall z p n n',
  p <> [] -> op (z :: p) n = Ok n' ->
  exists es ch ch',
    n = Dir es /\ n' = Dir (entry_set z ch' es) /\ op p ch = Ok ch' /\
    (entry_get z es = Some ch \/ entry_get z es = None /\ ch = Dir []).

Lemma frame_sibling c x r y q n n' :
  op (c ++ x :: r) n = Ok n' -> x <> y ->
  lookup_node (c ++ y :: q) n' = lookup_node (c ++ y :: q) n.
Proof.
  revert n n'. induction c as [|z c IH]; intros n n' Hop Hne; simpl in *.
  - destruct r as [|r0 r].
    + destruct (op_leaf _ _ _ Hop) as (es & es' & -> & -> & Hes).
      simpl. now rewrite Hes.
    + destruct (op_step x (r0 :: r) n n' ltac:(discriminate) Hop)
        as (es & ch & ch' & -> & -> & _ & _).
      simpl. now rewrite entry_get_set_ne.
  - assert (Hp : c ++ x :: r <> []) by (destruct c; discriminate).
    destruct (op_step z _ n n' Hp Hop) as (es & ch & ch' & -> & -> & Hch & Hz).
    simpl. rewrite entry_get_set_eq, (IH _ _ Hch Hne).
    destruct Hz as [->|[-> ->]]; [reflexivity|].
    destruct c; reflexivity.
Qed.
End Frame.

Lemma write_at_sibling c x r y q content n n' :
  write_at (c ++ x :: r) content n = Ok n' -> x <> y ->
  lookup_node (c ++ y :: q) n' = lookup_node (c ++ y :: q) n.
Proof.
  apply (frame_sibling (fun p => write_at p content)).
  - intros x0 m m' E. destruct (write_at_leaf _ _ _ _ E) as (es & -> & ->).
    exists es, (entry_set x0 (File content) es). repeat split.
    intros y0 Hy. now apply entry_get_set_ne.
  - intros z p m m' Hp E.
    destruct (write_at_step _ _ _ _ _ Hp E) as (es & ch & ch' & -> & -> & E' & Hz).
    exists es, ch, ch'. repeat split; [assumption | now left].
Qed.

Lemma rmtree_at_sibling c x r y q n n' :
  rmtree_at (c ++ x :: r) n = Ok n' -> x <> y ->
  lookup_node (c ++ y :: q) n' = lookup_node (c ++ y :: q) n.
Proof.
  apply (frame_sibling rmtree_at).
  - intros x0 m m' E. destruct (rmtree_at_leaf _ _ _ E) as (es & -> & ->).
    exists es, (entry_del x0 es). repeat split.
    intros y0 Hy. now apply entry_get_del_ne.
  - intros z p m m' Hp E.
    destruct (rmtree_at_step _ _ _ _ Hp E) as (es & ch & ch' & -> & -> & E' & Hz).
    exists es, ch, ch'. repeat split; [assumption | now left].
Qed.

Lemma mkdir_at_sibling c x r y q n n' :
  mkdir_at (c ++ x :: r) n = Ok n' -> x <> y ->
  lookup_node (c ++ y :: q) n' = lookup_node (c ++ y :: q) n.
Proof.
  apply (frame_sibling mkdir_at).
  - intros x0 m m' E. destruct (mkdir_at_step _ _ _ _ E) as (es & ch' & -> & -> & _).
    exists es, (entry_set x0 ch' es). repeat split.
    intros y0 Hy. now apply entry_get_set_ne.
  - intros z p m m' Hp E.
    destruct (mkdir_at_step _ _ _ _ E) as (es & ch' & -> & -> & E').
    exists es, (default (Dir []) (entry_get z es)), ch'. repeat split; [assumption|].
    destruct (entry_get z es); [now left | now right].
Qed.

(** *** What each update leaves at its own path *)

Lemma rmtree_at_gone p n n' :
  rmtree_at p n = Ok n' -> lookup_node p n' = None.
Proof.
  revert n n'. induction p as [|x p IH]; intros n n' E; [discriminate E|].
  destruct p as [|y p].
  - destruct (rmtree_at_leaf _ _ _ E) as (es & -> & ->).
    simpl. now rewrite entry_get_del_eq.
  - destruct (rmtree_at_step x (y :: p) n n' ltac:(discriminate) E)
      as (es & ch & ch' & -> & -> & E' & _).
    change (lookup_node (x :: y :: p) (Dir (entry_set x ch' es)))
      with (match entry_get x (entry_set x ch' es) with
            | Some m => lookup_node (y :: p) m
            | None => None
            end).
    rewrite entry_get_set_eq. exact (IH _ _ E').
Qed.

Lemma mkdir_at_fresh p n n' :
  is_dir_at p n = false \/ n = Dir [] ->
  mkdir_at p n = Ok n' -> lookup_node p n' = Some (Dir []).
Proof.
  revert n n'. induction p as [|x p IH]; intros n n' Hn E.
  - destruct Hn as [Hn | ->]; [|simpl in E; now inversion E].
    destruct n; [discriminate E | discriminate Hn].
  - destruct (mkdir_at_step _ _ _ _ E) as (es & ch' & -> & -> & E').
    simpl. rewrite entry_get_set_eq. apply (IH _ _ ) in E'; [exact E'|].
    destruct Hn as [Hn | Hn].
    + unfold is_dir_at in Hn |- *. simpl in Hn.
      destruct (entry_get x es); [now left | now right].
    + inversion Hn. now right.
Qed.

Lemma mkdir_at_is_dir p n n' :
  mkdir_at p n = Ok n' -> is_dir_at p n' = true.
Proof.
  unfold is_dir_at. revert n n'. induction p as [|x p IH]; intros n n' E.
  - destruct n; simpl in E; [discriminate|]. now inversion E.
  - destruct (mkdir_at_step _ _ _ _ E) as (es & ch' & -> & -> & E').
    simpl. rewrite entry_get_set_eq. now apply (IH _ _ E').
Qed.

Lemma write_at_parent p x c es n n' :
  lookup_node p n = Some (Dir es) ->
  write_at (p ++ [x]) c n = Ok n' ->
  lookup_node p n' = Some (Dir (entry_set x (File c) es)).
Proof.
  revert n n'. induction p as [|y p IH]; intros n n' Hl E;
    cbn [app] in E; simpl in Hl |- *.
  - inversion Hl; subst. destruct (write_at_leaf _ _ _ _ E) as (es' & Hes & ->).
    now inversion Hes.
  - assert (Hp : p ++ [x] <> []) by (destruct p; discriminate).
    destruct (write_at_step _ _ _ _ _ Hp E) as (es0 & ch & ch' & -> & -> & E' & Hz).
    rewrite Hz in Hl. rewrite entry_get_set_eq. now apply (IH _ _ Hl E').
Qed.

(** A write leaves every other readable file as it was. *)
Lemma write_at_read_other p c q x n n' :
  write_at p c n = Ok n' -> q <> p ->
  read_at q n = Ok x -> read_at q n' = Ok x.
Proof.
  revert q n n'. induction p as [|z p IH]; intros q n n' E Hq Hr;
    [discriminate E|].
  destruct p as [|y p].
  - destruct n as [c0|es]; [discriminate E|]. simpl in E.
    destruct q as [|z' q]; [discriminate Hr|]. simpl in Hr |- *.
    destruct (String.eqb_spec z z') as [<-|Hne].
    + destruct (entry_get z es) as [[c1|es1]|]; try discriminate.
      destruct q; [congruence | discriminate Hr].
    + assert (Hg : entry_get z' (entry_set z (File c) es) = entry_get z' es)
        by now apply entry_get_set_ne.
      destruct (entry_get z es) as [[c1|es1]|]; inversion E; subst; simpl;
        now rewrite Hg.
  - destruct (write_at_step z (y :: p) c n n' ltac:(discriminate) E)
      as (es & ch & ch' & -> & -> & E' & Hz).
    destruct q as [|z' q]; [discriminate Hr|]. simpl in Hr |- *.
    destruct (String.eqb_spec z z') as [<-|Hne].
    + rewrite entry_get_set_eq. rewrite Hz in Hr.
      apply (IH q ch ch' E'); [congruence | exact Hr].
    + now rewrite entry_get_set_ne.
Qed.

(** ** Running the harness *)

Lemma dict_get_set_eq k v d : dict_get k (dict_set k v d) = Some v.
Proof.
  induction d as [|[k' v'] d IH]; simpl.
  - now rewrite String.eqb_refl.
  - destruct (String.eqb_spec k k') as [->|Hne]; simpl.
    + now rewrite String.eqb_refl.
    + destruct (String.eqb_spec k k'); [contradiction | exact IH].
Qed.

Lemma dict_get_set_ne k k0 v d :
  k0 <> k -> dict_get k0 (dict_set k v d) = dict_get k0 d.
Proof.
  intros Hne. induction d as [|[k' v'] d IH]; simpl.
  - destruct (String.eqb_spec k0 k); [contradiction | reflexivity].
  - destruct (String.eqb_spec k k') as [->|Hk]; simpl.
    + destruct (String.eqb_spec k0 k'); [contradiction | reflexivity].
    + destruct (String.eqb_spec k0 k'); [reflexivity | exact IH].
Qed.

Lemma load_settings_dict base_dir d w :
  read_at (base_dir ++ [INPUTS_FOLDER_NAME; SETTINGS_FILENAME]) (fs_of w)
    = Ok (JsonFile (PDict d)) ->
  load_settings base_dir w =
    (World (fs_of w)
       (trace_of w ++ [Read (base_dir ++ [INPUTS_FOLDER_NAME; SETTINGS_FILENAME])]),
     Ok (PDict (dict_set "create_output_files" (PBool false) d))).
Proof.
  intros Hr. unfold load_settings, json_load, open_read, log, reads, bind, joinpath.
  simpl. rewrite Hr. reflexivity.
Qed.

(** [export_settings] leaves in the Inputs folder of the case the settings
    file and nothing else. *)
Lemma export_settings_result case_dir settings w w' :
  export_settings case_dir settings w = (w', Ok tt) ->
  lookup_node (case_dir ++ [INPUTS_FOLDER_NAME]) (fs_of w')
    = Some (Dir [(SETTINGS_FILENAME, File (JsonFile settings))]).
Proof.
  unfold export_settings, joinpath. intros E.
  apply bind_inv_ok in E as (w1 & b & Eb & E).
  unfold is_dir, reads in Eb. inversion Eb; subst w1 b; clear Eb.
  apply bind_inv_ok in E as (w1 & [] & Er & E).
  apply bind_inv_ok in E as (w2 & [] & Em & E).
  apply updates_inv_ok in Em as (fs2 & Em & ->).
  apply updates_inv_ok in E as (fs3 & E & ->). simpl in *.
  assert (Hfresh : is_dir_at (case_dir ++ [INPUTS_FOLDER_NAME]) (fs_of w1) = false).
  { destruct (is_dir_at (case_dir ++ [INPUTS_FOLDER_NAME]) (fs_of w)) eqn:Hd.
    - apply updates_inv_ok in Er as (fs1 & Er & ->). simpl.
      unfold is_dir_at. now rewrite (rmtree_at_gone _ _ _ Er).
    - unfold ret in Er. inversion Er; subst. exact Hd. }
  pose proof (mkdir_at_fresh _ _ _ (or_introl Hfresh) Em) as Hl.
  exact (write_at_parent _ _ _ _ _ _ Hl E).
Qed.

Lemma entry_set_same x ch es : entry_get x es = Some ch -> entry_set x ch es = es.
Proof.
  induction es as [|[y m] es IH]; simpl; [discriminate|].
  destruct (String.eqb x y); intros E.
  - now inversion E.
  - now rewrite IH.
Qed.

(** [mkdir] with [exist_ok] on a directory that is there changes nothing. *)
Lemma mkdir_at_existing p : forall n, is_dir_at p n = true -> mkdir_at p n = Ok n.
Proof.
  unfold is_dir_at. induction p as [|x r IH]; intros [c|es] Hd; simpl in *;
    try discriminate; [reflexivity|].
  destruct (entry_get x es) as [ch|] eqn:Hg; [|discriminate]. simpl.
  rewrite (IH _ Hd). now rewrite (entry_set_same _ _ _ Hg).
Qed.

Section ExportFolders.
Context `{Externals}.

(** A successful export made the folder and wrote the file of the item. *)
Lemma export_to_file_inv item folder_dir w w' :
  export_to_file item folder_dir w = (w', Ok tt) ->
  exists fs1 fs2,
    mkdir_at (default default_folder folder_dir) (fs_of w) = Ok fs1 /\
    write_at (default default_folder folder_dir ++ [item_file_name item])
      (item_content item) fs1 = Ok fs2 /\
    w' = World fs2 (trace_of w).
Proof.
  unfold export_to_file, joinpath, item_file_name, item_content. intros E.
  apply bind_inv_ok in E as (w1 & [] & Em & E).
  apply updates_inv_ok in Em as (fs1 & Em & ->). exists fs1.
  repeat match type of E with
         | (if ?b then _ else _) _ = _ => destruct b
         end;
    try discriminate; destruct (data item); try discriminate;
    apply updates_inv_ok in E as (fs2 & E & ->); exists fs2; now repeat split.
Qed.

(** In a folder that is there, a successful export is the write of the
    file of the item. *)
Lemma export_to_file_in_dir item d w w' :
  is_dir_at d (fs_of w) = true ->
  export_to_file item (Some d) w = (w', Ok tt) ->
  exists fs2,
    write_at (d ++ [item_file_name item]) (item_content item) (fs_of w) = Ok fs2 /\
    w' = World fs2 (trace_of w).
Proof.
  intros Hd E. apply export_to_file_inv in E as (fs1 & fs2 & Em & Ew & ->).
  simpl in Em. rewrite (mkdir_at_existing _ _ Hd) in Em. inversion Em; subst fs1.
  now exists fs2.
Qed.

Lemma write_at_keeps_dir d x c n n' :
  is_dir_at d n = true -> write_at (d ++ [x]) c n = Ok n' -> is_dir_at d n' = true.
Proof.
  unfold is_dir_at. intros Hd Hw.
  destruct (lookup_node d n) as [[c0|es]|] eqn:Hl; try discriminate.
  now rewrite (write_at_parent _ _ _ _ _ _ Hl Hw).
Qed.

(** A property of the file system that writes into the output folder keep
    is kept by the loop over the output items. *)
Lemma export_items_keep (P : node -> Prop) (d : path) :
  (forall x c n n', P n -> write_at (d ++ [x]) c n = Ok n' -> P n') ->
  forall items w w',
    is_dir_at d (fs_of w) = true ->
    P (fs_of w) ->
    for_each items
      (fun item =>
         if negb (String.eqb (extension item) "html")
         then export_to_file item (Some d)
         else ret tt) w = (w', Ok tt) ->
    P (fs_of w').
Proof.
  intros Hw. induction items as [|item items IH]; intros w w' Hd HP E; simpl in E.
  - inversion E; subst. exact HP.
  - apply bind_inv_ok in E as (w1 & [] & E1 & E).
    destruct (negb (String.eqb (extension item) "html")).
    + apply (export_to_file_in_dir _ _ _ _ Hd) in E1 as (fs2 & E1 & ->).
      exact (IH (World fs2 (trace_of w)) w'
               (write_at_keeps_dir _ _ _ _ _ Hd E1) (Hw _ _ _ _ HP E1) E).
    + inversion E1; subst. now apply (IH w1 w').
Qed.

(** The three steps of [export_outputs]. *)
Lemma export_outputs_steps d output_set w w' :
  export_outputs d output_set w = (w', Ok tt) ->
  exists fs1 fs2,
    (fs1 = fs_of w \/ rmtree_at d (fs_of w) = Ok fs1) /\
    mkdir_at d fs1 = Ok fs2 /\
    for_each (output_items output_set)
      (fun item =>
         if negb (String.eqb (extension item) "html")
         then export_to_file item (Some d)
         else ret tt) (World fs2 (trace_of w)) = (w', Ok tt).
Proof.
  unfold export_outputs. intros E.
  apply bind_inv_ok in E as (w1 & b & Eb & E).
  unfold is_dir, reads in Eb. inversion Eb; subst w1 b; clear Eb.
  apply bind_inv_ok in E as (w1 & [] & Er & E).
  apply bind_inv_ok in E as (w2 & [] & Em & E).
  apply updates_inv_ok in Em as (fs2 & Em & ->).
  exists (fs_of w1), fs2.
  assert (Hw1 : (fs_of w1 = fs_of w \/ rmtree_at d (fs_of w) = Ok (fs_of w1))
                /\ trace_of w1 = trace_of w).
  { destruct (is_dir_at d (fs_of w)).
    - apply updates_inv_ok in Er as (fs1 & Er & ->). simpl. split; [now right | reflexivity].
    - inversion Er; subst. split; [now left | reflexivity]. }
  destruct Hw1 as [Hfs Ht]. rewrite <- Ht. repeat split; assumption.
Qed.

Lemma export_outputs_is_dir d output_set w w' :
  export_outputs d output_set w = (w', Ok tt) -> is_dir_at d (fs_of w') = true.
Proof.
  intros E. destruct (export_outputs_steps _ _ _ _ E) as (fs1 & fs2 & _ & Em & El).
  apply (export_items_keep (fun n => is_dir_at d n = true) d) in El.
  - exact El.
  - intros x c n n' Hd Hw. exact (write_at_keeps_dir _ _ _ _ _ Hd Hw).
  - simpl. exact (mkdir_at_is_dir _ _ _ Em).
  - simpl. exact (mkdir_at_is_dir _ _ _ Em).
Qed.

Lemma export_outputs_sibling c x y q output_set w w' :
  export_outputs (c ++ [x]) output_set w = (w', Ok tt) -> x <> y ->
  lookup_node (c ++ y :: q) (fs_of w') = lookup_node (c ++ y :: q) (fs_of w).
Proof.
  intros E Hne.
  destruct (export_outputs_steps _ _ _ _ E) as (fs1 & fs2 & Hr & Em & El).
  apply (export_items_keep
           (fun n => lookup_node (c ++ y :: q) n = lookup_node (c ++ y :: q) (fs_of w))
           (c ++ [x])) in El.
  - exact El.
  - intros z content n n' Hn Hw. rewrite <- Hn. rewrite <- app_assoc in Hw.
    exact (write_at_sibling _ _ _ _ _ _ _ _ Hw Hne).
  - simpl. exact (mkdir_at_is_dir _ _ _ Em).
  - simpl. rewrite (mkdir_at_sibling c x [] y q fs1 fs2 Em Hne).
    destruct Hr as [->|Hr]; [reflexivity|].
    exact (rmtree_at_sibling c x [] y q _ _ Hr Hne).
Qed.

End ExportFolders.

(** *** Computations that leave the file system alone *)

Lemma keeps_ret {A} (a : A) : keeps_fs (ret a).
Proof. intros w. reflexivity. Qed.

Lemma keeps_raise {A} e : keeps_fs (raise (A := A) e).
Proof. intros w. reflexivity. Qed.

Lemma keeps_lift {A} (r : result A) : keeps_fs (lift r).
Proof. intros w. reflexivity. Qed.

Lemma keeps_reads {A} (f : node -> result A) : keeps_fs (reads f).
Proof. intros w. reflexivity. Qed.

Lemma keeps_log e : keeps_fs (log e).
Proof. intros w. reflexivity. Qed.

Lemma keeps_bind {A B} (m : M A) (k : A -> M B) :
  keeps_fs m -> (forall a, keeps_fs (k a)) -> keeps_fs (bind m k).
Proof.
  intros Hm Hk w. unfold bind. specialize (Hm w).
  destruct (m w) as [w1 [a|e]]; simpl in *; [|exact Hm].
  now rewrite Hk.
Qed.

Lemma keeps_for_each {A} (l : list A) (body : A -> M unit) :
  (forall x, keeps_fs (body x)) -> keeps_fs (for_each l body).
Proof.
  intros Hb. induction l as [|x l IH]; simpl.
  - apply keeps_ret.
  - apply keeps_bind; [apply Hb | intros _; exact IH].
Qed.

Create HintDb keeps.
#[local] Hint Resolve keeps_ret keeps_raise keeps_lift keeps_reads keeps_log : keeps.

Ltac keeps_step :=
  match goal with
  | |- keeps_fs (bind _ _) => apply keeps_bind; [|intros ?]
  | |- keeps_fs (for_each _ _) => apply keeps_for_each; intros ?
  | |- keeps_fs (if ?b then _ else _) => destruct b
  | |- keeps_fs (match ?c with _ => _ end) => destruct c
  | |- keeps_fs _ => solve [auto with keeps]
  end.

Section Comparison.
Context `{Externals}.

Lemma keeps_open_read p : keeps_fs (open_read p).
Proof. unfold open_read. repeat keeps_step. Qed.

Lemma keeps_assert_file out exp : keeps_fs (assert_file out exp).
Proof.
  unfold assert_file, assert_csv, assert_json, assert_npz, pd_read_csv, json_load,
    np_load, pd_assert_frame_equal, np_assert_allclose.
  pose proof keeps_open_read as Hread.
  repeat first [apply Hread | keeps_step].
Qed.

Lemma keeps_compare_outputs exp out : keeps_fs (compare_outputs exp out).
Proof.
  unfold compare_outputs. pose proof keeps_assert_file as Hfile.
  repeat first [apply Hfile | keeps_step].
Qed.

Lemma compare_outputs_fs exp out w w' r :
  compare_outputs exp out w = (w', r) -> fs_of w' = fs_of w.
Proof. intros E. pose proof (keeps_compare_outputs exp out w) as K. now rewrite E in K. Qed.

End Comparison.

(** ** The run modes *)

Lemma read_at_ok_lookup p n c :
  read_at p n = Ok c <-> lookup_node p n = Some (File c).
Proof.
  revert n. induction p as [|x p IH]; intros n; simpl.
  - destruct n; split; intros E; inversion E; reflexivity.
  - destruct n as [c0|es]; [split; discriminate|].
    destruct (entry_get x es); [apply IH | split; discriminate].
Qed.

Lemma map_m_lift_world {A B} (f : A -> result B) (l : list A) (w : world) :
  fst (map_m (fun x => lift (f x)) l w) = w.
Proof.
  revert w. induction l as [|x l IH]; intros w; simpl; [reflexivity|].
  unfold bind at 1, lift at 1. destruct (f x) as [b|e]; [|reflexivity].
  unfold bind. specialize (IH w).
  destruct (map_m (fun x => lift (f x)) l w) as [w1 [bs|e]]; exact IH.
Qed.

(** A successful allocation has made the directory of one numbered case
    and nothing else. *)
Lemma create_new_case_folder_inv w w' case_dir :
  create_new_case_folder w = (w', Ok case_dir) ->
  exists n,
    case_dir = SNAPSHOTS_DIR ++ ["Case" +:+ format_02d n] /\
    mkdir_at case_dir (fs_of w) = Ok (fs_of w') /\
    trace_of w' = trace_of w.
Proof.
  unfold create_new_case_folder. rewrite (bind_ok _ _ _ _ _ (find_cases_run w)).
  intros E. apply bind_inv_ok in E as (w1 & numbers & En & E).
  pose proof (map_m_lift_world (fun c => py_int (drop4 (name c)))
                (List.filter
                   (fun f => is_dir_at f (fs_of w) && startswith (name f) "Case")
                   (map (fun nm => SNAPSHOTS_DIR ++ [nm])
                      (listdir SNAPSHOTS_DIR (fs_of w)))) w) as Hw.
  cbv beta in Hw. rewrite En in Hw. simpl in Hw. subst w1.
  apply bind_inv_ok in E as (w1 & n & Ed & E).
  unfold lift in Ed. inversion Ed; subst w1. clear Ed.
  apply bind_inv_ok in E as (w1 & [] & Em & E).
  apply updates_inv_ok in Em as (fs1 & Em & ->).
  inversion E; subst. exists n. repeat split. exact Em.
Qed.

Section Modes.
Context `{Externals}.

Lemma main_keeps_world_when_quiet d w w' output_set :
  dict_get "create_output_files" d = Some (PBool false) ->
  main (PDict d) w = (w', Ok output_set) -> w' = w.
Proof.
  intros Hf. rewrite main_settings_given. intros E.
  apply bind_inv_ok in E as (w1 & a & Ea & E). unfold lift in Ea.
  inversion Ea; subst w1.
  apply bind_inv_ok in E as (w1 & b & Eb & E). unfold lift in Eb.
  inversion Eb; subst w1.
  apply bind_inv_ok in E as (w1 & v & Ev & E). unfold lift in Ev.
  inversion Ev; subst w1.
  simpl in E. rewrite Hf in E. simpl in E.
  unfold bind, lift, ret in E. simpl in E. now inversion E.
Qed.

(** Create mode on one case directory. *)
Lemma create_case_settings case_dir d w w' :
  read_at (PROJECT_BASE_DIR ++ [INPUTS_FOLDER_NAME; SETTINGS_FILENAME]) (fs_of w)
    = Ok (JsonFile (PDict d)) ->
  test_snapshots_case "create" case_dir w = (w', Ok tt) ->
  lookup_node (case_dir ++ [INPUTS_FOLDER_NAME]) (fs_of w')
    = Some (Dir [(SETTINGS_FILENAME,
                  File (JsonFile
                          (PDict (dict_set "create_output_files" (PBool false) d))))]).
Proof.
  intros Hr. unfold test_snapshots_case.
  change (String.eqb "create" "create") with true.
  change (String.eqb "create" "update") with false.
  change (String.eqb "create" "compare") with false.
  cbv iota. rewrite (bind_ok _ _ _ _ _ (load_settings_dict _ _ _ Hr)).
  intros E. apply bind_inv_ok in E as (w1 & output_set & Em & E).
  apply bind_inv_ok in E as (w2 & [] & Ex & E). inversion E; subst w2; clear E.
  apply bind_inv_ok in Ex as (w2 & [] & Es & Eo).
  unfold joinpath in Eo.
  rewrite (export_outputs_sibling case_dir EXPECTED_OUTPUTS_FOLDER
             INPUTS_FOLDER_NAME [] _ _ _ Eo) by discriminate.
  exact (export_settings_result _ _ _ _ Es).
Qed.

(** C3 (as the code has it). When create mode runs through, the Inputs
    folder of the case directory the allocation returned holds the
    settings file and nothing else, and the settings written are the
    settings read from the project's input folder with create_output_files
    set to [False]: every other key has the value that was read. *)
Theorem create_exports_loaded_settings
  (d : list (string * pyval)) (w w0 w' : world) (case_dir : path) :
  read_at [INPUTS_FOLDER_NAME; SETTINGS_FILENAME] (fs_of w)
    = Ok (JsonFile (PDict d)) ->
  create_new_case_folder w = (w0, Ok case_dir) ->
  test_snapshots "create" w = (w', Ok tt) ->
  let written := dict_set "create_output_files" (PBool false) d in
  lookup_node (case_dir ++ [INPUTS_FOLDER_NAME]) (fs_of w')
    = Some (Dir [(SETTINGS_FILENAME, File (JsonFile (PDict written)))]) /\
  read_at (case_dir ++ [INPUTS_FOLDER_NAME; SETTINGS_FILENAME]) (fs_of w')
    = Ok (JsonFile (PDict written)) /\
  dict_get "create_output_files" written = Some (PBool false) /\
  (forall k, k <> "create_output_files" -> dict_get k written = dict_get k d).
Proof.
  intros Hr Ec E written.
  assert (Hl : lookup_node (case_dir ++ [INPUTS_FOLDER_NAME]) (fs_of w')
               = Some (Dir [(SETTINGS_FILENAME, File (JsonFile (PDict written)))])).
  { unfold test_snapshots in E. simpl negb in E. cbv iota in E.
    change (String.eqb "create" "create") with true in E. cbv iota in E.
    apply bind_inv_ok in E as (w1 & cases & Ec' & E).
    apply bind_inv_ok in Ec' as (w0' & case_dir' & Ec' & Er).
    rewrite Ec in Ec'. inversion Ec'; subst w0' case_dir'; clear Ec'.
    inversion Er; subst w1 cases; clear Er.
    simpl in E. apply bind_inv_ok in E as (w1 & [] & E & Er).
    inversion Er; subst w1; clear Er.
    destruct (create_new_case_folder_inv _ _ _ Ec) as (n & Hn & Em & _).
    assert (Hr0 : read_at (PROJECT_BASE_DIR ++ [INPUTS_FOLDER_NAME; SETTINGS_FILENAME])
                    (fs_of w0) = Ok (JsonFile (PDict d))).
    { apply read_at_ok_lookup. apply read_at_ok_lookup in Hr. rewrite <- Hr.
      rewrite Hn in Em.
      exact (mkdir_at_sibling [] "tests" ["snapshots"; "Case" +:+ format_02d n]
               INPUTS_FOLDER_NAME [SETTINGS_FILENAME] _ _ Em ltac:(discriminate)). }
    exact (create_case_settings _ _ _ _ Hr0 E). }
  split; [exact Hl|]. split; [|split].
  - apply read_at_ok_lookup.
    change (case_dir ++ [INPUTS_FOLDER_NAME; SETTINGS_FILENAME])
      with (case_dir ++ [INPUTS_FOLDER_NAME] ++ [SETTINGS_FILENAME]).
    rewrite app_assoc, lookup_node_app, Hl. reflexivity.
  - apply dict_get_set_eq.
  - intros k Hk. now apply dict_get_set_ne.
Qed.

(** Compare mode on one case directory, when the run gets through. *)
Lemma compare_case_removes_temp case_dir w w' :
  test_snapshots_case "compare" case_dir w = (w', Ok tt) ->
  lookup_node (case_dir ++ [OUTPUTS_FOLDER_NAME]) (fs_of w') = None.
Proof.
  unfold test_snapshots_case.
  change (String.eqb "compare" "create") with false.
  change (String.eqb "compare" "update") with false.
  change (String.eqb "compare" "compare") with true.
  cbv iota. intros E.
  apply bind_inv_ok in E as (w0 & settings & _ & E).
  apply bind_inv_ok in E as (w1 & output_set & _ & E).
  apply bind_inv_ok in E as (w2 & [] & _ & E).
  apply bind_inv_ok in E as (w3 & [] & _ & E).
  apply bind_inv_ok in E as (w4 & [] & _ & E).
  apply updates_inv_ok in E as (fs5 & E & ->). simpl.
  exact (rmtree_at_gone _ _ _ E).
Qed.

(** C2 (as the code has it). In compare mode, a case whose comparison
    passes ends with no TempOutputs folder. A case whose comparison raises
    ends there: the exception leaves the run of the case at once, and the
    TempOutputs folder written for the comparison is still a directory. *)
Theorem compare_case_cleans_up_only_on_success (case_dir : path) (w : world) :
  let expected_outputs_base_dir := case_dir ++ [EXPECTED_OUTPUTS_FOLDER] in
  let outputs_base_dir := case_dir ++ [OUTPUTS_FOLDER_NAME] in
  (forall w',
     test_snapshots_case "compare" case_dir w = (w', Ok tt) ->
     lookup_node outputs_base_dir (fs_of w') = None /\
     is_dir_at outputs_base_dir (fs_of w') = false) /\
  (forall settings output_set w0 w1 w2 w3 e,
     load_settings case_dir w = (w0, Ok settings) ->
     main settings w0 = (w1, Ok output_set) ->
     export_outputs outputs_base_dir output_set w1 = (w2, Ok tt) ->
     compare_outputs expected_outputs_base_dir outputs_base_dir w2
       = (w3, Raise e) ->
     test_snapshots_case "compare" case_dir w = (w3, Raise e) /\
     is_dir_at outputs_base_dir (fs_of w3) = true).
Proof.
  intros exp out. split.
  - intros w' E. pose proof (compare_case_removes_temp _ _ _ E) as Hl.
    split; [exact Hl|]. unfold is_dir_at. fold out in Hl. now rewrite Hl.
  - intros settings output_set w0 w1 w2 w3 e El Em Ex Ec. split.
    + unfold test_snapshots_case.
      change (String.eqb "compare" "create") with false.
      change (String.eqb "compare" "update") with false.
      change (String.eqb "compare" "compare") with true.
      cbv iota.
      rewrite (bind_ok _ _ _ _ _ El), (bind_ok _ _ _ _ _ Em).
      unfold joinpath. fold exp out.
      rewrite (bind_ok (ret tt) _ w1 w1 tt eq_refl).
      rewrite (bind_ok _ _ _ _ _ Ex).
      now rewrite (bind_raise _ _ _ _ _ Ec).
    + rewrite (compare_outputs_fs _ _ _ _ _ Ec).
      exact (export_outputs_is_dir _ _ _ _ Ex).
Qed.

End Modes.

(** ** The comparison looks at the expected tree only *)

Lemma walk_node_base n : forall base b ds fnames,
  In (b, ds, fnames) (walk_node base n) -> exists sub, b = base ++ sub.
Proof.
  induction n as [c|es IH] using node_tree_ind; intros base b ds fnames Hin.
  - destruct Hin.
  - simpl in Hin. destruct Hin as [E|Hin].
    + inversion E. exists []. now rewrite app_nil_r.
    + induction IH as [|[x ch] es Hch _ IHes]; [destruct Hin|].
      apply in_app_or in Hin as [Hin|Hin]; [|now apply IHes].
      destruct (Hch _ _ _ _ Hin) as [sub ->]. exists (x :: sub).
      now rewrite <- app_assoc.
Qed.

Lemma relative_to_app p q : relative_to (p ++ q) p = Ok q.
Proof.
  induction p as [|x p IH]; simpl; [now destruct q|].
  now rewrite String.eqb_refl.
Qed.

Lemma for_each_app {A} (l1 l2 : list A) (body : A -> M unit) w :
  for_each (l1 ++ l2) body w
  = bind (for_each l1 body) (fun _ => for_each l2 body) w.
Proof.
  revert w. induction l1 as [|x l1 IH]; intros w; simpl; [reflexivity|].
  unfold bind. destruct (body x w) as [w1 [[]|e]]; [|reflexivity].
  rewrite IH. reflexivity.
Qed.

Lemma files_below_lookup top fs fs2 :
  lookup_node top fs2 = lookup_node top fs ->
  files_below top fs2 = files_below top fs.
Proof. intros E. unfold files_below, os_walk. now rewrite E. Qed.

Section OneSided.
Context `{Externals}.

Lemma compare_files_in_dir exp out sub fnames w :
  for_each fnames
    (fun f =>
       dir_suffix <- lift (relative_to (joinpath (exp ++ sub) [f]) exp) ;;
       assert_file (joinpath out dir_suffix) (joinpath (exp ++ sub) [f])) w
  = for_each (map (fun f => drop (length exp) ((exp ++ sub) ++ [f])) fnames)
      (fun rel => assert_file (out ++ rel) (exp ++ rel)) w.
Proof.
  revert w. induction fnames as [|f fnames IH]; intros w; [reflexivity|].
  cbn [for_each map].
  assert (Hf : forall w1,
            (dir_suffix <- lift (relative_to (joinpath (exp ++ sub) [f]) exp) ;;
             assert_file (joinpath out dir_suffix) (joinpath (exp ++ sub) [f])) w1
            = assert_file (out ++ drop (length exp) ((exp ++ sub) ++ [f]))
                (exp ++ drop (length exp) ((exp ++ sub) ++ [f])) w1).
  { intros w1. unfold joinpath, bind, lift.
    rewrite <- (app_assoc exp sub [f]), relative_to_app, drop_app_length.
    reflexivity. }
  apply bind_ext; [apply Hf | intros _ w1; apply IH].
Qed.

(** [compare_outputs] is one loop over the files below the expected
    folder, each met with the file of the same relative path in the
    output folder. *)
Lemma compare_outputs_flat exp out w :
  compare_outputs exp out w
  = for_each (files_below exp (fs_of w))
      (fun rel => assert_file (out ++ rel) (exp ++ rel)) w.
Proof.
  unfold compare_outputs, files_below, reads, bind at 1.
  assert (Hbase : forall b ds fnames,
            In (b, ds, fnames) (os_walk exp (fs_of w)) -> exists sub, b = exp ++ sub).
  { unfold os_walk. destruct (lookup_node exp (fs_of w)); [|intros ? ? ? []].
    apply walk_node_base. }
  revert Hbase. generalize (os_walk exp (fs_of w)) as walk.
  intros walk. revert w.
  induction walk as [|[[b ds] fnames] walk IH]; intros w0 Hbase; [reflexivity|].
  cbn [for_each flat_map]. rewrite for_each_app.
  destruct (Hbase b ds fnames (or_introl eq_refl)) as [sub ->].
  apply bind_ext; [apply compare_files_in_dir|].
  intros _ w1. apply IH. intros b' ds' f' Hi. apply (Hbase b' ds' f'). now right.
Qed.

(** *** Success carries over to a file system that reads the same *)

Lemma transfers_ret fs fs2 {A} (a : A) : transfers fs fs2 (ret a).
Proof. intros t w' a' E. inversion E; subst. now split. Qed.

Lemma transfers_raise fs fs2 {A} e : transfers fs fs2 (raise (A := A) e).
Proof. intros t w' a E. discriminate E. Qed.

Lemma transfers_lift fs fs2 {A} (r : result A) : transfers fs fs2 (lift r).
Proof. intros t w' a E. unfold lift in *. inversion E; subst. now split. Qed.

Lemma transfers_log fs fs2 e : transfers fs fs2 (log e).
Proof. intros t w' a E. unfold log in *. inversion E; subst. now split. Qed.

Lemma transfers_bind fs fs2 {A B} (m : M A) (k : A -> M B) :
  transfers fs fs2 m -> (forall a, transfers fs fs2 (k a)) ->
  transfers fs fs2 (bind m k).
Proof.
  intros Hm Hk t w' b E. apply bind_inv_ok in E as (w1 & a & Em & Ek).
  destruct (Hm _ _ _ Em) as [Em2 Hfs]. destruct w1 as [fs1 t1]. simpl in *.
  subst fs1. rewrite (bind_ok _ _ _ _ _ Em2). exact (Hk a _ _ _ Ek).
Qed.

Lemma transfers_for_each fs fs2 {A} (l : list A) (body : A -> M unit) :
  (forall x, In x l -> transfers fs fs2 (body x)) ->
  transfers fs fs2 (for_each l body).
Proof.
  induction l as [|x l IH]; intros Hb; simpl.
  - apply transfers_ret.
  - apply transfers_bind; [apply Hb; now left|].
    intros _. apply IH. intros y Hy. apply Hb. now right.
Qed.

Lemma transfers_open_read fs fs2 p :
  (forall c, read_at p fs = Ok c -> read_at p fs2 = Ok c) ->
  transfers fs fs2 (open_read p).
Proof.
  intros Hp t w' c E. unfold open_read, log, reads, bind in E |- *.
  simpl in E |- *. injection E as <- Er. split; [|reflexivity]. simpl.
  now rewrite (Hp c Er).
Qed.

Ltac transfers_step :=
  match goal with
  | |- transfers _ _ (bind _ _) => apply transfers_bind; [|intros ?]
  | |- transfers _ _ (for_each _ _) => apply transfers_for_each; intros ? ?
  | |- transfers _ _ (ret _) => apply transfers_ret
  | |- transfers _ _ (raise _) => apply transfers_raise
  | |- transfers _ _ (lift _) => apply transfers_lift
  | |- transfers _ _ (log _) => apply transfers_log
  | |- transfers _ _ (if ?b then _ else _) => destruct b
  | |- transfers _ _ (match ?c with _ => _ end) => destruct c
  end.

Lemma transfers_assert_file fs fs2 out exp :
  (forall c, read_at out fs = Ok c -> read_at out fs2 = Ok c) ->
  (forall c, read_at exp fs = Ok c -> read_at exp fs2 = Ok c) ->
  transfers fs fs2 (assert_file out exp).
Proof.
  intros Ho He.
  pose proof (transfers_open_read fs fs2 out Ho) as Hro.
  pose proof (transfers_open_read fs fs2 exp He) as Hre.
  unfold assert_file, assert_csv, assert_json, assert_npz, pd_read_csv, json_load,
    np_load, pd_assert_frame_equal, np_assert_allclose.
  repeat first [exact Hro | exact Hre | transfers_step].
Qed.

(** *** The files the comparison opens *)

Lemma reads_only_weaken (S S' : path -> Prop) {A} (m : M A) :
  (forall p, S p -> S' p) -> reads_only S m -> reads_only S' m.
Proof.
  intros HS Hm w w' r p E Hin. destruct (Hm _ _ _ _ E Hin); [now left | right; auto].
Qed.

Lemma reads_only_pure S {A} (m : M A) :
  (forall w, fst (m w) = w) -> reads_only S m.
Proof. intros Hm w w' r p E Hin. left. specialize (Hm w). rewrite E in Hm. simpl in Hm. now subst. Qed.

Lemma reads_only_log_compare S e :
  (forall p, e <> Read p) -> reads_only S (log e).
Proof.
  intros He w w' r p E Hin. unfold log in E. inversion E; subst. simpl in Hin.
  apply in_app_or in Hin as [Hin|[Hin|[]]]; [now left|]. now destruct (He p).
Qed.

Lemma reads_only_open_read (S : path -> Prop) q : S q -> reads_only S (open_read q).
Proof.
  intros Hq w w' r p E Hin. unfold open_read, log, reads, bind in E. simpl in E.
  inversion E; subst. simpl in Hin.
  apply in_app_or in Hin as [Hin|[Hin|[]]]; [now left|]. inversion Hin; subst. now right.
Qed.

Lemma reads_only_bind S {A B} (m : M A) (k : A -> M B) :
  reads_only S m -> (forall a, reads_only S (k a)) -> reads_only S (bind m k).
Proof.
  intros Hm Hk w w' r p E Hin. unfold bind in E.
  destruct (m w) as [w1 [a|e]] eqn:Em.
  - destruct (Hk a _ _ _ _ E Hin) as [H1|H1]; [|now right].
    exact (Hm _ _ _ _ Em H1).
  - inversion E; subst. exact (Hm _ _ _ _ Em Hin).
Qed.

Lemma reads_only_for_each S {A} (l : list A) (body : A -> M unit) :
  (forall x, In x l -> reads_only S (body x)) -> reads_only S (for_each l body).
Proof.
  induction l as [|x l IH]; intros Hb; simpl.
  - apply reads_only_pure. reflexivity.
  - apply reads_only_bind; [apply Hb; now left|].
    intros _. apply IH. intros y Hy. apply Hb. now right.
Qed.

Ltac reads_only_step :=
  match goal with
  | |- reads_only _ (bind _ _) => apply reads_only_bind; [|intros ?]
  | |- reads_only _ (for_each _ _) => apply reads_only_for_each; intros ? ?
  | |- reads_only _ (ret _) => apply reads_only_pure; reflexivity
  | |- reads_only _ (raise _) => apply reads_only_pure; reflexivity
  | |- reads_only _ (lift _) => apply reads_only_pure; reflexivity
  | |- reads_only _ (log _) => apply reads_only_log_compare; discriminate
  | |- reads_only _ (open_read _) => apply reads_only_open_read; auto
  | |- reads_only _ (if ?b then _ else _) => destruct b
  | |- reads_only _ (match ?c with _ => _ end) => destruct c
  end.

Lemma reads_only_assert_file out exp :
  reads_only (fun p => p = out \/ p = exp) (assert_file out exp).
Proof.
  unfold assert_file, assert_csv, assert_json, assert_npz, pd_read_csv, json_load,
    np_load, pd_assert_frame_equal, np_assert_allclose.
  repeat reads_only_step.
Qed.

Lemma reads_only_compare_outputs exp out fs :
  reads_only
    (fun p => exists rel, In rel (files_below exp fs) /\ (p = out ++ rel \/ p = exp ++ rel))
    (for_each (files_below exp fs)
       (fun rel => assert_file (out ++ rel) (exp ++ rel))).
Proof.
  apply reads_only_for_each. intros rel Hrel.
  apply (reads_only_weaken (fun p => p = out ++ rel \/ p = exp ++ rel));
    [|apply reads_only_assert_file].
  intros p Hp. now exists rel.
Qed.

End OneSided.

Section OneSidedClaim.
Context `{Externals}.

(** C10. Take a case and a relative path [rel] at which the expected
    folder has no file, and put a file at [rel] in the output folder.
    Then the comparison never opens that file, however it ends, and a
    comparison that passed without the extra file passes with it, with the
    same reads and comparisons. *)
Theorem compare_outputs_one_sided
  (case_dir rel : path) (extra : content) (fs fs2 : node) (t : list event) :
  let expected_outputs_base_dir := case_dir ++ [EXPECTED_OUTPUTS_FOLDER] in
  let outputs_base_dir := case_dir ++ [OUTPUTS_FOLDER_NAME] in
  ~ In rel (files_below expected_outputs_base_dir fs) ->
  write_at (outputs_base_dir ++ rel) extra fs = Ok fs2 ->
  (forall w' r,
     compare_outputs expected_outputs_base_dir outputs_base_dir (World fs2 t)
       = (w', r) ->
     In (Read (outputs_base_dir ++ rel)) (trace_of w') ->
     In (Read (outputs_base_dir ++ rel)) t) /\
  (forall w',
     compare_outputs expected_outputs_base_dir outputs_base_dir (World fs t)
       = (w', Ok tt) ->
     compare_outputs expected_outputs_base_dir outputs_base_dir (World fs2 t)
       = (World fs2 (trace_of w'), Ok tt)).
Proof.
  intros exp out Hrel Hw.
  assert (Hw' : write_at (case_dir ++ OUTPUTS_FOLDER_NAME :: rel) extra fs = Ok fs2).
  { unfold out in Hw. now rewrite <- app_assoc in Hw. }
  assert (Hfb : files_below exp fs2 = files_below exp fs).
  { apply files_below_lookup.
    exact (write_at_sibling case_dir OUTPUTS_FOLDER_NAME rel
             EXPECTED_OUTPUTS_FOLDER [] extra fs fs2 Hw' ltac:(discriminate)). }
  split.
  - intros w' r E Hin. rewrite compare_outputs_flat in E. simpl fs_of in E.
    rewrite Hfb in E.
    destruct (reads_only_compare_outputs exp out fs _ _ _ _ E Hin)
      as [Ht | (rel' & Hrel' & [Ep | Ep])]; [exact Ht| |].
    + apply app_inv_head in Ep. now subst.
    + unfold out, exp in Ep. rewrite <- !app_assoc in Ep.
      apply app_inv_head in Ep. discriminate Ep.
  - intros w' E. rewrite compare_outputs_flat in E |- *. simpl fs_of in E |- *.
    rewrite Hfb.
    refine (proj1 (transfers_for_each fs fs2 _ _ _ t w' tt E)).
    intros rel' Hrel'. apply transfers_assert_file; intros c Hc.
    + apply (write_at_read_other _ _ _ _ _ _ Hw); [|exact Hc].
      intros Ep. apply app_inv_head in Ep. now subst.
    + apply (write_at_read_other _ _ _ _ _ _ Hw); [|exact Hc].
      intros Ep. unfold out, exp in Ep. rewrite <- !app_assoc in Ep.
      apply app_inv_head in Ep. discriminate Ep.
Qed.

End OneSidedClaim.

(** ** The properties on example projects *)

Lemma compare_outputs_one_sided_witness :
  let fs :=
    project_fs [("Case01",
                 Dir [("ExpectedOutputs", Dir [("df.csv", File (csv_total "7"))]);
                      ("TempOutputs", Dir [("df.csv", File (csv_total "7"))])])] in
  let fs2 :=
    project_fs [("Case01",
                 Dir [("ExpectedOutputs", Dir [("df.csv", File (csv_total "7"))]);
                      ("TempOutputs", Dir [("df.csv", File (csv_total "7"));
                                           ("extra.csv", File (csv_total "8"))])])] in
  let seen := [Read (Case01 ++ ["TempOutputs"; "df.csv"]);
               Read (Case01 ++ ["ExpectedOutputs"; "df.csv"]);
               FrameCompared] in
  compare_outputs (H := plain_externals)
    (Case01 ++ [EXPECTED_OUTPUTS_FOLDER]) (Case01 ++ [OUTPUTS_FOLDER_NAME])
    (World fs2 [])
  = (World fs2 seen, Ok tt).
Proof.
  intros fs fs2 seen.
  apply (proj2 (compare_outputs_one_sided (H := plain_externals)
                  Case01 ["extra.csv"] (csv_total "8") fs fs2 []
                  ltac:(vm_compute; intros [E|[]]; discriminate E)
                  ltac:(reflexivity))
           (World fs seen)).
  vm_compute. reflexivity.
Defined.

Lemma assert_npz_keys_before_values_witness :
  assert_npz (H := spec_externals) ["other_keys.npz"] ["expected.npz"]
    (World npz_fs [])
  = (World npz_fs [Read ["other_keys.npz"]; Read ["expected.npz"]],
     Raise (KeyError "The .npz archives have different keys.")) /\
  (exists w',
     assert_npz (H := spec_externals) ["other_values.npz"] ["expected.npz"]
       (World npz_fs [])
     = (w', Raise AssertionError) /\
     AssertionError <> KeyError "The .npz archives have different keys.") /\
  exists w',
    assert_npz (H := spec_externals) ["expected.npz"] ["expected.npz"]
      (World npz_fs [])
    = (w', Ok tt).
Proof.
  split; [|split].
  - apply (proj1 (assert_npz_keys_before_values (H := spec_externals)
                    ["other_keys.npz"] ["expected.npz"]
                    [("x", array_of 1%float)]
                    [("x", array_of 1%float); ("y", array_of 2%float)]
                    (World npz_fs []) eq_refl eq_refl)).
    apply (bool_decide_eq_false_1 _). vm_compute. reflexivity.
  - apply (proj1 (proj2 (assert_npz_keys_before_values (H := spec_externals)
                           ["other_values.npz"] ["expected.npz"]
                           [("y", array_of 2%float); ("x", array_of 1.5%float)]
                           [("x", array_of 1%float); ("y", array_of 2%float)]
                           (World npz_fs []) eq_refl eq_refl))).
    + apply (bool_decide_eq_true_1 _). vm_compute. reflexivity.
    + exists "x", (array_of 1.5%float), (array_of 1%float), 0%nat, 1.5%float, 1%float.
      split; [now left|]. do 4 (split; [reflexivity|]).
      left. repeat split; reflexivity.
  - apply (proj2 (proj2 (assert_npz_keys_before_values (H := spec_externals)
                           ["expected.npz"] ["expected.npz"]
                           [("x", array_of 1%float); ("y", array_of 2%float)]
                           [("x", array_of 1%float); ("y", array_of 2%float)]
                           (World npz_fs []) eq_refl eq_refl))).
    + reflexivity.
    + intros nm a e [<-|[<-|[]]] Ea Ee; inversion Ea; inversion Ee; subst;
        (split; [reflexivity|]); (split; [reflexivity|]);
        intros [|i] x y Hx Hy; try discriminate Hx;
        inversion Hx; inversion Hy; subst; repeat split; reflexivity.
Defined.

(** C2 (the claim as stated fails). Compare mode on a project whose one
    case has a golden file of an unsupported format: the run raises the
    unsupported-format error and the TempOutputs folder of the case is
    still there. The same with a golden csv that differs from the output:
    the run raises [AssertionError] and TempOutputs is still there. *)
Lemma compare_error_leaves_temp_outputs :
  let unsupported :=
    World (project_fs
             [("Case01", case_node [("df.csv", File (csv_total "7"));
                                    ("notes.txt", File (RawFile "golden"))])]) [] in
  let mismatch :=
    World (project_fs [("Case01", case_node [("df.csv", File (csv_total "8"))])]) [] in
  (snd (test_snapshots (H := plain_externals) "compare" unsupported)
     = Raise (ValueError "File extension '.txt' is not supported.") /\
   is_dir_at (Case01 ++ [OUTPUTS_FOLDER_NAME])
     (fs_of (fst (test_snapshots (H := plain_externals) "compare" unsupported)))
     = true) /\
  (snd (test_snapshots (H := plain_externals) "compare" mismatch)
     = Raise AssertionError /\
   is_dir_at (Case01 ++ [OUTPUTS_FOLDER_NAME])
     (fs_of (fst (test_snapshots (H := plain_externals) "compare" mismatch)))
     = true).
Proof. vm_compute. auto. Qed.

Lemma compare_case_cleans_up_only_on_success_witness :
  let passing :=
    World (project_fs [("Case01", case_node [("df.csv", File (csv_total "7"))])]) [] in
  let failing :=
    World (project_fs [("Case01", case_node [("df.csv", File (csv_total "8"))])]) [] in
  is_dir_at (Case01 ++ [OUTPUTS_FOLDER_NAME])
    (fs_of (fst (test_snapshots_case (H := plain_externals) "compare" Case01 passing)))
    = false /\
  is_dir_at (Case01 ++ [OUTPUTS_FOLDER_NAME])
    (fs_of (fst (test_snapshots_case (H := plain_externals) "compare" Case01 failing)))
    = true.
Proof.
  intros passing failing. split.
  - apply (proj1 (compare_case_cleans_up_only_on_success (H := plain_externals)
                    Case01 passing)).
    vm_compute. reflexivity.
  - eapply (proj2 (compare_case_cleans_up_only_on_success (H := plain_externals)
                     Case01 failing)).
    + vm_compute. reflexivity.
    + vm_compute. reflexivity.
    + vm_compute. reflexivity.
    + vm_compute. reflexivity.
Defined.

(** C3 (the claim as stated fails). Create mode on a project whose input
    settings are a = 10 and b = 3: the run gets through, and the settings
    it writes into the new case are not the settings it read; they have
    the entry create_output_files besides. *)
Lemma create_settings_not_verbatim :
  let w := World (project_fs [("Case01", Dir [])]) [] in
  let written :=
    PDict [("a", PInt 10); ("b", PInt 3); ("create_output_files", PBool false)] in
  read_at [INPUTS_FOLDER_NAME; SETTINGS_FILENAME] (fs_of w)
    = Ok (JsonFile settings_10_3) /\
  snd (test_snapshots (H := plain_externals) "create" w) = Ok tt /\
  read_at (SNAPSHOTS_DIR ++ ["Case02"; INPUTS_FOLDER_NAME; SETTINGS_FILENAME])
    (fs_of (fst (test_snapshots (H := plain_externals) "create" w)))
    = Ok (JsonFile written) /\
  written <> settings_10_3 /\
  py_eq written settings_10_3 = false.
Proof.
  intros w written. split; [reflexivity|]. split; [vm_compute; reflexivity|].
  split; [vm_compute; reflexivity|]. split; [discriminate | reflexivity].
Qed.

Lemma create_exports_loaded_settings_witness :
  let w := World (project_fs [("Case01", Dir [])]) [] in
  let written :=
    PDict [("a", PInt 10); ("b", PInt 3); ("create_output_files", PBool false)] in
  snd (create_new_case_folder w) = Ok (SNAPSHOTS_DIR ++ ["Case02"]) /\
  lookup_node (SNAPSHOTS_DIR ++ ["Case02"; INPUTS_FOLDER_NAME])
    (fs_of (fst (test_snapshots (H := plain_externals) "create" w)))
  = Some (Dir [(SETTINGS_FILENAME, File (JsonFile written))]).
Proof.
  intros w written. split; [reflexivity|].
  apply (create_exports_loaded_settings (H := plain_externals)
           [("a", PInt 10); ("b", PInt 3)] w
           (fst (create_new_case_folder w))
           (fst (test_snapshots (H := plain_externals) "create" w))
           (SNAPSHOTS_DIR ++ ["Case02"])).
  - reflexivity.
  - vm_compute. reflexivity.
  - vm_compute. reflexivity.
Defined.

(** * Further properties of the harness and of the model *)

(** ** The run type *)

Section RunType.
Context `{Externals}.

(** X1. A run type other than compare, update and create is refused with
    the [ValueError] that lists the three, before anything is read or
    written: the world is handed back as it was. *)
Theorem test_snapshots_rejects_unknown_run_type (run_type : string) (w : world) :
  run_type <> "compare" -> run_type <> "update" -> run_type <> "create" ->
  test_snapshots run_type w =
    (w, Raise (ValueError
                 ("Invalid input 'run_type'='" +:+ run_type
                  +:+ "'. Accepted values: 'compare', 'update', 'create'."))).
Proof.
  intros Hc Hu Hr. unfold test_snapshots. cbn [existsb].
  destruct (String.eqb_spec run_type "compare"); [contradiction|].
  destruct (String.eqb_spec run_type "update"); [contradiction|].
  destruct (String.eqb_spec run_type "create"); [contradiction|].
  reflexivity.
Qed.

End RunType.

Lemma test_snapshots_rejects_unknown_run_type_witness :
  test_snapshots (H := plain_externals) "refresh" (World (project_fs []) []) =
    (World (project_fs []) [],
     Raise (ValueError
              "Invalid input 'run_type'='refresh'. Accepted values: 'compare', 'update', 'create'.")).
Proof.
  apply (test_snapshots_rejects_unknown_run_type (H := plain_externals)
           "refresh" (World (project_fs []) [])); discriminate.
Defined.

(** ** Allocation: the number is new *)

Lemma fold_max_acc (l : list Z) (a : Z) : a <= fold_left Z.max l a.
Proof.
  revert a. induction l as [|y l IH]; intros a; simpl; [lia|].
  etransitivity; [|apply IH]. lia.
Qed.

Lemma fold_max_ge (l : list Z) (a x : Z) :
  In x l -> x <= fold_left Z.max l a.
Proof.
  revert a. induction l as [|y l IH]; intros a Hin; simpl; [destruct Hin|].
  destruct Hin as [Hy|Hin]; [|now apply IH].
  subst y. etransitivity; [|apply fold_max_acc]. lia.
Qed.

Lemma py_max_ge (l : list Z) (m x : Z) : py_max l = Ok m -> In x l -> x <= m.
Proof.
  destruct l as [|a l]; [discriminate|]. simpl. intros E Hin. inversion E; subst.
  destruct Hin as [->|Hin]; [apply fold_max_acc | now apply fold_max_ge].
Qed.

(** X2. Whatever the numbers of the existing cases, the number the
    allocation settles on is none of them, and it is at most one above
    their maximum. *)
Theorem new_case_number_is_unused (case_numbers : list Z) (n : Z) :
  determine_new_case_number case_numbers = Ok n ->
  ~ In n case_numbers /\
  exists m, py_max case_numbers = Ok m /\ n <= m + 1.
Proof.
  intros E. destruct (py_max case_numbers) as [m|e] eqn:Hm.
  - destruct (determine_new_case_number_last_gap _ _ Hm) as (n' & E' & Hcase).
    rewrite E in E'. injection E' as <-.
    destruct Hcase as [(Hr & Hn & _) | (Hn & _)].
    + split; [exact Hn|]. exists m. split; [reflexivity | lia].
    + split; [|exists m; split; [reflexivity | lia]].
      intros Hin. pose proof (py_max_ge _ _ _ Hm Hin). lia.
  - unfold determine_new_case_number in E. rewrite Hm in E. discriminate E.
Qed.

Lemma new_case_number_is_unused_witness :
  ~ In 4 [1; 5; 2] /\ exists m, py_max [1; 5; 2] = Ok m /\ 4 <= m + 1.
Proof. apply (new_case_number_is_unused [1; 5; 2] 4). reflexivity. Defined.

(** ** Allocation: a case directory without a number *)

Lemma py_int_raises_value_error (s : string) (e : exn) :
  py_int s = Raise e -> exists msg, e = ValueError msg.
Proof.
  unfold py_int. intros E.
  destruct (scan_digits _ 0 0 false) as [[[n digits] rest]|]; [|inversion E; eauto].
  destruct (4300 <? digits); [inversion E; eauto|].
  destruct ((digits =? 0) || negb (bool_decide (lstrip rest = [])));
    inversion E; eauto.
Qed.

Lemma map_m_lift_raises {A B} (f : A -> result B) (l : list A) (w : world) :
  (exists x e, In x l /\ f x = Raise e) ->
  exists x e, In x l /\ f x = Raise e /\
              map_m (fun x => lift (f x)) l w = (w, Raise e).
Proof.
  induction l as [|y l IH]; intros (x & e & Hin & Hx); [destruct Hin|].
  destruct (f y) as [b|ey] eqn:Hy.
  - destruct Hin as [->|Hin]; [congruence|].
    destruct (IH (ex_intro _ x (ex_intro _ e (conj Hin Hx))))
      as (x' & e' & Hin' & Hx' & Hrun).
    exists x', e'. split; [now right|]. split; [exact Hx'|].
    simpl. unfold bind at 1, lift at 1. rewrite Hy.
    unfold bind. now rewrite Hrun.
  - exists y, ey. split; [now left|]. split; [exact Hy|].
    simpl. unfold bind, lift. now rewrite Hy.
Qed.

(** X3. When some directory of the snapshots folder has a name that starts
    with "Case" but does not go on with an integer, the allocation of a new
    case raises the [ValueError] of [int()], and nothing is created. *)
Theorem create_raises_on_unnumbered_case (w : world) (nm : string) (e : exn) :
  In nm (listdir SNAPSHOTS_DIR (fs_of w)) ->
  is_dir_at (SNAPSHOTS_DIR ++ [nm]) (fs_of w) = true ->
  startswith nm "Case" = true ->
  py_int (drop4 nm) = Raise e ->
  exists msg, create_new_case_folder w = (w, Raise (ValueError msg)).
Proof.
  intros Hin Hd Hs He. unfold create_new_case_folder.
  rewrite (bind_ok _ _ _ _ _ (find_cases_run w)).
  destruct (map_m_lift_raises (fun c => py_int (drop4 (name c)))
              (List.filter
                 (fun f => is_dir_at f (fs_of w) && startswith (name f) "Case")
                 (map (fun nm => SNAPSHOTS_DIR ++ [nm])
                    (listdir SNAPSHOTS_DIR (fs_of w)))) w)
    as (c & e' & _ & Hc & Hrun).
  - exists (SNAPSHOTS_DIR ++ [nm]), e. split.
    + apply find_cases_In. now exists nm.
    + now rewrite name_joinpath.
  - cbv beta in Hrun. rewrite (bind_raise _ _ _ _ _ Hrun).
    destruct (py_int_raises_value_error _ _ Hc) as (msg & ->). now exists msg.
Qed.

Lemma create_raises_on_unnumbered_case_witness :
  let w := World (snapshots_fs [("Case01", Dir []); ("CaseOld", Dir [])]) [] in
  exists msg, create_new_case_folder w = (w, Raise (ValueError msg)).
Proof.
  intros w.
  apply (create_raises_on_unnumbered_case w "CaseOld"
           (ValueError "invalid literal for int() with base 10: 'Old'")).
  - right. left. reflexivity.
  - reflexivity.
  - reflexivity.
  - reflexivity.
Defined.

(** ** Loading the settings and running the model *)

Lemma dict_set_same k v d : dict_get k d = Some v -> dict_set k v d = d.
Proof.
  induction d as [|[k' v'] d IH]; simpl; [discriminate|].
  destruct (String.eqb k k'); intros E.
  - now inversion E.
  - now rewrite IH.
Qed.



Lemma load_settings_inv base_dir w w' settings :
  load_settings base_dir w = (w', Ok settings) ->
  fs_of w' = fs_of w /\
  exists d,
    read_at (base_dir ++ [INPUTS_FOLDER_NAME; SETTINGS_FILENAME]) (fs_of w)
      = Ok (JsonFile (PDict d)) /\
    settings = PDict (dict_set "create_output_files" (PBool false) d).
Proof.
  unfold load_settings, json_load, open_read, log, reads, bind, joinpath. simpl.
  destruct (read_at _ (fs_of w)) as [[v| | |]|e]; try discriminate.
  destruct v; try discriminate. simpl. intros E. inversion E; subst.
  split; [reflexivity|]. now exists d.
Qed.

Section ModelRuns.
Context `{Externals}.

Lemma main_quiet_world d w :
  dict_get "create_output_files" d = Some (PBool false) ->
  fst (main (PDict d) w) = w.
Proof.
  intros Hf. rewrite main_settings_given. unfold bind, lift.
  destruct (py_getitem (PDict d) "a"); [|reflexivity].
  destruct (py_getitem (PDict d) "b"); [|reflexivity].
  destruct (py_sub _ _); [|reflexivity].
  simpl. rewrite Hf. reflexivity.
Qed.

(** X5. In a run of the harness the model never touches the file system
    and opens no file: on the settings [load_settings] returns, [main]
    hands the world back as it got it, whether it returns or raises. *)
Theorem harness_model_run_leaves_world (base_dir : path) (w w0 w1 : world)
  (settings : pyval) (r : result OutputSet) :
  load_settings base_dir w = (w0, Ok settings) ->
  main settings w0 = (w1, r) ->
  w1 = w0.
Proof.
  intros El Em. destruct (load_settings_inv _ _ _ _ El) as (_ & d & _ & ->).
  pose proof (main_quiet_world _ w0 (dict_get_set_eq _ _ d)) as Hq.
  now rewrite Em in Hq.
Qed.

(** X6. What [main] raises on settings it cannot use, in the order it
    meets them: settings that are no mapping give [TypeError]; a missing
    "a" gives [KeyError] "a"; with "a" there, a missing "b" gives [KeyError]
    "b"; with both there, what the subtraction raises ([TypeError] for a
    value that is no number). Nothing is read or written on the way. *)
Theorem main_errors (d : list (string * pyval)) (w : world) :
  (forall v, v <> PNone -> (forall d', v <> PDict d') ->
             main v w = (w, Raise TypeError)) /\
  (dict_get "a" d = None -> main (PDict d) w = (w, Raise (KeyError "a"))) /\
  (forall a, dict_get "a" d = Some a -> dict_get "b" d = None ->
             main (PDict d) w = (w, Raise (KeyError "b"))) /\
  (forall a b e, dict_get "a" d = Some a -> dict_get "b" d = Some b ->
                 py_sub a b = Raise e ->
                 main (PDict d) w = (w, Raise e)).
Proof.
  repeat split.
  - intros v Hn Hd. destruct v; try reflexivity; [now destruct Hn | now destruct (Hd d0)].
  - intros Ha. rewrite main_settings_given. unfold bind, lift, py_getitem.
    now rewrite Ha.
  - intros a Ha Hb. rewrite main_settings_given. unfold bind, lift, py_getitem.
    now rewrite Ha, Hb.
  - intros a b e Ha Hb He. rewrite main_settings_given.
    unfold bind, lift, py_getitem. now rewrite Ha, Hb, He.
Qed.

End ModelRuns.

Lemma harness_model_run_leaves_world_witness :
  let settings :=
    PDict [("a", PInt 10); ("b", PInt 3); ("create_output_files", PBool false)] in
  let w0 := World (project_fs []) [Read ["Inputs"; "settings.json"]] in
  fst (main (H := plain_externals) settings w0) = w0.
Proof.
  intros settings w0.
  apply (harness_model_run_leaves_world (H := plain_externals) []
           (World (project_fs []) []) w0
           (fst (main (H := plain_externals) settings w0)) settings
           (snd (main (H := plain_externals) settings w0))).
  - reflexivity.
  - apply surjective_pairing.
Defined.

Lemma main_errors_witness :
  main (H := plain_externals) (PDict [("b", PInt 3)]) (World (Dir []) [])
    = (World (Dir []) [], Raise (KeyError "a")) /\
  main (H := plain_externals) (PDict [("a", PStr "ten"); ("b", PInt 3)])
    (World (Dir []) [])
    = (World (Dir []) [], Raise TypeError).
Proof.
  split.
  - apply (proj1 (proj2 (main_errors (H := plain_externals)
                           [("b", PInt 3)] (World (Dir []) [])))).
    reflexivity.
  - apply (proj2 (proj2 (proj2 (main_errors (H := plain_externals)
                                  [("a", PStr "ten"); ("b", PInt 3)]
                                  (World (Dir []) []))))
             (PStr "ten") (PInt 3)); reflexivity.
Defined.

(** ** Settings written and read back *)

(** X7. Settings that [export_settings] has written into a case are the
    settings [load_settings] returns for that case afterwards, when they
    carry create_output_files = [False] as every loaded mapping does: the
    case is later run on the settings it was created with. *)
Theorem export_then_load_settings (case_dir : path) (d : list (string * pyval))
  (w w1 : world) :
  dict_get "create_output_files" d = Some (PBool false) ->
  export_settings case_dir (PDict d) w = (w1, Ok tt) ->
  load_settings case_dir w1 =
    (World (fs_of w1)
       (trace_of w1 ++ [Read (case_dir ++ [INPUTS_FOLDER_NAME; SETTINGS_FILENAME])]),
     Ok (PDict d)).
Proof.
  intros Hf E. pose proof (export_settings_result _ _ _ _ E) as Hl.
  rewrite (load_settings_dict case_dir d).
  - now rewrite (dict_set_same _ _ _ Hf).
  - apply read_at_ok_lookup.
    change (case_dir ++ [INPUTS_FOLDER_NAME; SETTINGS_FILENAME])
      with (case_dir ++ [INPUTS_FOLDER_NAME] ++ [SETTINGS_FILENAME]).
    rewrite app_assoc, lookup_node_app, Hl. reflexivity.
Qed.

Lemma export_then_load_settings_witness :
  let d := [("a", PInt 10); ("b", PInt 3); ("create_output_files", PBool false)] in
  let w1 := fst (export_settings Case01 (PDict d)
                   (World (project_fs [("Case01", Dir [])]) [])) in
  load_settings Case01 w1 =
    (World (fs_of w1) (trace_of w1 ++ [Read (Case01 ++ ["Inputs"; "settings.json"])]),
     Ok (PDict d)).
Proof.
  intros d w1.
  apply (export_then_load_settings Case01 d
           (World (project_fs [("Case01", Dir [])]) []) w1).
  - reflexivity.
  - vm_compute. reflexivity.
Defined.

(** ** A plain file where a folder is to go *)

Lemma mkdir_at_file p n c :
  lookup_node p n = Some (File c) -> mkdir_at p n = Raise FileExistsError.
Proof.
  revert n. induction p as [|x p IH]; intros n Hl; simpl in Hl.
  - inversion Hl. reflexivity.
  - destruct n as [c0|es]; [discriminate|]. simpl.
    destruct (entry_get x es) as [ch|]; [|discriminate]. simpl.
    now rewrite (IH _ Hl).
Qed.

Section FileInTheWay.
Context `{Externals}.

(** X8. When a plain file stands where the outputs folder, or the Inputs
    folder of a case, is to be written, [export_outputs] and
    [export_settings] raise [FileExistsError]; the file is neither removed
    nor overwritten, the file system is as it was. *)
Theorem export_refuses_plain_file (w : world) (c0 : content) :
  (forall outputs_dir output_set,
     lookup_node outputs_dir (fs_of w) = Some (File c0) ->
     export_outputs outputs_dir output_set w = (w, Raise FileExistsError)) /\
  (forall case_dir settings,
     lookup_node (case_dir ++ [INPUTS_FOLDER_NAME]) (fs_of w) = Some (File c0) ->
     export_settings case_dir settings w = (w, Raise FileExistsError)).
Proof.
  split.
  - intros d os Hl. unfold export_outputs, bind, is_dir, reads, is_dir_at, mkdir, updates.
    rewrite Hl. simpl. now rewrite (mkdir_at_file _ _ _ Hl).
  - intros c s Hl.
    unfold export_settings, joinpath, bind, is_dir, reads, is_dir_at, mkdir, updates.
    rewrite Hl. simpl. now rewrite (mkdir_at_file _ _ _ Hl).
Qed.

End FileInTheWay.

Lemma export_refuses_plain_file_witness :
  let w := World (Dir [("Case01", Dir [("Inputs", File (RawFile "notes"))])]) [] in
  export_settings ["Case01"] settings_10_3 w = (w, Raise FileExistsError).
Proof.
  intros w.
  apply (proj2 (export_refuses_plain_file (H := plain_externals) w (RawFile "notes"))).
  reflexivity.
Defined.

(** ** Edges of the comparison *)

Section CompareEdges.
Context `{Externals}.

(** X9. A case whose expected folder is missing, is empty, or is a plain
    file passes the comparison at once: nothing is opened and nothing is
    compared, whatever the output folder holds. *)
Theorem compare_outputs_nothing_expected (exp out : path) (w : world) :
  lookup_node exp (fs_of w) = None \/
  lookup_node exp (fs_of w) = Some (Dir []) \/
  (exists c, lookup_node exp (fs_of w) = Some (File c)) ->
  compare_outputs exp out w = (w, Ok tt).
Proof.
  intros Hl. rewrite compare_outputs_flat. unfold files_below, os_walk.
  destruct Hl as [-> | [-> | [c ->]]]; reflexivity.
Qed.

(** X10. For an expected csv, json or npz file, the output file is opened
    first: when it cannot be opened (it is missing, say), [assert_file]
    raises what [open] raises, [FileNotFoundError] and no assertion error,
    without opening the expected file and without comparing. *)
Theorem assert_file_output_unreadable (out exp : path) (w : world) (e : exn) :
  suffix exp = ".csv" \/ suffix exp = ".json" \/ suffix exp = ".npz" ->
  read_at out (fs_of w) = Raise e ->
  assert_file out exp w
    = (World (fs_of w) (trace_of w ++ [Read out]), Raise e).
Proof.
  intros Hs Hr.
  unfold assert_file, assert_csv, assert_json, assert_npz, pd_read_csv, json_load,
    np_load, open_read, log, reads, bind.
  destruct Hs as [-> | [-> | ->]]; simpl; now rewrite Hr.
Qed.

End CompareEdges.

Lemma compare_outputs_nothing_expected_witness :
  let w := World (project_fs [("Case01", Dir [("TempOutputs",
                                                Dir [("df.csv", File (csv_total "7"))])])]) [] in
  compare_outputs (H := plain_externals)
    (Case01 ++ ["ExpectedOutputs"]) (Case01 ++ ["TempOutputs"]) w = (w, Ok tt).
Proof.
  intros w.
  apply (compare_outputs_nothing_expected (H := plain_externals)).
  left. reflexivity.
Defined.

Lemma assert_file_output_unreadable_witness :
  assert_file (H := plain_externals) ["out"; "df.csv"] ["exp"; "df.csv"]
    (World (Dir [("exp", Dir [("df.csv", File (csv_total "7"))])]) [])
  = (World (Dir [("exp", Dir [("df.csv", File (csv_total "7"))])])
       [Read ["out"; "df.csv"]],
     Raise FileNotFoundError).
Proof.
  apply (assert_file_output_unreadable (H := plain_externals)
           ["out"; "df.csv"] ["exp"; "df.csv"]
           (World (Dir [("exp", Dir [("df.csv", File (csv_total "7"))])]) [])
           FileNotFoundError).
  - left. reflexivity.
  - reflexivity.
Defined.

(** ** What [export_outputs] leaves in the folder *)

Section ExportedFolder.
Context `{Externals}.

Lemma export_outputs_fresh d output_set w w' :
  export_outputs d output_set w = (w', Ok tt) ->
  exists fs2,
    lookup_node d fs2 = Some (Dir []) /\
    for_each (output_items output_set)
      (fun item =>
         if negb (String.eqb (extension item) "html")
         then export_to_file item (Some d)
         else ret tt) (World fs2 (trace_of w)) = (w', Ok tt).
Proof.
  unfold export_outputs. intros E.
  apply bind_inv_ok in E as (w1 & b & Eb & E).
  unfold is_dir, reads in Eb. inversion Eb; subst w1 b; clear Eb.
  apply bind_inv_ok in E as (w1 & [] & Er & E).
  apply bind_inv_ok in E as (w2 & [] & Em & E).
  apply updates_inv_ok in Em as (fs2 & Em & ->).
  assert (Hw1 : is_dir_at d (fs_of w1) = false /\ trace_of w1 = trace_of w).
  { destruct (is_dir_at d (fs_of w)) eqn:Hd.
    - apply updates_inv_ok in Er as (fs1 & Er & ->). simpl.
      unfold is_dir_at. now rewrite (rmtree_at_gone _ _ _ Er).
    - inversion Er; subst. now split. }
  destruct Hw1 as [Hfresh Ht]. exists fs2. rewrite <- Ht.
  split; [exact (mkdir_at_fresh _ _ _ (or_introl Hfresh) Em) | exact E].
Qed.

Lemma export_items_listing d items : forall es w w',
  lookup_node d (fs_of w) = Some (Dir es) ->
  for_each items
    (fun item =>
       if negb (String.eqb (extension item) "html")
       then export_to_file item (Some d)
       else ret tt) w = (w', Ok tt) ->
  lookup_node d (fs_of w') = Some (Dir (exported_entries items es)).
Proof.
  induction items as [|item items IH]; intros es w w' Hl E; simpl in E.
  - inversion E; subst. exact Hl.
  - apply bind_inv_ok in E as (w1 & [] & E1 & E).
    unfold exported_entries. simpl. apply (IH _ w1 w'); [|exact E].
    destruct (negb (String.eqb (extension item) "html")).
    + assert (Hd : is_dir_at d (fs_of w) = true) by (unfold is_dir_at; now rewrite Hl).
      apply (export_to_file_in_dir _ _ _ _ Hd) in E1 as (fs2 & E1 & ->). simpl.
      exact (write_at_parent _ _ _ _ _ _ Hl E1).
    + inversion E1; subst. exact Hl.
Qed.

Lemma exported_entries_from items : forall es nm n,
  entry_get nm (exported_entries items es) = Some n ->
  entry_get nm es = Some n \/
  exists item,
    In item items /\ String.eqb (extension item) "html" = false /\
    nm = item_file_name item /\ n = File (item_content item).
Proof.
  induction items as [|item items IH]; intros es nm n Hg; [now left|].
  unfold exported_entries in Hg. simpl in Hg.
  apply IH in Hg as [Hg | (it & Hin & Hx & Hn & Hc)].
  - destruct (String.eqb (extension item) "html") eqn:Hx; simpl in Hg; [now left|].
    destruct (String.eqb_spec (item_file_name item) nm) as [<-|Hne].
    + rewrite entry_get_set_eq in Hg. inversion Hg. right. exists item.
      repeat split; [now left | exact Hx].
    + rewrite entry_get_set_ne in Hg by assumption. now left.
  - right. exists it. repeat split; try assumption. now right.
Qed.

Lemma exported_entries_has items : forall es item,
  In item items -> String.eqb (extension item) "html" = false ->
  exists c, entry_get (item_file_name item) (exported_entries items es)
            = Some (File c).
Proof.
  assert (Hkeep : forall its es nm c,
            entry_get nm es = Some (File c) ->
            exists c', entry_get nm (exported_entries its es) = Some (File c')).
  { induction its as [|it its IH]; intros es nm c Hg; [now exists c|].
    unfold exported_entries. simpl.
    destruct (negb (String.eqb (extension it) "html")); [|now apply (IH _ _ c)].
    destruct (String.eqb_spec (item_file_name it) nm) as [<-|Hne].
    - apply (IH _ _ (item_content it)). apply entry_get_set_eq.
    - apply (IH _ _ c). now rewrite entry_get_set_ne. }
  induction items as [|it items IH]; intros es item Hin Hx; [destruct Hin|].
  unfold exported_entries. simpl. destruct Hin as [->|Hin].
  - rewrite Hx. simpl. apply (Hkeep _ _ _ (item_content item)).
    apply entry_get_set_eq.
  - now apply IH.
Qed.

(** X11. After [export_outputs] has run through, the output folder lists
    the files of the output items that are not html, and nothing else:
    whatever the folder held before is gone, every entry is the file of
    such an item, and every such item has its file. *)
Theorem export_outputs_folder_content (outputs_dir : path) (output_set : OutputSet)
  (w w' : world) :
  export_outputs outputs_dir output_set w = (w', Ok tt) ->
  exists es,
    lookup_node outputs_dir (fs_of w') = Some (Dir es) /\
    es = exported_entries (output_items output_set) [] /\
    (forall nm n,
       entry_get nm es = Some n ->
       exists item,
         In item (output_items output_set) /\ extension item <> "html" /\
         nm = item_file_name item /\ n = File (item_content item)) /\
    (forall item,
       In item (output_items output_set) -> extension item <> "html" ->
       exists c, entry_get (item_file_name item) es = Some (File c)).
Proof.
  intros E. destruct (export_outputs_fresh _ _ _ _ E) as (fs2 & Hl & El).
  exists (exported_entries (output_items output_set) []).
  split; [exact (export_items_listing _ _ _ (World fs2 (trace_of w)) _ Hl El)|].
  split; [reflexivity|]. split.
  - intros nm n Hg. apply exported_entries_from in Hg as [Hg | (it & Hin & Hx & Hn & Hc)];
      [discriminate Hg|].
    exists it. repeat split; try assumption.
    intros Hext. rewrite Hext in Hx. discriminate Hx.
  - intros item Hin Hx. apply exported_entries_has; [exact Hin|].
    now apply String.eqb_neq.
Qed.

End ExportedFolder.

Lemma export_outputs_folder_content_witness :
  let stale := World (Dir [("out", Dir [("old.csv", File (csv_total "1"))])]) [] in
  let items :=
    {| output_items :=
         [{| data := JsonData (PInt 1); filename := "numbers"; extension := "json" |};
          {| data := HtmlData "<p>"; filename := "report"; extension := "html" |}] |} in
  exists es,
    lookup_node ["out"]
      (fs_of (fst (export_outputs (H := plain_externals) ["out"] items stale)))
      = Some (Dir es) /\
    es = [("numbers.json", File (JsonFile (PInt 1)))].
Proof.
  intros stale items.
  destruct (export_outputs_folder_content (H := plain_externals) ["out"] items stale
              (fst (export_outputs (H := plain_externals) ["out"] items stale)))
    as (es & Hl & Hes & _).
  - vm_compute. reflexivity.
  - exists es. split; [exact Hl | rewrite Hes; reflexivity].
Defined.

(** ** Each mode keeps to its folder *)

Lemma diverges_below q p r : diverges q p -> diverges q (p ++ r).
Proof.
  intros (c & x & y & r0 & q' & -> & -> & Hne).
  exists c, x, y, (r0 ++ r), q'. repeat split; [|exact Hne].
  now rewrite <- app_assoc.
Qed.

Lemma confined_keeps p {A} (m : M A) : keeps_fs m -> confined p m.
Proof. intros Hk w w' r q E _. specialize (Hk w). rewrite E in Hk. simpl in Hk. now rewrite Hk. Qed.

Lemma confined_weaken p p' {A} (m : M A) :
  (forall q, diverges q p' -> diverges q p) -> confined p m -> confined p' m.
Proof. intros Hd Hm w w' r q E Hq. exact (Hm _ _ _ _ E (Hd _ Hq)). Qed.

Lemma confined_bind p {A B} (m : M A) (k : A -> M B) :
  confined p m -> (forall a, confined p (k a)) -> confined p (bind m k).
Proof.
  intros Hm Hk w w' r q E Hq. unfold bind in E.
  destruct (m w) as [w1 [a|e]] eqn:Em.
  - rewrite (Hk a _ _ _ _ E Hq). exact (Hm _ _ _ _ Em Hq).
  - inversion E; subst. exact (Hm _ _ _ _ Em Hq).
Qed.

Lemma confined_for_each p {A} (l : list A) (body : A -> M unit) :
  (forall x, confined p (body x)) -> confined p (for_each l body).
Proof.
  intros Hb. induction l as [|x l IH]; simpl.
  - apply confined_keeps, keeps_ret.
  - apply confined_bind; [apply Hb | intros _; exact IH].
Qed.

Lemma confined_updates p r (op : path -> node -> result node) :
  (forall c x r0 y q n n',
     op (c ++ x :: r0) n = Ok n' -> x <> y ->
     lookup_node (c ++ y :: q) n' = lookup_node (c ++ y :: q) n) ->
  confined p (updates (op (p ++ r))).
Proof.
  intros Hop w w' res q E (c & x & y & r0 & q' & -> & -> & Hne).
  unfold updates in E. rewrite <- app_assoc in E. simpl in E.
  destruct (op (c ++ x :: r0 ++ r) (fs_of w)) as [fs'|e] eqn:Eo;
    inversion E; subst; [|reflexivity].
  simpl. exact (Hop _ _ _ _ _ _ _ Eo Hne).
Qed.

Lemma confined_mkdir p r : confined p (mkdir (p ++ r)).
Proof. apply (confined_updates p r mkdir_at). apply mkdir_at_sibling. Qed.

Lemma confined_rmtree p r : confined p (rmtree (p ++ r)).
Proof. apply (confined_updates p r rmtree_at). apply rmtree_at_sibling. Qed.

Lemma confined_open_write p r c : confined p (open_write (p ++ r) c).
Proof.
  apply (confined_updates p r (fun q => write_at q c)).
  intros c0 x r0 y q n n'. apply write_at_sibling.
Qed.

Lemma keeps_load_settings base_dir : keeps_fs (load_settings base_dir).
Proof.
  unfold load_settings, json_load, open_read. repeat keeps_step.
Qed.

Lemma confined_export_settings case_dir settings :
  confined (case_dir ++ [INPUTS_FOLDER_NAME]) (export_settings case_dir settings).
Proof.
  unfold export_settings, json_dump, joinpath.
  apply confined_bind; [apply confined_keeps, keeps_reads|]. intros b.
  apply confined_bind.
  { destruct b; [|apply confined_keeps, keeps_ret].
    rewrite <- (app_nil_r (case_dir ++ [INPUTS_FOLDER_NAME])) at 2.
    apply confined_rmtree. }
  intros _. apply confined_bind.
  { rewrite <- (app_nil_r (case_dir ++ [INPUTS_FOLDER_NAME])) at 2.
    apply confined_mkdir. }
  intros _. apply confined_open_write.
Qed.

Section Confinement.
Context `{Externals}.

Lemma confined_export_to_file d item : confined d (export_to_file item (Some d)).
Proof.
  unfold export_to_file, joinpath. simpl. apply confined_bind.
  { rewrite <- (app_nil_r d) at 2. apply confined_mkdir. }
  intros _.
  repeat match goal with
         | |- confined _ (if ?b then _ else _) => destruct b
         end;
    try destruct (data item);
    first [apply confined_open_write | apply confined_keeps, keeps_raise].
Qed.

Lemma confined_export_outputs d output_set : confined d (export_outputs d output_set).
Proof.
  unfold export_outputs.
  apply confined_bind; [apply confined_keeps, keeps_reads|]. intros b.
  apply confined_bind.
  { destruct b; [|apply confined_keeps, keeps_ret].
    rewrite <- (app_nil_r d) at 2. apply confined_rmtree. }
  intros _. apply confined_bind.
  { rewrite <- (app_nil_r d) at 2. apply confined_mkdir. }
  intros _. apply confined_for_each. intros item.
  destruct (negb (String.eqb (extension item) "html"));
    [|apply confined_keeps, keeps_ret].
  apply confined_export_to_file.
Qed.

(** Loading the settings and running the model change nothing; what
    follows decides where the case is written. *)
Lemma case_run_confined p base_dir (rest : pyval -> OutputSet -> M unit) :
  (forall settings output_set, confined p (rest settings output_set)) ->
  confined p (settings <- load_settings base_dir ;;
              output_set <- main settings ;;
              rest settings output_set).
Proof.
  intros Hrest w w' r q E Hq. unfold bind in E.
  pose proof (keeps_load_settings base_dir w) as Hk.
  destruct (load_settings base_dir w) as [w0 [settings|e]] eqn:El; simpl in Hk.
  - destruct (load_settings_inv _ _ _ _ El) as (_ & d & _ & ->).
    pose proof (main_quiet_world _ w0 (dict_get_set_eq _ _ d)) as Hm.
    destruct (main _ w0) as [w1 [output_set|e]]; simpl in Hm; subst w1.
    + rewrite (Hrest _ _ _ _ _ _ E Hq). now rewrite Hk.
    + inversion E; subst. now rewrite Hk.
  - inversion E; subst. now rewrite Hk.
Qed.

Lemma modes_keep_to_their_folder_gen (case_dir : path) (w w' : world)
  (r : result unit) (q : path) :
  (test_snapshots_case "compare" case_dir w = (w', r) ->
   diverges q (case_dir ++ [OUTPUTS_FOLDER_NAME]) ->
   lookup_node q (fs_of w') = lookup_node q (fs_of w)) /\
  (test_snapshots_case "update" case_dir w = (w', r) ->
   diverges q (case_dir ++ [EXPECTED_OUTPUTS_FOLDER]) ->
   lookup_node q (fs_of w') = lookup_node q (fs_of w)) /\
  (test_snapshots_case "create" case_dir w = (w', r) ->
   diverges q case_dir ->
   lookup_node q (fs_of w') = lookup_node q (fs_of w)).
Proof.
  split; [|split]; intros E Hq.
  - refine (case_run_confined (case_dir ++ [OUTPUTS_FOLDER_NAME]) case_dir
              (fun _ output_set =>
                 ret tt ;;
                 export_outputs (case_dir ++ [OUTPUTS_FOLDER_NAME]) output_set ;;
                 compare_outputs (case_dir ++ [EXPECTED_OUTPUTS_FOLDER])
                   (case_dir ++ [OUTPUTS_FOLDER_NAME]) ;;
                 rmtree (case_dir ++ [OUTPUTS_FOLDER_NAME])) _ w w' r q E Hq).
    intros _ output_set.
    apply confined_bind; [apply confined_keeps, keeps_ret|]. intros _.
    apply confined_bind; [apply confined_export_outputs|]. intros _.
    apply confined_bind; [apply confined_keeps, keeps_compare_outputs|]. intros _.
    rewrite <- (app_nil_r (case_dir ++ [OUTPUTS_FOLDER_NAME])) at 2.
    apply confined_rmtree.
  - refine (case_run_confined (case_dir ++ [EXPECTED_OUTPUTS_FOLDER]) case_dir
              (fun _ output_set =>
                 ret tt ;;
                 export_outputs (case_dir ++ [EXPECTED_OUTPUTS_FOLDER]) output_set)
              _ w w' r q E Hq).
    intros _ output_set.
    apply confined_bind; [apply confined_keeps, keeps_ret|]. intros _.
    apply confined_export_outputs.
  - refine (case_run_confined case_dir PROJECT_BASE_DIR
              (fun settings output_set =>
                 (export_settings case_dir settings ;;
                  export_outputs (case_dir ++ [EXPECTED_OUTPUTS_FOLDER]) output_set) ;;
                 ret tt) _ w w' r q E Hq).
    intros settings output_set.
    apply confined_bind; [|intros _; apply confined_keeps, keeps_ret].
    apply confined_bind.
    + apply (confined_weaken (case_dir ++ [INPUTS_FOLDER_NAME]));
        [intros q0; apply diverges_below | apply confined_export_settings].
    + intros _. apply (confined_weaken (case_dir ++ [EXPECTED_OUTPUTS_FOLDER]));
        [intros q0; apply diverges_below | apply confined_export_outputs].
Qed.

(** X12. Whatever its outcome, the run of a case in compare mode changes
    nothing outside the TempOutputs folder of the case, in update mode
    nothing outside its ExpectedOutputs folder, and in create mode nothing
    outside the case directory: every path that parts ways with that
    folder leads to what it led to before. In particular compare mode
    leaves the golden files and the inputs alone. *)
Theorem modes_keep_to_their_folder (case_dir : path) (w w' : world)
  (r : result unit) (q : path) :
  (test_snapshots_case "compare" case_dir w = (w', r) ->
   diverges q (case_dir ++ [OUTPUTS_FOLDER_NAME]) ->
   lookup_node q (fs_of w') = lookup_node q (fs_of w)) /\
  (test_snapshots_case "update" case_dir w = (w', r) ->
   diverges q (case_dir ++ [EXPECTED_OUTPUTS_FOLDER]) ->
   lookup_node q (fs_of w') = lookup_node q (fs_of w)) /\
  (test_snapshots_case "create" case_dir w = (w', r) ->
   diverges q case_dir ->
   lookup_node q (fs_of w') = lookup_node q (fs_of w)).
Proof. apply modes_keep_to_their_folder_gen. Qed.

End Confinement.

Lemma modes_keep_to_their_folder_witness :
  let w :=
    World (project_fs [("Case01", case_node [("df.csv", File (csv_total "8"))])]) [] in
  let w' := fst (test_snapshots_case (H := plain_externals) "compare" Case01 w) in
  snd (test_snapshots_case (H := plain_externals) "compare" Case01 w)
    = Raise AssertionError /\
  lookup_node (Case01 ++ ["ExpectedOutputs"]) (fs_of w')
    = lookup_node (Case01 ++ ["ExpectedOutputs"]) (fs_of w).
Proof.
  intros w w'. split; [vm_compute; reflexivity|].
  apply (proj1 (modes_keep_to_their_folder (H := plain_externals) Case01 w w'
                  (Raise AssertionError) (Case01 ++ ["ExpectedOutputs"]))).
  - vm_compute. reflexivity.
  - exists Case01, OUTPUTS_FOLDER_NAME, EXPECTED_OUTPUTS_FOLDER, [], [].
    repeat split. discriminate.
Defined.

(** ** Update mode *)

Section UpdateMode.
Context `{Externals}.

Lemma main_inv d w w' output_set :
  dict_get "create_output_files" d = Some (PBool false) ->
  main (PDict d) w = (w', Ok output_set) ->
  exists a b v,
    dict_get "a" d = Some a /\ dict_get "b" d = Some b /\ py_sub a b = Ok v /\
    output_set = total_output_set v /\ w' = w.
Proof.
  intros Hf. rewrite main_settings_given. unfold bind, lift, py_getitem.
  destruct (dict_get "a" d) as [a|]; [|discriminate].
  destruct (dict_get "b" d) as [b|]; [|discriminate].
  destruct (py_sub a b) as [v|e] eqn:Hv; [|discriminate].
  rewrite Hf. simpl. intros E. inversion E; subst.
  exists a, b, v. repeat split. exact Hv.
Qed.

(** X13. When update mode runs through on a case, the case's settings file
    holds a mapping with values a and b whose difference is defined, and
    the ExpectedOutputs folder of the case then holds the file df.csv with
    that difference and nothing else: stale golden files are gone. *)
Theorem update_case_rewrites_expected (case_dir : path) (w w' : world) :
  test_snapshots_case "update" case_dir w = (w', Ok tt) ->
  exists d a b v,
    read_at (case_dir ++ [INPUTS_FOLDER_NAME; SETTINGS_FILENAME]) (fs_of w)
      = Ok (JsonFile (PDict d)) /\
    dict_get "a" d = Some a /\ dict_get "b" d = Some b /\ py_sub a b = Ok v /\
    lookup_node (case_dir ++ [EXPECTED_OUTPUTS_FOLDER]) (fs_of w')
      = Some (Dir [("df.csv",
                    File (CsvFile (to_csv {| df_index := [PInt 0];
                                             df_columns := [("total", [v])] |})))]).
Proof.
  intros E.
  change (test_snapshots_case "update" case_dir w)
    with ((settings <- load_settings case_dir ;;
           output_set <- main settings ;;
           ret tt ;;
           export_outputs (case_dir ++ [EXPECTED_OUTPUTS_FOLDER]) output_set) w) in E.
  apply bind_inv_ok in E as (w0 & settings & El & E).
  apply bind_inv_ok in E as (w1 & output_set & Em & E).
  apply bind_inv_ok in E as (w2 & [] & Er & E). inversion Er; subst w2; clear Er.
  destruct (load_settings_inv _ _ _ _ El) as (_ & d & Hr & ->).
  destruct (main_inv _ _ _ _ (dict_get_set_eq _ _ d) Em)
    as (a & b & v & Ha & Hb & Hv & -> & ->).
  rewrite dict_get_set_ne in Ha by discriminate.
  rewrite dict_get_set_ne in Hb by discriminate.
  exists d, a, b, v. repeat split; try assumption.
  destruct (export_outputs_fresh _ _ _ _ E) as (fs2 & Hl & Eloop).
  exact (export_items_listing _ _ _ (World fs2 (trace_of w0)) _ Hl Eloop).
Qed.

(** X14. In compare and in update mode the cases are run in the order of
    discovery and the first error ends the run: when the first case found
    raises, the run raises the same, and the directories of the other
    cases are as they were. *)
Theorem first_failing_case_ends_run (run_type : string) (case_dir : path)
  (others : list path) (w w' : world) (e : exn) :
  run_type = "compare" \/ run_type = "update" ->
  find_cases w = (w, Ok (case_dir :: others)) ->
  test_snapshots_case run_type case_dir w = (w', Raise e) ->
  test_snapshots run_type w = (w', Raise e) /\
  forall other below,
    In other others -> other <> case_dir ->
    lookup_node (other ++ below) (fs_of w')
      = lookup_node (other ++ below) (fs_of w).
Proof.
  intros Hrt Hfind Hcase. split.
  - unfold test_snapshots.
    destruct Hrt as [-> | ->]; cbn [existsb negb String.eqb Ascii.eqb Bool.eqb orb];
      cbv iota; rewrite (bind_ok _ _ _ _ _ Hfind); now apply for_each_raise.
  - intros other below Hin Hne.
    rewrite find_cases_run in Hfind. inversion Hfind as [Hlist].
    assert (Hc : In case_dir (case_dir :: others)) by now left.
    assert (Ho : In other (case_dir :: others)) by now right.
    rewrite <- Hlist in Hc, Ho.
    apply find_cases_In in Hc as (nm & -> & _).
    apply find_cases_In in Ho as (nm' & -> & _).
    assert (Hd : forall folder,
              diverges ((SNAPSHOTS_DIR ++ [nm']) ++ below)
                ((SNAPSHOTS_DIR ++ [nm]) ++ [folder])).
    { intros folder. exists SNAPSHOTS_DIR, nm, nm', [folder], below.
      rewrite <- !app_assoc. repeat split. congruence. }
    destruct Hrt as [-> | ->].
    + exact (proj1 (modes_keep_to_their_folder_gen _ _ _ _ _) Hcase (Hd _)).
    + exact (proj1 (proj2 (modes_keep_to_their_folder_gen _ _ _ _ _)) Hcase (Hd _)).
Qed.

End UpdateMode.

(** ** No golden file is passed over *)

Lemma entry_get_In x es ch : entry_get x es = Some ch -> In (x, ch) es.
Proof.
  induction es as [|[y m] es IH]; simpl; [discriminate|].
  destruct (String.eqb_spec x y) as [->|Hne]; intros E.
  - inversion E. now left.
  - right. now apply IH.
Qed.

(** [os.walk] meets every file that can be read below its top. *)
Lemma walk_node_complete n : forall base rel c,
  rel <> [] -> read_at rel n = Ok c ->
  exists b ds fnames f,
    In (b, ds, fnames) (walk_node base n) /\ In f fnames /\ b ++ [f] = base ++ rel.
Proof.
  induction n as [c0|es IH] using node_tree_ind; intros base rel c Hrel Hr.
  - destruct rel; [congruence | discriminate Hr].
  - destruct rel as [|x r]; [congruence|]. simpl in Hr.
    destruct (entry_get x es) as [ch|] eqn:Hx; [|discriminate].
    pose proof (entry_get_In _ _ _ Hx) as Hin.
    destruct r as [|y r].
    + destruct ch as [c1|es1]; [|discriminate Hr].
      exists base, (map fst (List.filter (fun e => is_dir_node (snd e)) es)),
        (map fst (List.filter (fun e => negb (is_dir_node (snd e))) es)), x.
      split; [now left|]. split; [|reflexivity].
      apply in_map_iff. exists (x, File c1). split; [reflexivity|].
      apply filter_In. now split.
    + rewrite List.Forall_forall in IH.
      destruct (IH (x, ch) Hin (base ++ [x]) (y :: r) c ltac:(discriminate) Hr)
        as (b & ds & fnames & f & Hw & Hf & Hb).
      exists b, ds, fnames, f. split; [|split; [exact Hf|]].
      * right. clear -Hin Hw. induction es as [|[z m] es IHes]; [destruct Hin|].
        apply in_or_app. destruct Hin as [E|Hin].
        -- inversion E; subst. now left.
        -- right. now apply IHes.
      * rewrite Hb, <- app_assoc. reflexivity.
Qed.

Lemma files_below_complete top rel c fs :
  rel <> [] -> read_at (top ++ rel) fs = Ok c -> In rel (files_below top fs).
Proof.
  intros Hrel Hr. unfold files_below, os_walk.
  destruct (lookup_node top fs) as [n|] eqn:Hl.
  - assert (Hn : read_at rel n = Ok c).
    { revert fs Hl Hr. induction top as [|x top IH]; intros fs Hl Hr; simpl in *.
      - now inversion Hl; subst.
      - destruct fs as [c0|es]; [discriminate|].
        destruct (entry_get x es); [now apply (IH n0) | discriminate]. }
    destruct (walk_node_complete n top rel c Hrel Hn)
      as (b & ds & fnames & f & Hw & Hf & Hb).
    apply in_flat_map. exists (b, ds, fnames). split; [exact Hw|].
    apply in_map_iff. exists f. split; [|exact Hf].
    now rewrite Hb, drop_app_length.
  - exfalso. revert fs Hl Hr. induction top as [|x top IH]; intros fs Hl Hr; simpl in *.
    + discriminate.
    + destruct fs as [c0|es]; [discriminate|].
      destruct (entry_get x es); [now apply (IH n) | discriminate].
Qed.

Lemma grows_pure {A} (m : M A) : (forall w, fst (m w) = w) -> grows m.
Proof. intros Hm w w' r e E Hin. specialize (Hm w). rewrite E in Hm. simpl in Hm. now subst. Qed.

Lemma grows_log ev : grows (log ev).
Proof.
  intros w w' r e E Hin. unfold log in E. inversion E; subst. simpl.
  apply in_or_app. now left.
Qed.

Lemma grows_bind {A B} (m : M A) (k : A -> M B) :
  grows m -> (forall a, grows (k a)) -> grows (bind m k).
Proof.
  intros Hm Hk w w' r e E Hin. unfold bind in E.
  destruct (m w) as [w1 [a|ex]] eqn:Em.
  - exact (Hk a _ _ _ _ E (Hm _ _ _ _ Em Hin)).
  - inversion E; subst. exact (Hm _ _ _ _ Em Hin).
Qed.

Lemma grows_for_each {A} (l : list A) (body : A -> M unit) :
  (forall x, grows (body x)) -> grows (for_each l body).
Proof.
  intros Hb. induction l as [|x l IH]; simpl.
  - apply grows_pure. reflexivity.
  - apply grows_bind; [apply Hb | intros _; exact IH].
Qed.

Ltac grows_step :=
  match goal with
  | |- grows (bind _ _) => apply grows_bind; [|intros ?]
  | |- grows (for_each _ _) => apply grows_for_each; intros ?
  | |- grows (log _) => apply grows_log
  | |- grows (if ?b then _ else _) => destruct b
  | |- grows (match ?c with _ => _ end) => destruct c
  | |- grows _ => apply grows_pure; reflexivity
  end.

Section Completeness.
Context `{Externals}.

Lemma grows_assert_file out exp : grows (assert_file out exp).
Proof.
  unfold assert_file, assert_csv, assert_json, assert_npz, pd_read_csv, json_load,
    np_load, pd_assert_frame_equal, np_assert_allclose, open_read.
  repeat grows_step.
Qed.

(** A reader that returns has opened its file, and the file was there. *)
Lemma reader_opens {A} (parse : content -> M A) p w w' a :
  (forall c, grows (parse c)) ->
  (c <- open_read p ;; parse c) w = (w', Ok a) ->
  In (Read p) (trace_of w') /\ exists c, read_at p (fs_of w) = Ok c.
Proof.
  intros Hp E. apply bind_inv_ok in E as (w1 & c & Eo & E).
  unfold open_read, log, reads, bind in Eo. simpl in Eo. inversion Eo; subst.
  split; [|now exists c].
  apply (Hp c _ _ _ _ E). simpl. apply in_or_app. right. now left.
Qed.

Lemma assert_file_opens out exp w w' :
  assert_file out exp w = (w', Ok tt) ->
  suffix exp <> ".html" ->
  In (Read out) (trace_of w') /\ In (Read exp) (trace_of w') /\
  exists c, read_at out (fs_of w) = Ok c.
Proof.
  intros E Hh.
  assert (Hgen : forall {A} (parse : content -> M A) (rest : A -> A -> M unit),
            (forall c, grows (parse c)) -> (forall a b, grows (rest a b)) ->
            (data <- (c <- open_read out ;; parse c) ;;
             expected_data <- (c <- open_read exp ;; parse c) ;;
             rest data expected_data) w = (w', Ok tt) ->
            In (Read out) (trace_of w') /\ In (Read exp) (trace_of w') /\
            exists c, read_at out (fs_of w) = Ok c).
  { intros A parse rest Hp Hr E0.
    apply bind_inv_ok in E0 as (w1 & a & E1 & E0).
    apply bind_inv_ok in E0 as (w2 & b & E2 & E0).
    destruct (reader_opens _ _ _ _ _ Hp E1) as [Ho Hc].
    destruct (reader_opens _ _ _ _ _ Hp E2) as [He _].
    split; [|split; [|exact Hc]].
    - apply (Hr a b _ _ _ _ E0).
      assert (Hg : grows (c <- open_read exp ;; parse c)).
      { apply grows_bind; [|exact Hp]. unfold open_read. repeat grows_step. }
      exact (Hg _ _ _ _ E2 Ho).
    - exact (Hr a b _ _ _ _ E0 He). }
  unfold assert_file in E.
  destruct (String.eqb (suffix exp) ".csv").
  { apply (Hgen _ (fun c => match c with
                            | CsvFile rows => lift (pd_parse rows)
                            | _ => if is_empty_file c
                                   then raise EmptyDataError
                                   else raise ParserError
                            end)
             (fun a b => pd_assert_frame_equal a b ABSOLUTE_TOLERANCE RELATIVE_TOLERANCE));
      [intros c; repeat grows_step | intros a b; unfold pd_assert_frame_equal;
                                      repeat grows_step | exact E]. }
  destruct (String.eqb (suffix exp) ".json").
  { apply (Hgen _ (fun c => match c with
                            | JsonFile v => ret v
                            | _ => raise JSONDecodeError
                            end)
             (fun a b => log JsonCompared ;;
                         if py_eq a b then ret tt else raise AssertionError));
      [intros c; repeat grows_step | intros a b; repeat grows_step | exact E]. }
  destruct (String.eqb_spec (suffix exp) ".html"); [contradiction|].
  destruct (String.eqb (suffix exp) ".npz"); [|discriminate E].
  apply (Hgen _ (fun c => match c with
                          | NpzFile members => ret members
                          | _ =>
                              if is_empty_file c
                              then raise EOFError
                              else raise (ValueError
                                            "Cannot load file containing pickled data when allow_pickle=False")
                          end)
           (fun data expected_data =>
              if negb (bool_decide
                         ((list_to_set (files data) : gset string)
                          = list_to_set (files expected_data)))
              then raise (KeyError "The .npz archives have different keys.")
              else
                for_each (files expected_data)
                  (fun nm =>
                     a <- lift (npz_getitem data nm) ;;
                     e <- lift (npz_getitem expected_data nm) ;;
                     np_assert_allclose nm a e ABSOLUTE_TOLERANCE RELATIVE_TOLERANCE)));
    [intros c; repeat grows_step
    | intros a b; unfold np_assert_allclose; repeat grows_step | exact E].
Qed.

Lemma compare_loop_opens exp out rels : forall w w',
  for_each rels (fun rel => assert_file (out ++ rel) (exp ++ rel)) w = (w', Ok tt) ->
  forall rel,
    In rel rels -> suffix (exp ++ rel) <> ".html" ->
    In (Read (out ++ rel)) (trace_of w') /\ In (Read (exp ++ rel)) (trace_of w') /\
    exists c, read_at (out ++ rel) (fs_of w) = Ok c.
Proof.
  induction rels as [|x rels IH]; intros w w' E rel Hin Hh; [destruct Hin|].
  simpl in E. apply bind_inv_ok in E as (w1 & [] & E1 & E).
  assert (Hg : grows (for_each rels (fun rel => assert_file (out ++ rel) (exp ++ rel))))
    by (apply grows_for_each; intros r; apply grows_assert_file).
  destruct Hin as [->|Hin].
  - destruct (assert_file_opens _ _ _ _ E1 Hh) as (Ho & He & Hc).
    split; [exact (Hg _ _ _ _ E Ho)|]. split; [exact (Hg _ _ _ _ E He) | exact Hc].
  - destruct (IH _ _ E rel Hin Hh) as (Ho & He & c & Hc).
    split; [exact Ho|]. split; [exact He|]. exists c.
    pose proof (keeps_assert_file (out ++ x) (exp ++ x) w) as Hk.
    rewrite E1 in Hk. simpl in Hk. now rewrite <- Hk.
Qed.

(** X15. When the comparison of a case passes, every file below the
    expected folder whose extension is not html has been opened, together
    with the output file at the same relative path, and that output file
    exists: no golden file is passed over, and none lacks its counterpart. *)
Theorem compare_outputs_opens_every_expected_file (exp out rel : path)
  (c : content) (w w' : world) :
  compare_outputs exp out w = (w', Ok tt) ->
  rel <> [] ->
  read_at (exp ++ rel) (fs_of w) = Ok c ->
  suffix (exp ++ rel) <> ".html" ->
  In (Read (exp ++ rel)) (trace_of w') /\
  In (Read (out ++ rel)) (trace_of w') /\
  exists c', read_at (out ++ rel) (fs_of w) = Ok c'.
Proof.
  intros E Hrel Hr Hh. rewrite compare_outputs_flat in E.
  destruct (compare_loop_opens _ _ _ _ _ E rel
              (files_below_complete _ _ _ _ Hrel Hr) Hh) as (Ho & He & Hc).
  now repeat split.
Qed.

End Completeness.

Lemma update_case_rewrites_expected_witness :
  let w :=
    World (project_fs [("Case01", case_node [("old.csv", File (csv_total "1"))])]) [] in
  let w' := fst (test_snapshots_case (H := plain_externals) "update" Case01 w) in
  exists d a b v,
    read_at (Case01 ++ [INPUTS_FOLDER_NAME; SETTINGS_FILENAME]) (fs_of w)
      = Ok (JsonFile (PDict d)) /\
    dict_get "a" d = Some a /\ dict_get "b" d = Some b /\ py_sub a b = Ok v /\
    lookup_node (Case01 ++ [EXPECTED_OUTPUTS_FOLDER]) (fs_of w')
      = Some (Dir [("df.csv",
                    File (CsvFile (to_csv (H := plain_externals)
                                     {| df_index := [PInt 0];
                                        df_columns := [("total", [v])] |})))]).
Proof.
  intros w w'.
  apply (update_case_rewrites_expected (H := plain_externals) Case01 w w').
  vm_compute. reflexivity.
Defined.

Lemma first_failing_case_ends_run_witness :
  let w := World (project_fs [("Case01", Dir []);
                              ("Case02", case_node [("df.csv", File (csv_total "7"))])])
             [] in
  let w' := fst (test_snapshots_case (H := plain_externals) "compare" Case01 w) in
  test_snapshots (H := plain_externals) "compare" w = (w', Raise FileNotFoundError).
Proof.
  intros w w'.
  apply (first_failing_case_ends_run (H := plain_externals) "compare" Case01
           [SNAPSHOTS_DIR ++ ["Case02"]] w w' FileNotFoundError).
  - left. reflexivity.
  - reflexivity.
  - vm_compute. reflexivity.
Defined.

Lemma compare_outputs_opens_every_expected_file_witness :
  let w :=
    World (project_fs
             [("Case01",
               Dir [("ExpectedOutputs", Dir [("df.csv", File (csv_total "7"))]);
                    ("TempOutputs", Dir [("df.csv", File (csv_total "7"))])])]) [] in
  let w' := fst (compare_outputs (H := plain_externals)
                   (Case01 ++ ["ExpectedOutputs"]) (Case01 ++ ["TempOutputs"]) w) in
  In (Read (Case01 ++ ["ExpectedOutputs"; "df.csv"])) (trace_of w') /\
  In (Read (Case01 ++ ["TempOutputs"; "df.csv"])) (trace_of w').
Proof.
  intros w w'.
  destruct (compare_outputs_opens_every_expected_file (H := plain_externals)
              (Case01 ++ ["ExpectedOutputs"]) (Case01 ++ ["TempOutputs"]) ["df.csv"]
              (csv_total "7") w w') as (He & Ho & _).
  - vm_compute. reflexivity.
  - discriminate.
  - reflexivity.
  - vm_compute. discriminate.
  - rewrite <- !app_assoc in He, Ho. split; [exact He | exact Ho].
Defined.

(** ** Comparison of json files *)

(** Induction on a value: a list or a dict has the property when the
    values it holds have it. *)
Lemma pyval_tree_ind (P : pyval -> Prop) :
  P PNone -> (forall b, P (PBool b)) -> (forall z, P (PInt z)) ->
  (forall f, P (PFloat f)) -> (forall s, P (PStr s)) ->
  (forall l, Forall P l -> P (PList l)) ->
  (forall d, Forall (fun e => P (snd e)) d -> P (PDict d)) ->
  forall v, P v.
Proof.
  intros HN HB HI HF HS HL HD. fix IH 1. intros [| b | z | f | s | l | d].
  - exact HN.
  - apply HB.
  - apply HI.
  - apply HF.
  - apply HS.
  - apply HL. induction l as [|x l IHl]; constructor; [apply IH | exact IHl].
  - apply HD. induction d as [|[k x] d IHd]; constructor; [apply IH | exact IHd].
Qed.

Lemma float_eqb_refl (f : float) : PrimFloat.is_nan f = false -> PrimFloat.eqb f f = true.
Proof. unfold PrimFloat.is_nan. now intros E%negb_false_iff. Qed.

Lemma same_nan_value v : same_nan v v = is_nan_value v.
Proof. destruct v; simpl; try reflexivity. now destruct (PrimFloat.is_nan f). Qed.

Lemma dict_get_In k v d :
  NoDup (map fst d) -> In (k, v) d -> dict_get k d = Some v.
Proof.
  induction d as [|[k' v'] d IH]; simpl; [tauto|].
  intros Hnd [E|Hin].
  - inversion E; subst. now rewrite String.eqb_refl.
  - apply NoDup_cons in Hnd as [Hk Hnd].
    destruct (String.eqb_spec k k') as [->|Hne]; [|now apply IH].
    exfalso. apply Hk. apply list_elem_of_In. apply in_map_iff. now exists (k', v).
Qed.

Lemma py_eq_same (v : pyval) :
  distinct_keys v = true -> is_nan_value v || py_eq v v = true.
Proof.
  induction v as [| b | z | f | s | l IHl | d IHd] using pyval_tree_ind; intros Hk.
  - reflexivity.
  - simpl. now destruct b.
  - simpl. apply Z.eqb_refl.
  - simpl. destruct (PrimFloat.is_nan f) eqn:E; [reflexivity|]. simpl.
    now apply float_eqb_refl.
  - simpl. apply String.eqb_refl.
  - cbn [is_nan_value orb]. cbn [py_eq]. revert Hk. cbn [distinct_keys].
    induction IHl as [|x l Hx _ IH]; [reflexivity|].
    intros [Hkx Hkl]%andb_true_iff. rewrite same_nan_value, (Hx Hkx). simpl.
    now apply IH.
  - cbn [is_nan_value orb]. cbn [py_eq]. rewrite Nat.eqb_refl. simpl.
    cbn [distinct_keys] in Hk. apply andb_true_iff in Hk as [Hnd Hk].
    apply bool_decide_eq_true_1 in Hnd.
    assert (Hgen : forall part,
              (forall k v, In (k, v) part -> dict_get k d = Some v) ->
              Forall (fun e => distinct_keys (snd e) = true ->
                               is_nan_value (snd e) || py_eq (snd e) (snd e) = true) part ->
              (fix all (d : list (string * pyval)) : bool :=
                 match d with
                 | [] => true
                 | (_, x) :: r => distinct_keys x && all r
                 end) part = true ->
              (fix all (da : list (string * pyval)) : bool :=
                 match da with
                 | [] => true
                 | (k, v) :: r =>
                     match dict_get k d with
                     | Some w => same_nan v w || py_eq v w
                     | None => false
                     end && all r
                 end) part = true).
    { induction part as [|[k x] part IH]; intros Hsub Hall Hkeys; [reflexivity|].
      apply andb_true_iff in Hkeys as [Hkx Hkd].
      apply Forall_cons in Hall as [Hx Hall]. simpl in Hx.
      rewrite (Hsub k x (or_introl eq_refl)).
      rewrite same_nan_value, (Hx Hkx). simpl.
      apply IH; [|exact Hall | exact Hkd]. intros k' v' Hin. apply Hsub. now right. }
    apply Hgen; [|exact IHd | exact Hk].
    intros k v. now apply dict_get_In.
Qed.

(** X16. A json file compared with a file of the same content passes, NaN
    inside lists and objects included: the comparison fails on equal
    contents only when the document is NaN on its own. *)
Theorem assert_json_same_content (out exp : path) (v : pyval) (w : world) :
  read_at out (fs_of w) = Ok (JsonFile v) ->
  read_at exp (fs_of w) = Ok (JsonFile v) ->
  distinct_keys v = true ->
  assert_json out exp w =
    (World (fs_of w) (((trace_of w ++ [Read out]) ++ [Read exp]) ++ [JsonCompared]),
     if is_nan_value v then Raise AssertionError else Ok tt).
Proof.
  intros Ho He Hk.
  unfold assert_json, json_load, open_read, log, reads, bind. simpl.
  rewrite Ho. simpl. rewrite He. simpl.
  pose proof (py_eq_same v Hk) as Hv.
  destruct (is_nan_value v) eqn:Hn.
  - destruct v; try discriminate Hn. simpl in Hn. simpl.
    unfold PrimFloat.is_nan in Hn. apply negb_true_iff in Hn. now rewrite Hn.
  - simpl in Hv. now rewrite Hv.
Qed.

Lemma assert_json_same_content_witness :
  let v := PDict [("values", PList [PFloat nan; PInt 1])] in
  let fs := Dir [("out.json", File (JsonFile v)); ("exp.json", File (JsonFile v))] in
  assert_json ["out.json"] ["exp.json"] (World fs [])
  = (World fs [Read ["out.json"]; Read ["exp.json"]; JsonCompared], Ok tt).
Proof.
  intros v fs.
  apply (assert_json_same_content ["out.json"] ["exp.json"] v (World fs []));
    reflexivity.
Defined.

(** ** The name of a case and its number *)

Lemma code_points_ascii (c : ascii) (r : string) :
  byte_val c < 128 -> code_points (String c r) = byte_val c :: code_points r.
Proof.
  intros Hc. cbn [code_points].
  destruct (Z.leb_spec 0xC2 (byte_val c)); [lia|]. cbn [andb].
  destruct (Z.leb_spec 0xE0 (byte_val c)); [lia|]. cbn [andb].
  destruct (Z.leb_spec 0xF0 (byte_val c)); [lia|]. cbn [andb].
  destruct (Z.ltb_spec (byte_val c) 0x80); [reflexivity | lia].
Qed.

Lemma digit_val_ascii (c : Z) : 48 <= c <= 57 -> digit_val c = Some (c - 48).
Proof.
  intros Hc. unfold digit_val, decimal_zeros. cbn [List.find].
  destruct (Z.leb_spec 0x30 c); [|lia]. destruct (Z.leb_spec c (0x30 + 9)); [|lia].
  reflexivity.
Qed.

Lemma is_space_digit (c : Z) : 45 <= c <= 57 -> is_space c = false.
Proof.
  intros Hc. unfold is_space, int_spaces. cbn [existsb].
  repeat match goal with
         | |- context [Z.eqb c ?k] => rewrite (proj2 (Z.eqb_neq c k)) by lia
         end.
  reflexivity.
Qed.

(** The scan of a decimal numeral continues an accumulator. *)
Ltac eval_bytes :=
  repeat match goal with
         | |- context [byte_val ?c] =>
             let v := eval vm_compute in (byte_val c) in
             change (byte_val c) with v
         end.

Lemma scan_digits_uint_acc (d : Decimal.uint) : forall (acc : positive) (count : Z),
  scan_digits (code_points (NilEmpty.string_of_uint d)) (Z.pos acc) count true
  = Some (Z.pos (Pos.of_uint_acc d acc), count + Z.of_nat (Decimal.nb_digits d), []).
Proof.
  induction d as [|d IH|d IH|d IH|d IH|d IH|d IH|d IH|d IH|d IH|d IH];
    intros acc count;
    [ cbn; now rewrite Z.add_0_r
    | cbn [NilEmpty.string_of_uint Pos.of_uint_acc Decimal.nb_digits];
      rewrite code_points_ascii by (vm_compute; reflexivity);
      cbn [scan_digits]; eval_bytes;
      rewrite digit_val_ascii by lia;
      match goal with
      | |- scan_digits _ ?a ?n true = Some (Z.pos (Pos.of_uint_acc _ ?p), _, _) =>
          replace a with (Z.pos p) by lia;
          rewrite IH; do 3 f_equal; lia
      end .. ].
Qed.

(** The scan of a decimal numeral from nothing gives its value and the
    number of its digits. *)
Lemma scan_digits_uint (d : Decimal.uint) : forall (count : Z) (b : bool),
  d <> Decimal.Nil ->
  scan_digits (code_points (NilEmpty.string_of_uint d)) 0 count b
  = Some (Z.of_N (Pos.of_uint d), count + Z.of_nat (Decimal.nb_digits d), []).
Proof.
  induction d as [|d IH|d IH|d IH|d IH|d IH|d IH|d IH|d IH|d IH|d IH];
    intros count b Hd; [congruence | ..];
    cbn [NilEmpty.string_of_uint Pos.of_uint Decimal.nb_digits];
    rewrite code_points_ascii by (vm_compute; reflexivity);
    cbn [scan_digits]; eval_bytes; rewrite digit_val_ascii by lia.
  - destruct d as [|d|d|d|d|d|d|d|d|d|d];
      [ cbn; do 3 f_equal; lia
      | change (10 * 0 + (48 - 48)) with 0;
        rewrite IH by discriminate; do 3 f_equal; lia .. ].
  - change (10 * 0 + (49 - 48)) with (Z.pos 1).
    rewrite scan_digits_uint_acc. do 3 f_equal; lia.
  - change (10 * 0 + (50 - 48)) with (Z.pos 2).
    rewrite scan_digits_uint_acc. do 3 f_equal; lia.
  - change (10 * 0 + (51 - 48)) with (Z.pos 3).
    rewrite scan_digits_uint_acc. do 3 f_equal; lia.
  - change (10 * 0 + (52 - 48)) with (Z.pos 4).
    rewrite scan_digits_uint_acc. do 3 f_equal; lia.
  - change (10 * 0 + (53 - 48)) with (Z.pos 5).
    rewrite scan_digits_uint_acc. do 3 f_equal; lia.
  - change (10 * 0 + (54 - 48)) with (Z.pos 6).
    rewrite scan_digits_uint_acc. do 3 f_equal; lia.
  - change (10 * 0 + (55 - 48)) with (Z.pos 7).
    rewrite scan_digits_uint_acc. do 3 f_equal; lia.
  - change (10 * 0 + (56 - 48)) with (Z.pos 8).
    rewrite scan_digits_uint_acc. do 3 f_equal; lia.
  - change (10 * 0 + (57 - 48)) with (Z.pos 9).
    rewrite scan_digits_uint_acc. do 3 f_equal; lia.
Qed.

Lemma string_of_uint_length (d : Decimal.uint) :
  String.length (NilEmpty.string_of_uint d) = Decimal.nb_digits d.
Proof. induction d; simpl; congruence. Qed.

Lemma substring_all (s : string) : String.substring 0 (String.length s) s = s.
Proof. induction s as [|c s IH]; simpl; [reflexivity | now rewrite IH]. Qed.

Lemma drop4_case (s : string) : drop4 ("Case" +:+ s) = s.
Proof.
  change ("Case" +:+ s) with (String "C" (String "a" (String "s" (String "e" s)))).
  unfold drop4. cbn [String.length Nat.sub String.substring].
  rewrite Nat.sub_0_r. apply substring_all.
Qed.

(** [int] reads a decimal numeral of at most 4300 digits as its value. *)
Lemma py_int_uint (d : Decimal.uint) (sign : string) (negative : bool) :
  d <> Decimal.Nil -> Z.of_nat (Decimal.nb_digits d) <= 4300 ->
  (sign = "" /\ negative = false) \/ (sign = "-" /\ negative = true) ->
  py_int (sign +:+ NilEmpty.string_of_uint d)
  = Ok (if negative then - Z.of_N (Pos.of_uint d) else Z.of_N (Pos.of_uint d)).
Proof.
  intros Hd Hn Hsign.
  pose proof (scan_digits_uint d 0 false Hd) as Hscan.
  assert (Hhead : exists c r, code_points (NilEmpty.string_of_uint d) = c :: r
                              /\ 48 <= c <= 57).
  { destruct d; [congruence | ..]; cbn [NilEmpty.string_of_uint];
      rewrite code_points_ascii by (vm_compute; reflexivity);
      eexists _, _; (split; [reflexivity|]); vm_compute; split; discriminate. }
  destruct Hhead as (c & r & Hl & Hc).
  assert (Hcount : (4300 <? 0 + Z.of_nat (Decimal.nb_digits d)) = false)
    by (apply Z.ltb_ge; lia).
  assert (Hsome : (0 + Z.of_nat (Decimal.nb_digits d) =? 0) = false).
  { apply Z.eqb_neq. destruct d; [congruence | ..]; cbn [Decimal.nb_digits]; lia. }
  unfold py_int.
  destruct Hsign as [[-> ->] | [-> ->]].
  - change ("" +:+ NilEmpty.string_of_uint d) with (NilEmpty.string_of_uint d).
    rewrite Hl in *. cbn [lstrip]. rewrite (is_space_digit c) by lia.
    replace (c =? 0x2D) with false by (symmetry; apply Z.eqb_neq; lia).
    replace (c =? 0x2B) with false by (symmetry; apply Z.eqb_neq; lia).
    cbn [orb]. rewrite Hscan, Hcount, Hsome. reflexivity.
  - change ("-" +:+ NilEmpty.string_of_uint d)
      with (String "-" (NilEmpty.string_of_uint d)).
    rewrite code_points_ascii by (vm_compute; reflexivity).
    eval_bytes. cbn [lstrip]. rewrite (is_space_digit 45) by lia.
    change (45 =? 0x2D) with true. cbn [orb tl].
    rewrite Hscan, Hcount, Hsome. reflexivity.
Qed.

Lemma string_of_uint_nonnil (d : Decimal.uint) :
  d <> Decimal.Nil -> NilZero.string_of_uint d = NilEmpty.string_of_uint d.
Proof. destruct d; [congruence | reflexivity ..]. Qed.

(** X17. The name the allocation gives to the case number [n] is read
    back as [n] by the next allocation: [int] of what follows "Case" in
    "Case" + f"{n:02d}" is [n], for every number, negative ones included,
    whose numeral stays within the 4300 digits [int] accepts. *)
Theorem case_number_round_trip (n : Z) :
  Z.of_nat (String.length (format_02d n)) <= 4300 ->
  py_int (drop4 ("Case" +:+ format_02d n)) = Ok n.
Proof.
  intros Hlen. rewrite drop4_case. destruct n as [|p|p].
  - vm_compute. reflexivity.
  - pose proof (DecimalPos.Unsigned.to_uint_nonnil p) as Hd.
    pose proof (DecimalPos.Unsigned.of_to p) as Hv.
    revert Hlen. unfold format_02d, str_of_Z. cbn [Z.to_int NilZero.string_of_int].
    rewrite (string_of_uint_nonnil _ Hd).
    destruct (String.length (NilEmpty.string_of_uint (Pos.to_uint p)) <? 2)%nat;
      intros Hlen.
    + change (py_int ("" +:+ NilEmpty.string_of_uint (Decimal.D0 (Pos.to_uint p)))
              = Ok (Z.pos p)).
      rewrite (py_int_uint (Decimal.D0 (Pos.to_uint p)) "" false).
      * cbn [Pos.of_uint]. now rewrite Hv.
      * discriminate.
      * rewrite <- string_of_uint_length. exact Hlen.
      * now left.
    + change (py_int ("" +:+ NilEmpty.string_of_uint (Pos.to_uint p)) = Ok (Z.pos p)).
      rewrite (py_int_uint (Pos.to_uint p) "" false).
      * now rewrite Hv.
      * exact Hd.
      * rewrite <- string_of_uint_length. exact Hlen.
      * now left.
  - pose proof (DecimalPos.Unsigned.to_uint_nonnil p) as Hd.
    pose proof (DecimalPos.Unsigned.of_to p) as Hv.
    revert Hlen. unfold format_02d, str_of_Z. cbn [Z.to_int NilZero.string_of_int].
    rewrite (string_of_uint_nonnil _ Hd).
    assert (Hlong : (String.length (String "-" (NilEmpty.string_of_uint (Pos.to_uint p)))
                     <? 2)%nat = false).
    { destruct (Pos.to_uint p); [congruence | reflexivity ..]. }
    rewrite Hlong. intros Hlen.
    change (py_int ("-" +:+ NilEmpty.string_of_uint (Pos.to_uint p)) = Ok (Z.neg p)).
    rewrite (py_int_uint (Pos.to_uint p) "-" true).
    + now rewrite Hv.
    + exact Hd.
    + rewrite <- string_of_uint_length. cbn [String.length] in Hlen. lia.
    + now right.
Qed.

Lemma case_number_round_trip_witness :
  py_int (drop4 ("Case" +:+ format_02d 7)) = Ok 7.
Proof.
  apply (case_number_round_trip 7). vm_compute. intros E. discriminate E.
Defined.

(** ** A case that has just been updated compares clean *)

(** A directory that is there can be removed. *)
Lemma rmtree_at_ok p : forall n,
  p <> [] -> is_dir_at p n = true -> exists n', rmtree_at p n = Ok n'.
Proof.
  unfold is_dir_at. induction p as [|x p IH]; intros n Hp Hd; [congruence|].
  destruct n as [c|es]; [discriminate Hd|]. simpl in Hd.
  destruct (entry_get x es) as [ch|] eqn:Hg; [|discriminate Hd].
  destruct p as [|y p].
  - simpl in Hd. simpl. rewrite Hg. destruct ch; [discriminate Hd | eauto].
  - rewrite rmtree_at_cons2, Hg.
    destruct (IH ch ltac:(discriminate) Hd) as [ch' ->]. eauto.
Qed.

Lemma rmtree_at_parent p x es : forall n n',
  lookup_node p n = Some (Dir es) ->
  rmtree_at (p ++ [x]) n = Ok n' ->
  lookup_node p n' = Some (Dir (entry_del x es)).
Proof.
  induction p as [|y p IH]; intros n n' Hl E; cbn [app] in E; simpl in Hl |- *.
  - inversion Hl; subst. destruct (rmtree_at_leaf _ _ _ E) as (es' & Hes & ->).
    now inversion Hes.
  - assert (Hp : p ++ [x] <> []) by (destruct p; discriminate).
    destruct (rmtree_at_step _ _ _ _ Hp E) as (es0 & ch & ch' & -> & -> & E' & Hz).
    rewrite Hz in Hl. rewrite entry_get_set_eq. now apply (IH _ _ Hl E').
Qed.

(** A directory can be made in a directory where no file has its name. *)
Lemma mkdir_at_ok p x es : forall n,
  lookup_node p n = Some (Dir es) ->
  (forall c, entry_get x es <> Some (File c)) ->
  exists n', mkdir_at (p ++ [x]) n = Ok n'.
Proof.
  induction p as [|y p IH]; intros n Hl Hx; simpl in Hl.
  - inversion Hl; subst. simpl.
    destruct (entry_get x es) as [[c|es']|]; simpl; eauto. now destruct (Hx c).
  - destruct n as [c|es0]; [discriminate Hl|].
    destruct (entry_get y es0) as [ch|] eqn:Hg; [|discriminate Hl].
    cbn [app mkdir_at]. rewrite Hg. simpl.
    destruct (IH ch Hl Hx) as [ch' ->]. eauto.
Qed.

(** A file can be written in a directory where no directory has its name. *)
Lemma write_at_ok p x c es : forall n,
  lookup_node p n = Some (Dir es) ->
  (forall es', entry_get x es <> Some (Dir es')) ->
  exists n', write_at (p ++ [x]) c n = Ok n'.
Proof.
  induction p as [|y p IH]; intros n Hl Hx; simpl in Hl.
  - inversion Hl; subst. simpl.
    destruct (entry_get x es) as [[c0|es']|]; eauto. now destruct (Hx es').
  - destruct n as [c0|es0]; [discriminate Hl|].
    destruct (entry_get y es0) as [ch|] eqn:Hg; [|discriminate Hl].
    destruct (IH ch Hl Hx) as [ch' Hw].
    destruct (p ++ [x]) as [|z q] eqn:Hq; [destruct p; discriminate Hq|].
    cbn [app]. rewrite Hq, write_at_cons2, Hg, Hw. eauto.
Qed.

(** The directories above a node that is there are there. *)
Lemma lookup_node_above p q n m :
  lookup_node (p ++ q) n = Some m -> q <> [] -> is_dir_at p n = true.
Proof.
  rewrite lookup_node_app. unfold is_dir_at.
  destruct (lookup_node p n) as [[c|es]|]; try discriminate; [|reflexivity].
  destruct q; [congruence | discriminate].
Qed.

Lemma lookup_node_child p x n es :
  lookup_node p n = Some (Dir es) -> lookup_node (p ++ [x]) n = entry_get x es.
Proof.
  intros Hl. rewrite lookup_node_app, Hl. simpl. now destruct (entry_get x es).
Qed.

Section UpdateThenCompare.
Context `{Externals}.

(** The export of one item into a folder that is there and holds no
    directory of the item's name. *)
Lemma export_to_file_ok item d c es w :
  lookup_node d (fs_of w) = Some (Dir es) ->
  (forall es', entry_get (item_file_name item) es <> Some (Dir es')) ->
  data item = FrameData c -> extension item = "csv" ->
  exists fs',
    export_to_file item (Some d) w = (World fs' (trace_of w), Ok tt) /\
    lookup_node d fs'
    = Some (Dir (entry_set (item_file_name item) (File (CsvFile (to_csv c))) es)).
Proof.
  intros Hl Hx Hdata Hext.
  destruct (write_at_ok d (item_file_name item) (CsvFile (to_csv c)) es _ Hl Hx)
    as [fs' Hw].
  exists fs'. split; [|exact (write_at_parent _ _ _ _ _ _ Hl Hw)].
  unfold export_to_file, mkdir, open_write, updates, bind, joinpath. simpl.
  rewrite mkdir_at_existing by (unfold is_dir_at; now rewrite Hl).
  rewrite Hext, Hdata. simpl. unfold item_file_name in Hw. rewrite Hext in Hw.
  now rewrite Hw.
Qed.

Lemma updates_ok f w fs' :
  f (fs_of w) = Ok fs' -> updates f w = (World fs' (trace_of w), Ok tt).
Proof. intros E. unfold updates. now rewrite E. Qed.

(** The loop of [export_outputs] over the model's output set, in a fresh
    folder. *)
Lemma export_total_items_ok d v fs2 t :
  lookup_node d fs2 = Some (Dir []) ->
  exists fs',
    for_each (output_items (total_output_set v))
      (fun item =>
         if negb (String.eqb (extension item) "html")
         then export_to_file item (Some d)
         else ret tt) (World fs2 t) = (World fs' t, Ok tt) /\
    lookup_node d fs'
    = Some (Dir [("df.csv",
                  File (CsvFile (to_csv {| df_index := [PInt 0];
                                           df_columns := [("total", [v])] |})))]).
Proof.
  intros Hl2.
  destruct (export_to_file_ok
              {| data := FrameData {| df_index := [PInt 0];
                                      df_columns := [("total", [v])] |};
                 filename := "df"; extension := "csv" |}
              d _ [] (World fs2 t) Hl2
              ltac:(discriminate) eq_refl eq_refl) as (fs3 & Hexp & Hl3).
  exists fs3. split; [|exact Hl3].
  simpl for_each. cbn [negb String.eqb Ascii.eqb Bool.eqb extension].
  now rewrite (bind_ok _ _ _ _ _ Hexp).
Qed.

(** [export_outputs] of the model's output set gets through when the
    folder can be made, and the folder then holds df.csv only. *)
Lemma export_outputs_total_ok c x v w :
  is_dir_at c (fs_of w) = true ->
  (forall f, lookup_node (c ++ [x]) (fs_of w) <> Some (File f)) ->
  exists fs',
    export_outputs (c ++ [x]) (total_output_set v) w = (World fs' (trace_of w), Ok tt) /\
    lookup_node (c ++ [x]) fs'
    = Some (Dir [("df.csv",
                  File (CsvFile (to_csv {| df_index := [PInt 0];
                                           df_columns := [("total", [v])] |})))]).
Proof.
  intros Hc Hx. unfold is_dir_at in Hc.
  destruct (lookup_node c (fs_of w)) as [[f|es]|] eqn:Hl; try discriminate Hc.
  unfold export_outputs.
  rewrite (bind_ok _ _ w w (is_dir_at (c ++ [x]) (fs_of w))) by reflexivity.
  destruct (is_dir_at (c ++ [x]) (fs_of w)) eqn:Hd.
  - destruct (rmtree_at_ok (c ++ [x]) (fs_of w)
                ltac:(destruct c; discriminate) Hd) as [fs1 Hr].
    pose proof (rmtree_at_parent _ _ _ _ _ Hl Hr) as Hl1.
    destruct (mkdir_at_ok c x _ fs1 Hl1) as [fs2 Hm].
    { intros f. now rewrite entry_get_del_eq. }
    assert (Hl2 : lookup_node (c ++ [x]) fs2 = Some (Dir [])).
    { apply (mkdir_at_fresh _ fs1 _); [|exact Hm]. left.
      unfold is_dir_at. now rewrite (rmtree_at_gone _ _ _ Hr). }
    destruct (export_total_items_ok _ v fs2 (trace_of w) Hl2) as (fs3 & Hloop & Hl3).
    exists fs3. split; [|exact Hl3].
    rewrite (bind_ok _ _ _ _ _ (updates_ok (rmtree_at (c ++ [x])) w fs1 Hr)).
    rewrite (bind_ok _ _ _ _ _
               (updates_ok (mkdir_at (c ++ [x])) (World fs1 (trace_of w)) fs2 Hm)).
    exact Hloop.
  - destruct (mkdir_at_ok c x _ (fs_of w) Hl) as [fs2 Hm].
    { intros f Hg. apply (Hx f). now rewrite (lookup_node_child _ _ _ _ Hl). }
    assert (Hl2 : lookup_node (c ++ [x]) fs2 = Some (Dir []))
      by (apply (mkdir_at_fresh _ (fs_of w) _); [now left | exact Hm]).
    destruct (export_total_items_ok _ v fs2 (trace_of w) Hl2) as (fs3 & Hloop & Hl3).
    exists fs3. split; [|exact Hl3].
    rewrite (bind_ok _ _ w w tt) by reflexivity.
    rewrite (bind_ok _ _ _ _ _ (updates_ok (mkdir_at (c ++ [x])) w fs2 Hm)).
    exact Hloop.
Qed.


(** On loaded settings with a and b, the model returns its output set and
    leaves the world alone. *)
Lemma main_run_quiet d a b v w :
  dict_get "a" d = Some a -> dict_get "b" d = Some b -> py_sub a b = Ok v ->
  main (PDict (dict_set "create_output_files" (PBool false) d)) w
  = (w, Ok (total_output_set v)).
Proof.
  intros Ha Hb Hv. rewrite main_settings_given. unfold py_getitem, lift, bind.
  rewrite !dict_get_set_ne by discriminate. rewrite Ha, Hb, Hv.
  rewrite dict_get_set_eq. reflexivity.
Qed.

(** The comparison of two folders that hold the same df.csv and nothing
    else passes, when the table parses and is equal to itself. *)
Lemma compare_outputs_same_table exp out rows data fs t :
  lookup_node exp fs = Some (Dir [("df.csv", File (CsvFile rows))]) ->
  lookup_node out fs = Some (Dir [("df.csv", File (CsvFile rows))]) ->
  pd_parse rows = Ok data ->
  pd_frame_equal data data ABSOLUTE_TOLERANCE RELATIVE_TOLERANCE = true ->
  compare_outputs exp out (World fs t)
  = (World fs (((t ++ [Read (out ++ ["df.csv"])]) ++ [Read (exp ++ ["df.csv"])])
               ++ [FrameCompared]),
     Ok tt).
Proof.
  intros He Ho Hp Hq. rewrite compare_outputs_flat.
  unfold files_below, os_walk. cbn [fs_of]. rewrite He. simpl.
  rewrite drop_app_length. simpl.
  assert (Hs : suffix (exp ++ ["df.csv"]) = ".csv")
    by (unfold suffix; rewrite name_joinpath; reflexivity).
  unfold assert_file. rewrite Hs. cbn [String.eqb Ascii.eqb Bool.eqb].
  assert (Hr : forall p, lookup_node p fs = Some (Dir [("df.csv", File (CsvFile rows))]) ->
                         read_at (p ++ ["df.csv"]) fs = Ok (CsvFile rows)).
  { intros p Hl. apply read_at_ok_lookup. rewrite lookup_node_app, Hl. reflexivity. }
  pose proof (assert_csv_run (out ++ ["df.csv"]) (exp ++ ["df.csv"]) rows rows
                data data (World fs t) (Hr _ Ho) (Hr _ He) Hp Hp) as Hrun.
  rewrite Hq in Hrun. rewrite (bind_ok _ _ _ _ _ Hrun). reflexivity.
Qed.


(** X18. A case that update mode has just rewritten passes compare mode:
    the run reads the same settings, writes the same df.csv into
    TempOutputs, finds it equal to the golden file, and removes
    TempOutputs again, leaving the golden files as they were. It takes
    that the table written parses and is equal to itself for the
    library, and that no plain file stands where TempOutputs goes. *)
Theorem update_then_compare_passes (case_dir : path) (w w1 : world)
  (d : list (string * pyval)) (a b v : pyval) (data : DataFrame) :
  test_snapshots_case "update" case_dir w = (w1, Ok tt) ->
  read_at (case_dir ++ [INPUTS_FOLDER_NAME; SETTINGS_FILENAME]) (fs_of w)
    = Ok (JsonFile (PDict d)) ->
  dict_get "a" d = Some a -> dict_get "b" d = Some b -> py_sub a b = Ok v ->
  pd_parse (to_csv {| df_index := [PInt 0]; df_columns := [("total", [v])] |})
    = Ok data ->
  pd_frame_equal data data ABSOLUTE_TOLERANCE RELATIVE_TOLERANCE = true ->
  (forall f, lookup_node (case_dir ++ [OUTPUTS_FOLDER_NAME]) (fs_of w)
             <> Some (File f)) ->
  exists w2,
    test_snapshots_case "compare" case_dir w1 = (w2, Ok tt) /\
    lookup_node (case_dir ++ [EXPECTED_OUTPUTS_FOLDER]) (fs_of w2)
      = lookup_node (case_dir ++ [EXPECTED_OUTPUTS_FOLDER]) (fs_of w1) /\
    lookup_node (case_dir ++ [OUTPUTS_FOLDER_NAME]) (fs_of w2) = None.
Proof.
  intros E Hr Ha Hb Hv Hp Hq Ht.
  unfold test_snapshots_case in E.
  change (String.eqb "update" "create") with false in E.
  change (String.eqb "update" "update") with true in E.
  cbv iota in E.
  rewrite (bind_ok _ _ _ _ _ (load_settings_dict _ _ _ Hr)) in E.
  rewrite (bind_ok _ _ _ _ _ (main_run_quiet d a b v _ Ha Hb Hv)) in E.
  rewrite (bind_ok _ _ _ _ tt eq_refl) in E. unfold joinpath in E.
  assert (Hside : forall y q, y <> EXPECTED_OUTPUTS_FOLDER ->
            lookup_node (case_dir ++ y :: q) (fs_of w1)
            = lookup_node (case_dir ++ y :: q) (fs_of w)).
  { intros y q Hy.
    apply (export_outputs_sibling case_dir EXPECTED_OUTPUTS_FOLDER y q _ _ _ E).
    congruence. }
  assert (Hr1 : read_at (case_dir ++ [INPUTS_FOLDER_NAME; SETTINGS_FILENAME]) (fs_of w1)
                = Ok (JsonFile (PDict d))).
  { apply read_at_ok_lookup. rewrite Hside by discriminate.
    now apply read_at_ok_lookup. }
  assert (Hexp : lookup_node (case_dir ++ [EXPECTED_OUTPUTS_FOLDER]) (fs_of w1)
                 = Some (Dir [("df.csv",
                               File (CsvFile (to_csv {| df_index := [PInt 0];
                                                        df_columns := [("total", [v])] |})))])).
  { destruct (export_outputs_fresh _ _ _ _ E) as (fs2 & Hl & El).
    exact (export_items_listing _ _ _ (World fs2 _) _ Hl El). }
  assert (Hdir : is_dir_at case_dir (fs_of w1) = true)
    by exact (lookup_node_above _ _ _ _ Hexp ltac:(discriminate)).
  set (wA := World (fs_of w1)
               (trace_of w1 ++ [Read (case_dir ++ [INPUTS_FOLDER_NAME; SETTINGS_FILENAME])])).
  destruct (export_outputs_total_ok case_dir OUTPUTS_FOLDER_NAME v wA Hdir)
    as (fsB & Hout & HlB).
  { intros f. cbn [fs_of wA]. rewrite Hside by discriminate. apply Ht. }
  assert (HexpB : lookup_node (case_dir ++ [EXPECTED_OUTPUTS_FOLDER]) fsB
                  = lookup_node (case_dir ++ [EXPECTED_OUTPUTS_FOLDER]) (fs_of w1)).
  { apply (export_outputs_sibling case_dir OUTPUTS_FOLDER_NAME
             EXPECTED_OUTPUTS_FOLDER [] _ wA (World fsB (trace_of wA)) Hout).
    discriminate. }
  destruct (rmtree_at_ok (case_dir ++ [OUTPUTS_FOLDER_NAME]) fsB
              ltac:(destruct case_dir; discriminate)
              ltac:(unfold is_dir_at; now rewrite HlB)) as [fsD HrD].
  exists (World fsD
            (((trace_of wA ++ [Read ((case_dir ++ [OUTPUTS_FOLDER_NAME]) ++ ["df.csv"])])
              ++ [Read ((case_dir ++ [EXPECTED_OUTPUTS_FOLDER]) ++ ["df.csv"])])
             ++ [FrameCompared])).
  split; [|split].
  - unfold test_snapshots_case.
    change (String.eqb "compare" "create") with false.
    change (String.eqb "compare" "update") with false.
    change (String.eqb "compare" "compare") with true.
    cbv iota.
    rewrite (bind_ok _ _ _ _ _ (load_settings_dict _ _ _ Hr1)).
    rewrite (bind_ok _ _ _ _ _ (main_run_quiet d a b v _ Ha Hb Hv)).
    rewrite (bind_ok _ _ _ _ tt eq_refl). unfold joinpath.
    rewrite (bind_ok _ _ _ _ _ Hout).
    rewrite (bind_ok _ _ _ _ _
               (compare_outputs_same_table _ _ _ data fsB _
                  (eq_trans HexpB Hexp) HlB Hp Hq)).
    exact (updates_ok (rmtree_at (case_dir ++ [OUTPUTS_FOLDER_NAME]))
             (World fsB _) fsD HrD).
  - cbn [fs_of]. rewrite <- HexpB.
    exact (rmtree_at_sibling case_dir OUTPUTS_FOLDER_NAME []
             EXPECTED_OUTPUTS_FOLDER [] _ _ HrD ltac:(discriminate)).
  - cbn [fs_of]. exact (rmtree_at_gone _ _ _ HrD).
Qed.

End UpdateThenCompare.

Lemma update_then_compare_passes_witness :
  let w := World (project_fs [("Case01", case_node [("old.csv", File (csv_total "1"))])]) [] in
  let w1 := fst (test_snapshots_case (H := plain_externals) "update" Case01 w) in
  exists w2,
    test_snapshots_case (H := plain_externals) "compare" Case01 w1 = (w2, Ok tt) /\
    lookup_node (Case01 ++ [EXPECTED_OUTPUTS_FOLDER]) (fs_of w2)
      = lookup_node (Case01 ++ [EXPECTED_OUTPUTS_FOLDER]) (fs_of w1) /\
    lookup_node (Case01 ++ [OUTPUTS_FOLDER_NAME]) (fs_of w2) = None.
Proof.
  intros w w1.
  eapply (update_then_compare_passes (H := plain_externals) Case01 w w1
            [("a", PInt 10); ("b", PInt 3)] (PInt 10) (PInt 3) (PInt 7)).
  - vm_compute. reflexivity.
  - reflexivity.
  - reflexivity.
  - reflexivity.
  - reflexivity.
  - reflexivity.
  - vm_compute. reflexivity.
  - intros f. vm_compute. discriminate.
Defined.
